(** * Audio augmentation engine of hey-jarvis

    A shallow embedding of [scripts/preprocessing/augment_data.py]
    (class [AudioAugmenter]), of [secure_config.py] and of
    [scripts/preprocessing/prepare_datasets.py], and the properties of
    their functions.

    Modelling conventions of the augmentation.
    - A numpy array as [soundfile] returns it is an [ndarray]: one
      dimension for a mono file, two dimensions (frames, channels) for a
      multi-channel file.  Tiling, slicing, indexing, interpolation and
      addition follow numpy on both layouts, broadcasting included.
    - A sample is a real number: float64 rounding, infinities and NaN are
      idealised away.  Where numpy would produce [inf] or [nan] (the mean of
      an empty array, the gain for a noise of zero power) the model produces
      some real; the statements about values suppose positive powers.
    - Exceptions are exact.  The signal-to-noise ratio is a float64 and
      [snr_db / 10.0] is the IEEE division, because [10 ** x] raises
      [OverflowError] above a threshold of [x] and is [0.0] below another;
      between the two the power of ten is the real number [10^x].
    - A Python float that only drives index arithmetic (the stretch rate of
      [time_stretch], the grid of [np.linspace]) is a rational [Q], so that
      the index computations stay executable; integer lengths and sample
      rates are [nat] and [Z].  True divisions of integers followed by
      [int(...)] or [np.ceil] are computed exactly (they agree with float64
      below 2^53).
    - Python exceptions are the [Raise] results of an error monad; file
      access, logging and the [random] module go through a state monad that
      records a trace of events and reads a tape of random draws. *)

From Stdlib Require Import String Ascii DecimalString.
From Stdlib Require Import Bool Arith PeanoNat ZArith QArith Qround Qreals.
From Stdlib Require Import Reals Lra Lia List SpecFloat.
Import ListNotations.

Local Open Scope string_scope.
Local Open Scope nat_scope.
Local Open Scope list_scope.

(** ** Exceptions and results *)

Inductive exn : Type :=
| ZeroDivisionError
| ValueError
| IndexError
| OverflowError
| SoundFileError.

Inductive result (A : Type) : Type :=
| Ok (a : A)
| Raise (e : exn).

Arguments Ok {A} a.
Arguments Raise {A} e.

Definition rbind {A B : Type} (r : result A) (f : A -> result B) : result B :=
  match r with
  | Ok a => f a
  | Raise e => Raise e
  end.

Definition rmap {A B : Type} (f : A -> B) (r : result A) : result B :=
  rbind r (fun a => Ok (f a)).

(** ** Arrays *)

(** The samples of one axis. *)
Definition buffer : Type := list R.

(** What [sf.read] returns: shape [(frames,)] for a mono file, shape
    [(frames, channels)] otherwise, every frame holding [channels]
    samples. *)
Inductive ndarray : Type :=
| Mono (samples : buffer)
| Multi (channels : nat) (frames : list buffer).

(** [len(a)]: the size of the first axis. *)
Definition len (a : ndarray) : nat :=
  match a with
  | Mono samples => length samples
  | Multi _ frames => length frames
  end.

(** [a.shape]. *)
Definition shape (a : ndarray) : list nat :=
  match a with
  | Mono samples => [length samples]
  | Multi channels frames => [length frames; channels]
  end.

(** All the samples, frame after frame. *)
Definition elements (a : ndarray) : buffer :=
  match a with
  | Mono samples => samples
  | Multi _ frames => concat frames
  end.

(** Every frame has the number of channels the shape announces. *)
Definition well_shaped (a : ndarray) : Prop :=
  match a with
  | Mono _ => True
  | Multi channels frames =>
      Forall (fun frame => length frame = channels) frames
  end.

(** An operation on every sample. *)
Definition np_map (f : R -> R) (a : ndarray) : ndarray :=
  match a with
  | Mono samples => Mono (map f samples)
  | Multi channels frames => Multi channels (map (map f) frames)
  end.

(** [np.mean]: the sum of the elements over their number. *)
Definition np_sum (x : buffer) : R := fold_right Rplus 0%R x.

Definition np_mean (x : buffer) : R := (np_sum x / INR (length x))%R.

(** [x ** 2], element by element. *)
Definition np_square (x : buffer) : buffer := map (fun v => (v * v)%R) x.

(** [scale * x] for a scalar [scale], on one axis and on an array. *)
Definition np_scale (scale : R) (x : buffer) : buffer :=
  map (fun v => (scale * v)%R) x.

Definition np_scale_array (scale : R) (a : ndarray) : ndarray :=
  np_map (fun v => (scale * v)%R) a.

Fixpoint zip_add (x y : buffer) : buffer :=
  match x, y with
  | a :: x', b :: y' => (a + b)%R :: zip_add x' y'
  | _, _ => []
  end.

(** Two sizes of one axis broadcast when they are equal or one of them is
    1; the result has the other size. *)
Definition bc_dim (a b : nat) : option nat :=
  if a =? b then Some a
  else if a =? 1 then Some b
  else if b =? 1 then Some a
  else None.

(** [x + y] along one axis whose sizes broadcast: equal lengths add
    element by element, a length-one operand is stretched. *)
Definition add_axis (x y : buffer) : buffer :=
  if length x =? length y then zip_add x y
  else match x, y with
       | [a], _ => map (fun b => (a + b)%R) y
       | _, [b] => map (fun a => (a + b)%R) x
       | _, _ => []
       end.

Fixpoint zip_frames (x y : list buffer) : list buffer :=
  match x, y with
  | a :: x', b :: y' => add_axis a b :: zip_frames x' y'
  | _, _ => []
  end.

(** The same along the first of two axes. *)
Definition add_frames (x y : list buffer) : list buffer :=
  if length x =? length y then zip_frames x y
  else match x, y with
       | [a], _ => map (fun b => add_axis a b) y
       | _, [b] => map (fun a => add_axis a b) x
       | _, _ => []
       end.

(** [x + y] with numpy's broadcasting: the shapes are aligned on their last
    axis, a one-dimensional operand counting as one frame; sizes that do
    not broadcast raise [ValueError]. *)
Definition np_add (x y : ndarray) : result ndarray :=
  match x, y with
  | Mono a, Mono b =>
      match bc_dim (length a) (length b) with
      | Some _ => Ok (Mono (add_axis a b))
      | None => Raise ValueError
      end
  | Mono a, Multi c frames =>
      match bc_dim (length a) c with
      | Some c' => Ok (Multi c' (map (fun f => add_axis a f) frames))
      | None => Raise ValueError
      end
  | Multi c frames, Mono b =>
      match bc_dim c (length b) with
      | Some c' => Ok (Multi c' (map (fun f => add_axis f b) frames))
      | None => Raise ValueError
      end
  | Multi c1 frames1, Multi c2 frames2 =>
      match bc_dim (length frames1) (length frames2), bc_dim c1 c2 with
      | Some _, Some c' => Ok (Multi c' (add_frames frames1 frames2))
      | _, _ => Raise ValueError
      end
  end.

(** [np.tile(x, reps)] on one axis. *)
Fixpoint np_tile {A : Type} (x : list A) (reps : nat) : list A :=
  match reps with
  | 0 => []
  | S r => x ++ np_tile x r
  end.

(** [np.tile(a, reps)] for an integer [reps]: the last axis is the one
    that is repeated, so a two-dimensional array keeps its frames and gets
    [reps] times as many channels. *)
Definition np_tile_array (a : ndarray) (reps : nat) : ndarray :=
  match a with
  | Mono samples => Mono (np_tile samples reps)
  | Multi channels frames =>
      Multi (channels * reps) (map (fun f => np_tile f reps) frames)
  end.

(** A Python slice [x[start:stop]] (step 1): negative bounds count from the
    end, and both bounds are clamped to the array. *)
Definition slice_bound (len i : Z) : Z :=
  if (i <? 0)%Z then Z.max 0 (i + len) else Z.min i len.

Definition py_slice {A : Type} (x : list A) (start stop : Z) : list A :=
  let len := Z.of_nat (length x) in
  let a := slice_bound len start in
  let b := slice_bound len stop in
  firstn (Z.to_nat (b - a)) (skipn (Z.to_nat a) x).

(** [a[start:stop]]: a slice of the first axis. *)
Definition slice_frames (a : ndarray) (start stop : Z) : ndarray :=
  match a with
  | Mono samples => Mono (py_slice samples start stop)
  | Multi channels frames => Multi channels (py_slice frames start stop)
  end.

(** [int(np.ceil(a / b))] for lengths [a] and [b > 0]. *)
Definition ceil_div (a b : nat) : nat := (a + b - 1) / b.

(** ** Transform primitives *)

(** [change_volume]: [audio * factor]. *)
Definition change_volume (audio : ndarray) (factor : R) : ndarray :=
  np_map (fun v => (v * factor)%R) audio.

Definition Qlt_bool (x y : Q) : bool := negb (Qle_bool y x).

(** [np.arange(0, stop, step)] for a float [step]: [ceil(stop / step)]
    positions [0, step, 2*step, ...] (none when that number is negative);
    a zero step is a division by zero. *)
Definition np_arange (stop : nat) (step : Q) : result (list Q) :=
  if Qeq_bool step 0 then Raise ZeroDivisionError
  else
    let n := Z.to_nat (Qceiling (inject_Z (Z.of_nat stop) / step)) in
    Ok (map (fun i => inject_Z (Z.of_nat i) * step)%Q (seq 0 n)).

(** [.astype(int)]: truncation toward zero. *)
Definition astype_int (x : Q) : Z :=
  if Qle_bool 0 x then Qfloor x else Qceiling x.

(** [audio[i]] for one integer index: a negative index counts from the end,
    an index outside the array raises [IndexError]. *)
Definition np_item {A : Type} (audio : list A) (i : Z) : result A :=
  let len := Z.of_nat (length audio) in
  let j := if (i <? 0)%Z then (i + len)%Z else i in
  if (j <? 0)%Z then Raise IndexError
  else match nth_error audio (Z.to_nat j) with
       | Some v => Ok v
       | None => Raise IndexError
       end.

(** [audio[indices]] for an integer index array: a selection along the
    first axis. *)
Fixpoint np_take {A : Type} (audio : list A) (indices : list Z)
  : result (list A) :=
  match indices with
  | [] => Ok []
  | i :: rest =>
      rbind (np_item audio i) (fun v =>
      rbind (np_take audio rest) (fun vs => Ok (v :: vs)))
  end.

(** The body of [time_stretch] on the first axis, whatever a frame is. *)
Definition stretch {A : Type} (audio : list A) (rate : Q)
  : result (list A) :=
  rbind (np_arange (length audio) rate) (fun indices =>
  let indices :=
    map astype_int
        (filter (fun x => Qlt_bool x (inject_Z (Z.of_nat (length audio))))
                indices) in
  np_take audio indices).

(** [time_stretch]. *)
Definition time_stretch (audio : ndarray) (rate : Q) : result ndarray :=
  match audio with
  | Mono samples => rmap Mono (stretch samples rate)
  | Multi channels frames => rmap (Multi channels) (stretch frames rate)
  end.

(** ** Resampling of a noise buffer (the [np.interp] call of
    [augment_sample]) *)

(** [np.linspace(0, stop, num)]: [num] evenly spaced positions from 0 to
    [stop], both included; a negative [num] raises [ValueError]. *)
Definition np_linspace (stop : nat) (num : Z) : result (list Q) :=
  if (num <? 0)%Z then Raise ValueError
  else
    let n := Z.to_nat num in
    let step := (inject_Z (Z.of_nat stop) / inject_Z (num - 1))%Q in
    Ok (map (fun j => inject_Z (Z.of_nat j) * step)%Q (seq 0 n)).

(** One value of [np.interp(x, np.arange(len(fp)), fp)] for a non-empty
    [fp]: clamped to the first and last sample outside the grid, the sample
    itself on a grid point, the chord between two neighbours otherwise. *)
Definition interp_at (fp : buffer) (x : Q) : R :=
  let last := Z.of_nat (length fp - 1) in
  if Qlt_bool x 0 then nth 0 fp 0%R
  else if Qlt_bool (inject_Z last) x then nth (length fp - 1) fp 0%R
  else
    let j := Qfloor x in
    let fj := nth (Z.to_nat j) fp 0%R in
    if (j =? last)%Z then fj
    else if Qeq_bool (inject_Z j) x then fj
    else
      let slope :=
        ((nth (Z.to_nat (j + 1)) fp 0%R - fj) / (IZR (j + 1) - IZR j))%R in
      (slope * (Q2R x - IZR j) + fj)%R.

(** [np.interp(x, np.arange(len(fp)), fp)]: the sample values must be a
    one-dimensional array, and an empty array of sample points raises
    [ValueError] too; the result is one-dimensional. *)
Definition np_interp (x : list Q) (fp : ndarray) : result ndarray :=
  match fp with
  | Multi _ _ => Raise ValueError
  | Mono [] => Raise ValueError
  | Mono samples => Ok (Mono (map (interp_at samples) x))
  end.

(** [int(len(noise) * sr / noise_sr)]. *)
Definition resampled_length (len : nat) (sr noise_sr : Z) : result Z :=
  if (noise_sr =? 0)%Z then Raise ZeroDivisionError
  else Ok (Z.quot (Z.of_nat len * sr) noise_sr).

(** The body of [if noise_sr != sr:] in [augment_sample]. *)
Definition resample (noise : ndarray) (sr noise_sr : Z) : result ndarray :=
  rbind (resampled_length (len noise) sr noise_sr) (fun num =>
  rbind (np_linspace (len noise) num) (fun grid =>
  np_interp grid noise)).

(** The whole statement: resample only when the rates differ. *)
Definition resample_if_needed (noise : ndarray) (sr noise_sr : Z)
  : result ndarray :=
  if negb (noise_sr =? sr)%Z then resample noise sr noise_sr else Ok noise.

(** ** The signal-to-noise ratio *)

(** A Python float: an IEEE 754 binary64 number. *)
Definition float64 : Type := spec_float.

(** [x / y] on floats. *)
Definition float_div (x y : float64) : float64 := SFdiv 53 1024 x y.

(** The literals [10.0] and [15.0]. *)
Definition ten : float64 := S754_finite false 5629499534213120 (-49).

Definition fifteen : float64 := S754_finite false 8444249301319680 (-49).

(** The real number a float stands for (0 for an infinity or a NaN). *)
Definition SF2R (x : float64) : R :=
  match x with
  | S754_finite s m e => (IZR (cond_Zopp s (Zpos m)) * powerRZ 2 e)%R
  | _ => 0%R
  end.

(** The largest float [x] for which [10 ** x] is finite
    (308.2547155599167), and the largest one for which it is [0.0]
    (-323.6072453387798). *)
Definition pow_max : float64 := S754_finite false 5422874305198590 (-44).

Definition pow_zero : float64 := S754_finite true 5692958865320787 (-44).

Definition pow_overflows (x : float64) : bool :=
  match x with
  | S754_finite false _ _ => SFltb pow_max x
  | _ => false
  end.

Definition pow_vanishes (x : float64) : bool :=
  match x with
  | S754_infinity true => true
  | S754_finite true _ _ => SFleb x pow_zero
  | _ => false
  end.


(** [10 ** x] for a float [x]: a result too large for a float raises
    [OverflowError], a result too small is [0.0] (an infinite or NaN
    exponent does not raise either; no real number stands for the result
    then, and no statement is made about it). *)
Definition py_pow10 (x : float64) : result R :=
  if pow_overflows x then Raise OverflowError
  else if pow_vanishes x then Ok 0%R
  else Ok (Rpower 10 (SF2R x)).

(** ** Signal mixer *)

(** [np.mean(audio ** 2)]: the mean over all the samples. *)
Definition signal_power (audio : ndarray) : R :=
  np_mean (np_square (elements audio)).

(** [10 ** (snr_db / 10.0)]. *)
Definition snr_linear (snr_db : float64) : result R :=
  py_pow10 (float_div snr_db ten).

(** The noise scaling factor of [add_noise]. *)
Definition noise_scale (audio noise : ndarray) (snr_linear : R) : R :=
  sqrt (signal_power audio / (snr_linear * signal_power noise)).

(** Lines 107-116 of [add_noise], after the noise has been aligned. *)
Definition mix (audio noise : ndarray) (snr_db : float64)
  : result ndarray :=
  rbind (snr_linear snr_db) (fun lin =>
  np_add audio (np_scale_array (noise_scale audio noise lin) noise)).

(** ** Paths and the augmenter object *)

(** A [pathlib.Path], split the way the code reads it: the directory, the
    file name without its last suffix ([.stem]) and that suffix. *)
Record Path : Type := mkPath {
  parent : string;
  stem : string;
  suffix : string
}.

(** [path.name]. *)
Definition name (p : Path) : string := (stem p ++ suffix p)%string.

(** The directories set up by [AudioAugmenter.__init__] (the creation of
    the output directory on disk is not part of the model, and neither is
    the normalisation of [data_dir] by [pathlib]). *)
Record AudioAugmenter : Type := mkAugmenter {
  data_dir : string;
  positive_dir : string;
  background_dir : string;
  augmented_dir : string
}.

Definition init (data_dir : string) : AudioAugmenter :=
  mkAugmenter data_dir
              (data_dir ++ "/positive")%string
              (data_dir ++ "/background")%string
              (data_dir ++ "/augmented")%string.

(** [str(i)] for a non-negative integer. *)
Definition str_of_nat (i : nat) : string :=
  NilEmpty.string_of_uint (Nat.to_uint i).

(** The text before and after the last separator of [s], if it holds
    one. *)
Fixpoint split_last_separator (s : string) : option (string * string) :=
  match s with
  | EmptyString => None
  | String c rest =>
      match split_last_separator rest with
      | Some (dir, file) => Some (String c dir, file)
      | None => if Ascii.eqb c "/" then Some (EmptyString, rest) else None
      end
  end.

(** [self.augmented_dir / f"{output_prefix}_{base_name}_{tag}.wav"], where
    [base_name] is the stem of a path and [tag] names a variant.  A prefix
    that holds separators moves the file: below the output directory, or
    to the absolute directory the prefix names (repeated separators and dot
    components are kept as they are written). *)
Definition variant_path (self : AudioAugmenter) (output_prefix base_name
                         tag : string) : Path :=
  match split_last_separator output_prefix with
  | None =>
      mkPath (augmented_dir self)
             (output_prefix ++ "_" ++ base_name ++ "_" ++ tag)%string
             ".wav"
  | Some (dir, file_prefix) =>
      mkPath (match output_prefix with
              | String "/" _ =>
                  match dir with
                  | EmptyString => "/"
                  | _ => dir
                  end
              | _ => (augmented_dir self ++ "/" ++ dir)%string
              end)
             (file_prefix ++ "_" ++ base_name ++ "_" ++ tag)%string
             ".wav"
  end.

(** ** Events, the outside world and the state monad *)

Inductive message : Type :=
| MsgLoadFailed (p : Path) (e : exn)
| MsgSaveFailed (p : Path) (e : exn)
| MsgRule
| MsgTitle
| MsgFoundPositive (n : nat)
| MsgFoundBackground (n : nat)
| MsgNoPositive
| MsgAugmenting (i n : nat) (file : string)
| MsgCreated (count : nat)
| MsgComplete
| MsgOriginalSamples (n : nat)
| MsgAugmentedSamples (n : nat)
| MsgTotalSize (n : nat).

Inductive event : Type :=
| EvRead (p : Path) (ok : bool)
| EvWrite (p : Path) (audio : ndarray) (sample_rate : Z) (ok : bool)
| EvInfo (m : message)
| EvError (m : message).

(** What the code cannot decide: the content of the files it reads, whether
    a write goes through (it may depend on everything that happened
    before), the directory listings and the draws of the [random] module. *)
Record World : Type := mkWorld {
  file_content : Path -> option (ndarray * Z);
  write_succeeds : list event -> Path -> ndarray -> Z -> bool;
  glob_wav : string -> list Path;
  rglob_wav : string -> list Path;
  tape : nat -> nat
}.

Record State : Type := mkState {
  trace : list event;
  cursor : nat
}.

Definition M (A : Type) : Type := State -> result A * State.

Definition ret {A : Type} (a : A) : M A := fun s => (Ok a, s).

Definition raise {A : Type} (e : exn) : M A := fun s => (Raise e, s).

Definition bind {A B : Type} (m : M A) (f : A -> M B) : M B :=
  fun s =>
    match m s with
    | (Ok a, s') => f a s'
    | (Raise e, s') => (Raise e, s')
    end.

(** [try: m  except Exception as e: h e]. *)
Definition try_except {A : Type} (m : M A) (h : exn -> M A) : M A :=
  fun s =>
    match m s with
    | (Ok a, s') => (Ok a, s')
    | (Raise e, s') => h e s'
    end.

Definition lift {A : Type} (r : result A) : M A := fun s => (r, s).

Definition emit (e : event) : M unit :=
  fun s => (Ok tt, mkState (trace s ++ [e]) (cursor s)).

Declare Scope monad_scope.
Delimit Scope monad_scope with monad.
Notation "x <- m ;; k" := (bind m (fun x => k))
  (at level 100, m at next level, right associativity) : monad_scope.
Notation "m ;; k" := (bind m (fun _ => k))
  (at level 100, right associativity) : monad_scope.
Local Open Scope monad_scope.

Definition logger_info (m : message) : M unit := emit (EvInfo m).
Definition logger_error (m : message) : M unit := emit (EvError m).

(** [sf.read(file_path)]: raises when the file cannot be read. *)
Definition sf_read (w : World) (file_path : Path) : M (ndarray * Z) :=
  match file_content w file_path with
  | Some r => emit (EvRead file_path true) ;; ret r
  | None => emit (EvRead file_path false) ;; raise SoundFileError
  end.

(** [sf.write(output_path, audio, sample_rate)]: raises when the file
    cannot be written. *)
Definition sf_write (w : World) (output_path : Path) (audio : ndarray)
           (sample_rate : Z) : M unit :=
  fun s =>
    let ok := write_succeeds w (trace s) output_path audio sample_rate in
    (emit (EvWrite output_path audio sample_rate ok) ;;
     if ok then ret tt else raise SoundFileError) s.

(** [random.randint(a, b)]: one draw of the tape, reduced to [a..b]; an
    empty range raises [ValueError]. *)
Definition randint (w : World) (a b : Z) : M Z :=
  fun s =>
    if (b <? a)%Z then (Raise ValueError, s)
    else
      let width := Z.to_nat (b - a + 1) in
      (Ok (a + Z.of_nat (tape w (cursor s) mod width))%Z,
       mkState (trace s) (S (cursor s))).

(** Removal of the element at one position. *)
Fixpoint remove_at {A : Type} (j : nat) (l : list A) : list A :=
  match j, l with
  | _, [] => []
  | 0, _ :: r => r
  | S j', x :: r => x :: remove_at j' r
  end.

(** [random.sample(population, k)]: [k] successive draws without
    replacement; asking for more elements than there are raises
    [ValueError]. *)
Fixpoint random_sample (w : World) (population : list Path) (k : nat)
  : M (list Path) :=
  match k with
  | 0 => ret []
  | S k' =>
      match population with
      | [] => raise ValueError
      | first :: _ =>
          j <- randint w 0 (Z.of_nat (length population) - 1) ;;
          let j := Z.to_nat j in
          rest <- random_sample w (remove_at j population) k' ;;
          ret (nth j population first :: rest)
      end
  end.

(** ** The methods of [AudioAugmenter] *)

(** [load_audio]: [None] stands for the pair [(None, None)]. *)
Definition load_audio (w : World) (file_path : Path)
  : M (option (ndarray * Z)) :=
  try_except
    (r <- sf_read w file_path ;; ret (Some r))
    (fun e => logger_error (MsgLoadFailed file_path e) ;; ret None).

(** [save_audio]. *)
Definition save_audio (w : World) (audio : ndarray) (sample_rate : Z)
           (output_path : Path) : M bool :=
  try_except
    (sf_write w output_path audio sample_rate ;; ret true)
    (fun e => logger_error (MsgSaveFailed output_path e) ;; ret false).

(** Lines 97-105 of [add_noise]: bring the noise to the length of the
    audio, by tiling when it is shorter and by a random crop otherwise. *)
Definition align_noise (w : World) (noise : ndarray) (target : nat)
  : M ndarray :=
  if len noise <? target then
    if len noise =? 0 then raise ZeroDivisionError
    else
      let repeats := ceil_div target (len noise) in
      ret (slice_frames (np_tile_array noise repeats) 0 (Z.of_nat target))
  else
    start <- randint w 0 (Z.of_nat (len noise) - Z.of_nat target) ;;
    ret (slice_frames noise start (start + Z.of_nat target)).

(** [add_noise]. *)
Definition add_noise (w : World) (audio noise : ndarray)
           (snr_db : float64) : M ndarray :=
  noise <- align_noise w noise (len audio) ;;
  lift (mix audio noise snr_db).

(** [if ok: count += 1]. *)
Definition count_if (ok : bool) (count : nat) : nat :=
  if ok then count + 1 else count.

(** A [for] loop that threads one local variable. *)
Fixpoint for_each {X : Type} (xs : list X) (body : X -> nat -> M nat)
         (acc : nat) : M nat :=
  match xs with
  | [] => ret acc
  | x :: rest => acc' <- body x acc ;; for_each rest body acc'
  end.

(** [enumerate(xs, start)]. *)
Definition enumerate {X : Type} (start : nat) (xs : list X)
  : list (nat * X) :=
  combine (seq start (length xs)) xs.

(** The literals of the two fixed loops, each with its [str()]. *)
Definition vol_factors : list (R * string) :=
  [(0.7%R, "0.7"); (1.3%R, "1.3")].

Definition speed_factors : list (Q * string) :=
  [(0.9%Q, "0.9"); (1.1%Q, "1.1")].

(** [# Original (copy)]. *)
Definition save_original (w : World) (self : AudioAugmenter)
           (audio : ndarray) (sr : Z) (output_prefix base_name : string)
           (count : nat) : M nat :=
  let output_path :=
    variant_path self output_prefix base_name "original" in
  ok <- save_audio w audio sr output_path ;;
  ret (count_if ok count).

Definition volume_variant (w : World) (self : AudioAugmenter)
           (audio : ndarray) (sr : Z) (output_prefix base_name : string)
           (vol_factor : R * string) (count : nat) : M nat :=
  let augmented := change_volume audio (fst vol_factor) in
  let output_path :=
    variant_path self output_prefix base_name
                 ("vol" ++ snd vol_factor)%string in
  ok <- save_audio w augmented sr output_path ;;
  ret (count_if ok count).

(** [# Volume variations]. *)
Definition volume_variations (w : World) (self : AudioAugmenter)
           (audio : ndarray) (sr : Z) (output_prefix base_name : string)
           (count : nat) : M nat :=
  for_each vol_factors
           (volume_variant w self audio sr output_prefix base_name) count.

Definition speed_variant (w : World) (self : AudioAugmenter)
           (audio : ndarray) (sr : Z) (output_prefix base_name : string)
           (speed_factor : Q * string) (count : nat) : M nat :=
  augmented <- lift (time_stretch audio (fst speed_factor)) ;;
  let output_path :=
    variant_path self output_prefix base_name
                 ("speed" ++ snd speed_factor)%string in
  ok <- save_audio w augmented sr output_path ;;
  ret (count_if ok count).

(** [# Speed variations]. *)
Definition speed_variations (w : World) (self : AudioAugmenter)
           (audio : ndarray) (sr : Z) (output_prefix base_name : string)
           (count : nat) : M nat :=
  for_each speed_factors
           (speed_variant w self audio sr output_prefix base_name) count.

Definition noise_variant (w : World) (self : AudioAugmenter)
           (audio : ndarray) (sr : Z) (output_prefix base_name : string)
           (entry : nat * Path) (count : nat) : M nat :=
  let (i, bg_file) := entry in
  r <- load_audio w bg_file ;;
  match r with
  | Some (noise, noise_sr) =>
      noise <- lift (resample_if_needed noise sr noise_sr) ;;
      augmented <- add_noise w audio noise fifteen ;;
      let output_path :=
        variant_path self output_prefix base_name
                     ("noise" ++ str_of_nat i)%string in
      ok <- save_audio w augmented sr output_path ;;
      ret (count_if ok count)
  | None => ret count
  end.

(** [# Add background noise (if available)]. *)
Definition noise_variations (w : World) (self : AudioAugmenter)
           (audio : ndarray) (sr : Z) (output_prefix base_name : string)
           (background_files : list Path) (count : nat) : M nat :=
  match background_files with
  | [] => ret count
  | _ :: _ =>
      chosen <- random_sample w background_files
                  (Nat.min 3 (length background_files)) ;;
      for_each (enumerate 0 chosen)
               (noise_variant w self audio sr output_prefix base_name)
               count
  end.

(** [augment_sample]: the four blocks of the method, in the order of the
    source, threading the local [count]. *)
Definition augment_sample (w : World) (self : AudioAugmenter)
           (audio_path : Path) (background_files : list Path)
           (output_prefix : string) : M nat :=
  r <- load_audio w audio_path ;;
  match r with
  | None => ret 0
  | Some (audio, sr) =>
      let count := 0 in
      let base_name := stem audio_path in
      count <- save_original w self audio sr output_prefix base_name
                 count ;;
      count <- volume_variations w self audio sr output_prefix base_name
                 count ;;
      count <- speed_variations w self audio sr output_prefix base_name
                 count ;;
      count <- noise_variations w self audio sr output_prefix base_name
                 background_files count ;;
      ret count
  end.

Definition augment_one (w : World) (self : AudioAugmenter)
           (background_files : list Path) (n : nat) (entry : nat * Path)
           (total_augmented : nat) : M nat :=
  let (i, audio_file) := entry in
  logger_info (MsgAugmenting i n (name audio_file)) ;;
  count <- augment_sample w self audio_file background_files "aug" ;;
  logger_info (MsgCreated count) ;;
  ret (total_augmented + count).

(** [augment_all]. *)
Definition augment_all (w : World) (self : AudioAugmenter) : M unit :=
  logger_info MsgRule ;;
  logger_info MsgTitle ;;
  logger_info MsgRule ;;
  let positive_files := glob_wav w (positive_dir self) in
  logger_info (MsgFoundPositive (length positive_files)) ;;
  let background_files := rglob_wav w (background_dir self) in
  logger_info (MsgFoundBackground (length background_files)) ;;
  match positive_files with
  | [] => logger_error MsgNoPositive ;; ret tt
  | _ :: _ =>
      total_augmented <-
        for_each (enumerate 1 positive_files)
                 (augment_one w self background_files
                              (length positive_files))
                 0 ;;
      logger_info MsgRule ;;
      logger_info MsgComplete ;;
      logger_info (MsgOriginalSamples (length positive_files)) ;;
      logger_info (MsgAugmentedSamples total_augmented) ;;
      logger_info
        (MsgTotalSize (length positive_files + total_augmented)) ;;
      logger_info MsgRule
  end.

(** ** Observations on a trace *)

(** The files actually written: the paths of the writes that went
    through. *)
Fixpoint written (t : list event) : list Path :=
  match t with
  | [] => []
  | EvWrite p _ _ true :: r => p :: written r
  | _ :: r => written r
  end.

(** The writes that were attempted, whatever their outcome: the path, the
    array and the sample rate handed to [sf.write]. *)
Fixpoint write_attempts (t : list event) : list (Path * ndarray * Z) :=
  match t with
  | [] => []
  | EvWrite p audio sr _ :: r => (p, audio, sr) :: write_attempts r
  | _ :: r => write_attempts r
  end.

(** The files the code tried to read. *)
Fixpoint read_attempts (t : list event) : list Path :=
  match t with
  | [] => []
  | EvRead p _ :: r => p :: read_attempts r
  | _ :: r => read_attempts r
  end.

(** The error reports. *)
Fixpoint errors (t : list event) : list message :=
  match t with
  | [] => []
  | EvError m :: r => m :: errors r
  | _ :: r => errors r
  end.

Definition initial_state : State := mkState [] 0.


(** ** Vocabulary of the statements *)

(** The events [d], recorded after the history [t], are faithful to the
    world: every write carries the verdict the world gave at that point. *)
Fixpoint faithful (w : World) (t d : list event) : Prop :=
  match d with
  | [] => True
  | ev :: d' =>
      match ev with
      | EvWrite p audio sr ok => ok = write_succeeds w t p audio sr
      | _ => True
      end
      /\ faithful w (t ++ [ev]) d'
  end.

(** [runs w m s r d cu]: started in [s], the computation [m] ends with the
    result [r], has appended the events [d] to the trace and has left the
    cursor of the random tape at [cu]. *)
Definition runs {A : Type} (w : World) (m : M A) (s : State)
           (r : result A) (d : list event) (cu : nat) : Prop :=
  m s = (r, mkState (trace s ++ d) cu) /\ faithful w (trace s) d.

(** The events of one [save_audio]: the write, and the error report when
    it failed. *)
Definition save_events (p : Path) (audio : ndarray) (sr : Z) (ok : bool)
  : list event :=
  EvWrite p audio sr ok
  :: (if ok then [] else [EvError (MsgSaveFailed p SoundFileError)]).

(** Every read and every write succeeds. *)
Definition all_reads_succeed (w : World) : Prop :=
  forall p, file_content w p <> None.

Definition all_writes_succeed (w : World) : Prop :=
  forall t p audio sr, write_succeeds w t p audio sr = true.

(** [f] can be loaded. *)
Definition loads (w : World) (f : Path) : bool :=
  match file_content w f with
  | Some _ => true
  | None => false
  end.

(** [target] frames of [a] from the frame number [start] on. *)
Definition crop (a : ndarray) (start target : nat) : ndarray :=
  match a with
  | Mono samples => Mono (firstn target (skipn start samples))
  | Multi channels frames =>
      Multi channels (firstn target (skipn start frames))
  end.

(** What the alignment step of [add_noise] can make of a noise: the tiled
    noise cut to the target, or a window of the noise. *)
Definition aligned_to (noise : ndarray) (target : nat) (aligned : ndarray)
  : Prop :=
  (0 < len noise < target
   /\ aligned
      = crop (np_tile_array noise (ceil_div target (len noise))) 0 target)
  \/ (exists start,
        start + target <= len noise
        /\ aligned = crop noise start target).

(** A noise that [add_noise] can mix into [audio]: it has the layout of
    the audio (both one-dimensional, or the same number of channels), a
    one-dimensional noise is not empty, and a multi-channel noise is at
    least as long as the audio. *)
Definition mixable (audio noise : ndarray) : Prop :=
  match audio, noise with
  | Mono _, Mono samples => samples <> []
  | Multi channels _, Multi channels' frames =>
      channels' = channels /\ len audio <= length frames
  | _, _ => False
  end.

(** The background files whose noise reaches the mixer as a noise that can
    be mixed into [audio], at the sample rate [sr]: a file that cannot be
    loaded is skipped, a loaded one is resampled if needed. *)
Definition usable_noise (w : World) (audio : ndarray) (sr : Z) (f : Path)
  : Prop :=
  forall noise noise_sr,
    file_content w f = Some (noise, noise_sr) ->
    exists noise', resample_if_needed noise sr noise_sr = Ok noise'
                   /\ mixable audio noise'.

(** The write of the noise variant number [i] made from the file [f]: the
    audio mixed at 15 dB with the aligned noise of [f]. *)
Definition noise_write (w : World) (self : AudioAugmenter)
           (audio : ndarray) (sr : Z) (output_prefix base_name : string)
           (entry : nat * Path) (wr : Path * ndarray * Z) : Prop :=
  exists noise noise_sr noise' aligned mixed,
    file_content w (snd entry) = Some (noise, noise_sr)
    /\ resample_if_needed noise sr noise_sr = Ok noise'
    /\ aligned_to noise' (len audio) aligned
    /\ mix audio aligned fifteen = Ok mixed
    /\ wr = (variant_path self output_prefix base_name
                          ("noise" ++ str_of_nat (fst entry))%string,
             mixed, sr).

(** The five writes every loaded sample attempts first, in order. *)
Definition fixed_writes (self : AudioAugmenter)
           (audio slow fast : ndarray) (sr : Z)
           (output_prefix base_name : string)
  : list (Path * ndarray * Z) :=
  [ (variant_path self output_prefix base_name "original", audio, sr);
    (variant_path self output_prefix base_name "vol0.7",
     change_volume audio 0.7, sr);
    (variant_path self output_prefix base_name "vol1.3",
     change_volume audio 1.3, sr);
    (variant_path self output_prefix base_name "speed0.9", slow, sr);
    (variant_path self output_prefix base_name "speed1.1", fast, sr) ].

(** ** Example worlds *)

(** A world for examples: [content] is what each file holds, every write
    goes through, and every random draw is 0. *)
Definition example_world (content : Path -> option (ndarray * Z))
           (positive background : list Path) : World :=
  mkWorld content (fun _ _ _ _ => true)
          (fun _ => positive) (fun _ => background) (fun _ => 0).

Definition example_augmenter : AudioAugmenter := init "data".

Definition example_sample : Path := mkPath "data/positive" "hey" ".wav".

Definition example_noise (i : nat) : Path :=
  mkPath "data/background" ("room" ++ str_of_nat i)%string ".wav".

(** Every file holds the one-sample mono array [1.0] at 16 kHz. *)
Definition one_sample_content (p : Path) : option (ndarray * Z) :=
  Some (Mono [1%R], 16000%Z).

(** The positive sample holds one sample at 16 kHz and every other file is
    an audio file without any sample, at the same rate. *)
Definition empty_noise_content (p : Path) : option (ndarray * Z) :=
  if String.eqb (parent p) "data/positive" then Some (Mono [1%R], 16000%Z)
  else Some (Mono [], 16000%Z).

(** The positive sample is a stereo file of three frames and every other
    file a mono file of three samples, all at 16 kHz. *)
Definition stereo_sample_content (p : Path) : option (ndarray * Z) :=
  if String.eqb (parent p) "data/positive"
  then Some (Multi 2 [[1%R; 1%R]; [1%R; 1%R]; [1%R; 1%R]], 16000%Z)
  else Some (Mono [1%R; 1%R; 1%R], 16000%Z).

(** The positive sample is a stereo file of three frames and every other
    file a stereo file of two frames, all at 16 kHz. *)
Definition short_noise_content (p : Path) : option (ndarray * Z) :=
  if String.eqb (parent p) "data/positive"
  then Some (Multi 2 [[1%R; 1%R]; [1%R; 1%R]; [1%R; 1%R]], 16000%Z)
  else Some (Multi 2 [[1%R; 2%R]; [3%R; 4%R]], 16000%Z).

(** Three background files, as in the scenarios of the augmentation. *)
Definition example_library : list Path :=
  [example_noise 0; example_noise 1; example_noise 2].

(** ** Names of the variants *)

Definition fixed_tags : list string :=
  ["original"; "vol0.7"; "vol1.3"; "speed0.9"; "speed1.1"].

Definition noise_tag (i : nat) : string := ("noise" ++ str_of_nat i)%string.

(** The tags of the outputs of one sample with [k] noise variants. *)
Definition variant_tags (k : nat) : list string :=
  fixed_tags ++ map noise_tag (seq 0 k).

(** A world where things fail: only the files named [hey] can be read, and
    the write of the 0.7 volume variant of [hey] is refused.  The positive
    directory lists an unreadable sample before [hey]. *)
Definition failing_content (p : Path) : option (ndarray * Z) :=
  if String.eqb (stem p) "hey" then Some (Mono [1%R], 16000%Z) else None.

Definition unreadable_sample : Path := mkPath "data/positive" "bad" ".wav".

Definition failing_world : World :=
  mkWorld failing_content
          (fun _ p _ _ => negb (String.eqb (stem p) "aug_hey_vol0.7"))
          (fun _ => [unreadable_sample; example_sample])
          (fun _ => [example_noise 0])
          (fun _ => 0).

(** The positive samples of a run are fit for augmentation when the
    background files are usable noise for each sample that loads. *)
Definition samples_fit (w : World) (positive_files background_files
                        : list Path) : Prop :=
  forall p audio sr,
    In p positive_files ->
    file_content w p = Some (audio, sr) ->
    forall f, In f background_files -> usable_noise w audio sr f.

(** ** The entry point *)

(** [main]: an augmenter on the default data directory, then
    [augment_all]. *)
Definition main (w : World) : M unit := augment_all w (init "../../data").

(** ** Vocabulary of the further statements *)

(** A write of the augmentation of the sample [p]: a [.wav] file of the
    output directory, at the sample rate of [p]. *)
Definition confined_write (w : World) (self : AudioAugmenter) (p : Path)
           (wr : Path * ndarray * Z) : Prop :=
  parent (fst (fst wr)) = augmented_dir self
  /\ suffix (fst (fst wr)) = ".wav"
  /\ forall audio sr, file_content w p = Some (audio, sr) -> snd wr = sr.

(** A write of a variant of the sample [p]: a file named by
    [variant_path] for some tag, at the sample rate of [p]. *)
Definition variant_write (w : World) (self : AudioAugmenter) (p : Path)
           (output_prefix base_name : string) (wr : Path * ndarray * Z)
  : Prop :=
  (exists tag,
      fst (fst wr) = variant_path self output_prefix base_name tag)
  /\ forall audio sr, file_content w p = Some (audio, sr) -> snd wr = sr.

(** A write into the output directory. *)
Definition output_write (self : AudioAugmenter) (wr : Path * ndarray * Z)
  : Prop :=
  parent (fst (fst wr)) = augmented_dir self
  /\ suffix (fst (fst wr)) = ".wav".

(** A string without the separator of the output names. *)
Fixpoint no_underscore (t : string) : bool :=
  match t with
  | EmptyString => true
  | String c rest => negb (Ascii.eqb c "_") && no_underscore rest
  end.


(** ** Example ratios *)

(** The floats [4000.0], [-4000.0], [0.0] and [5e-324] (the smallest
    positive float). *)
Definition snr_4000 : float64 := S754_finite false 8796093022208000 (-41).




(** * Secure configuration ([secure_config.py])

    The configuration object of the assistant: a dict filled once from the
    environment variables.  What the module cannot decide is a
    [Platform]: whether [python-dotenv] is installed, which files exist
    and whether the file system lets the process look, what [load_dotenv]
    does to the environment and whether it fails, and which strings [int]
    and [float] accept.  The standard output belongs to the process: it
    can refuse a line, as it does for a character its encoding lacks. *)

Module SecureConfig.

Inductive error : Type :=
| ValueError
| KeyError
| OSError
| UnicodeEncodeError.

Inductive outcome (A : Type) : Type :=
| Done (a : A)
| Fail (e : error).

Arguments Done {A} a.
Arguments Fail {A} e.

(** The values the dict holds. *)
Inductive value : Type :=
| PyNone
| PyStr (s : string)
| PyInt (z : Z)
| PyFloat (q : Q).

(** A Python dict with string keys, in insertion order. *)
Definition dict : Type := list (string * value).

(** [d.get(key)]: [None] stands for a missing key. *)
Fixpoint dict_get (d : dict) (key : string) : option value :=
  match d with
  | [] => None
  | (k, v) :: rest => if String.eqb k key then Some v else dict_get rest key
  end.

(** [d[key] = v]: an existing key keeps its place, a new one goes last. *)
Fixpoint dict_set (d : dict) (key : string) (v : value) : dict :=
  match d with
  | [] => [(key, v)]
  | (k, v') :: rest =>
      if String.eqb k key then (k, v) :: rest
      else (k, v') :: dict_set rest key v
  end.

(** [path_exists] is [Path(env_file).exists()], which raises when the
    file system refuses the look-up (a [PermissionError], say);
    [load_dotenv] gives its outcome and the environment it leaves, which a
    failure may already have changed. *)
Record Platform : Type := mkPlatform {
  dotenv_available : bool;
  path_exists : string -> outcome bool;
  load_dotenv : string -> (string -> option string)
                -> outcome unit * (string -> option string);
  py_int : string -> option Z;
  py_float : string -> option Q
}.

(** The lines [print_status] prints and the messages [__init__] logs. *)
Inductive line : Type :=
| Rule
| Title
| EnvLoaded
| EnvNotFound
| Header (text : string)
| KeyStatus (name : string) (available : bool)
| Setting (label : string) (v : value) (tail : string)
| LogLoaded (env_path : string)
| LogMissing (env_path : string).

(** A [SecureConfig] object. *)
Record t : Type := mkConfig {
  config : dict;
  _loaded : bool
}.

(** The process: its environment variables, what it has logged and
    printed, its standard output (the error with which it refuses a line,
    if it does), and the module-level [_config_instance]. *)
Record Process : Type := mkProcess {
  environ : string -> option string;
  logged : list line;
  printed : list line;
  stdout : line -> option error;
  _config_instance : option t
}.

Definition C (A : Type) : Type := Process -> outcome A * Process.

Definition cbind {A B : Type} (m : C A) (f : A -> C B) : C B :=
  fun p =>
    match m p with
    | (Done a, p') => f a p'
    | (Fail e, p') => (Fail e, p')
    end.

Definition cret {A : Type} (a : A) : C A := fun p => (Done a, p).

(** [os.getenv(key)] and [os.getenv(key, default)]. *)
Definition getenv (env : string -> option string) (key : string) : value :=
  match env key with
  | Some s => PyStr s
  | None => PyNone
  end.

Definition getenv_default (env : string -> option string)
           (key default : string) : string :=
  match env key with
  | Some s => s
  | None => default
  end.

Definition obind {A B : Type} (o : outcome A) (f : A -> outcome B)
  : outcome B :=
  match o with
  | Done a => f a
  | Fail e => Fail e
  end.

(** [int(s)] and [float(s)]: a string they refuse raises [ValueError]. *)
Definition to_int (pf : Platform) (s : string) : outcome value :=
  match py_int pf s with
  | Some z => Done (PyInt z)
  | None => Fail ValueError
  end.

Definition to_float (pf : Platform) (s : string) : outcome value :=
  match py_float pf s with
  | Some q => Done (PyFloat q)
  | None => Fail ValueError
  end.

(** [_load_config], from an empty dict: the assignments in the order of
    the source. *)
Definition _load_config (pf : Platform) (env : string -> option string)
  : outcome dict :=
  let c := [] in
  let c := dict_set c "openai_api_key" (getenv env "OPENAI_API_KEY") in
  let c := dict_set c "porcupine_access_key"
                    (getenv env "PORCUPINE_ACCESS_KEY") in
  let c := dict_set c "elevenlabs_api_key"
                    (getenv env "ELEVENLABS_API_KEY") in
  let c := dict_set c "wake_word"
                    (PyStr (getenv_default env "WAKE_WORD" "computer")) in
  let c := dict_set c "tts_voice"
                    (PyStr (getenv_default env "TTS_VOICE"
                                           "de-DE-KatjaNeural")) in
  let c := dict_set c "stt_model"
                    (PyStr (getenv_default env "STT_MODEL" "de")) in
  obind (to_int pf (getenv_default env "SAMPLE_RATE" "16000")) (fun v =>
  let c := dict_set c "sample_rate" v in
  obind (to_int pf (getenv_default env "CHUNK_SAMPLES" "1280")) (fun v =>
  let c := dict_set c "chunk_samples" v in
  obind (to_float pf (getenv_default env "SILENCE_TIMEOUT" "2.0")) (fun v =>
  let c := dict_set c "silence_timeout" v in
  let c := dict_set c "wake_word_model_path"
                    (PyStr (getenv_default env "WAKE_WORD_MODEL_PATH"
                                           "models/computer.ppn")) in
  let c := dict_set c "vosk_model_path"
                    (PyStr (getenv_default env "VOSK_MODEL_PATH"
                                           "models/vosk-model-de")) in
  Done c))).

(** A string is true when it is not empty. *)
Definition truthy (env_file : option string) : bool :=
  match env_file with
  | Some EmptyString => false
  | Some _ => true
  | None => false
  end.

(** Lines 38-45 of [__init__]: the [.env] file is loaded when
    [python-dotenv] is installed, a file name is given and the file
    exists; the result is [self._loaded]. *)
Definition load_env_file (pf : Platform) (env_file : option string)
  : C bool :=
  fun p =>
    match env_file with
    | Some env_path =>
        if dotenv_available pf && truthy env_file then
          match path_exists pf env_path with
          | Fail e => (Fail e, p)
          | Done true =>
              match load_dotenv pf env_path (environ p) with
              | (Done _, env) =>
                  (Done true,
                   mkProcess env (logged p ++ [LogLoaded env_path])
                             (printed p) (stdout p) (_config_instance p))
              | (Fail e, env) =>
                  (Fail e,
                   mkProcess env (logged p) (printed p) (stdout p)
                             (_config_instance p))
              end
          | Done false =>
              (Done false,
               mkProcess (environ p) (logged p ++ [LogMissing env_path])
                         (printed p) (stdout p) (_config_instance p))
          end
        else (Done false, p)
    | None => (Done false, p)
    end.

(** [SecureConfig(env_file)]. *)
Definition __init__ (pf : Platform) (env_file : option string) : C t :=
  cbind (load_env_file pf env_file) (fun loaded p =>
    match _load_config pf (environ p) with
    | Done c => (Done (mkConfig c loaded), p)
    | Fail e => (Fail e, p)
    end).

(** [get(key, default)]. *)
Definition get (self : t) (key : string) (default : value) : value :=
  match dict_get (config self) key with
  | Some v => v
  | None => default
  end.

(** [get_required(key)]. *)
Definition get_required (self : t) (key : string) : outcome value :=
  let v := match dict_get (config self) key with
           | Some v => v
           | None => PyNone
           end in
  match v with
  | PyNone => Fail ValueError
  | _ => Done v
  end.

Definition is_not_none (o : option value) : bool :=
  match o with
  | Some PyNone | None => false
  | Some _ => true
  end.

(** [validate_api_keys]. *)
Definition validate_api_keys (self : t) : list (string * bool) :=
  [ ("OpenAI", is_not_none (dict_get (config self) "openai_api_key"));
    ("Porcupine",
     is_not_none (dict_get (config self) "porcupine_access_key"));
    ("ElevenLabs",
     is_not_none (dict_get (config self) "elevenlabs_api_key")) ].

(** [print(l)]: the line is printed unless the standard output refuses
    it. *)
Definition print (l : line) : C unit :=
  fun p =>
    match stdout p l with
    | Some e => (Fail e, p)
    | None =>
        (Done tt,
         mkProcess (environ p) (logged p) (printed p ++ [l]) (stdout p)
                   (_config_instance p))
    end.

(** [self.config[key]]: a missing key raises [KeyError]. *)
Definition item (self : t) (key : string) : C value :=
  fun p =>
    match dict_get (config self) key with
    | Some v => (Done v, p)
    | None => (Fail KeyError, p)
    end.

Fixpoint print_all (ls : list line) : C unit :=
  match ls with
  | [] => cret tt
  | l :: rest => cbind (print l) (fun _ => print_all rest)
  end.

Definition print_setting (self : t) (label key tail : string) : C unit :=
  cbind (item self key) (fun v => print (Setting label v tail)).

(** [print_status]. *)
Definition print_status (self : t) : C unit :=
  cbind (print Rule) (fun _ =>
  cbind (print Title) (fun _ =>
  cbind (print Rule) (fun _ =>
  cbind (print (if _loaded self then EnvLoaded else EnvNotFound)) (fun _ =>
  cbind (print (Header "API Keys:")) (fun _ =>
  cbind (print_all (map (fun kv => KeyStatus (fst kv) (snd kv))
                        (validate_api_keys self))) (fun _ =>
  cbind (print (Header "Voice Assistant Settings:")) (fun _ =>
  cbind (print_setting self "Wake Word" "wake_word" "") (fun _ =>
  cbind (print_setting self "TTS Voice" "tts_voice" "") (fun _ =>
  cbind (print_setting self "STT Model" "stt_model" "") (fun _ =>
  cbind (print (Header "Audio Settings:")) (fun _ =>
  cbind (print_setting self "Sample Rate" "sample_rate" " Hz") (fun _ =>
  cbind (print_setting self "Chunk Size" "chunk_samples" " samples")
        (fun _ =>
  cbind (print_setting self "Silence Timeout" "silence_timeout" "s")
        (fun _ =>
  print Rule)))))))))))))).

(** The lines of the status of a configuration, in the order in which
    [print_status] prints them. *)
Definition setting_line (self : t) (label key tail : string) : line :=
  Setting label (get self key PyNone) tail.

Definition status_lines (self : t) : list line :=
  [ Rule; Title; Rule;
    if _loaded self then EnvLoaded else EnvNotFound;
    Header "API Keys:" ]
  ++ map (fun kv => KeyStatus (fst kv) (snd kv)) (validate_api_keys self)
  ++ [ Header "Voice Assistant Settings:";
       setting_line self "Wake Word" "wake_word" "";
       setting_line self "TTS Voice" "tts_voice" "";
       setting_line self "STT Model" "stt_model" "";
       Header "Audio Settings:";
       setting_line self "Sample Rate" "sample_rate" " Hz";
       setting_line self "Chunk Size" "chunk_samples" " samples";
       setting_line self "Silence Timeout" "silence_timeout" "s";
       Rule ].

(** [get_config]: the module-level instance, created on first use. *)
Definition get_config (pf : Platform) : C t :=
  fun p =>
    match _config_instance p with
    | Some c => (Done c, p)
    | None =>
        match __init__ pf (Some ".env") p with
        | (Done c, p') =>
            (Done c,
             mkProcess (environ p') (logged p') (printed p') (stdout p')
                       (Some c))
        | (Fail e, p') => (Fail e, p')
        end
    end.

(** [main]. *)
Definition main (pf : Platform) : C unit :=
  cbind (get_config pf) (fun c => print_status c).

(** The keys of a loaded configuration. *)
Definition known_keys : list string :=
  [ "openai_api_key"; "porcupine_access_key"; "elevenlabs_api_key";
    "wake_word"; "tts_voice"; "stt_model"; "sample_rate"; "chunk_samples";
    "silence_timeout"; "wake_word_model_path"; "vosk_model_path" ].

(** The settings that are not secrets: the API keys count only through
    their presence. *)
Definition same_public_view (env1 env2 : string -> option string) : Prop :=
  (forall key,
      key <> "OPENAI_API_KEY" -> key <> "PORCUPINE_ACCESS_KEY" ->
      key <> "ELEVENLABS_API_KEY" -> env1 key = env2 key)
  /\ (forall key, env1 key = None <-> env2 key = None).

(** A platform for examples: no [python-dotenv], and [int] and [float]
    that only know the default settings. *)
Definition example_platform : Platform :=
  mkPlatform false (fun _ => Done false) (fun _ env => (Done tt, env))
             (fun s => if String.eqb s "16000" then Some 16000%Z
                       else if String.eqb s "1280" then Some 1280%Z
                       else None)
             (fun s => if String.eqb s "2.0" then Some 2%Q else None).

Definition empty_environ : string -> option string := fun _ => None.

Definition example_environ : string -> option string :=
  fun key => if String.eqb key "OPENAI_API_KEY" then Some "sk-secret"
             else if String.eqb key "SAMPLE_RATE" then Some "fast"
             else None.

(** Two environments that differ in the value of one API key only. *)
Definition example_secret_environ : string -> option string :=
  fun key => if String.eqb key "OPENAI_API_KEY" then Some "sk-secret"
             else None.

Definition other_secret_environ : string -> option string :=
  fun key => if String.eqb key "OPENAI_API_KEY" then Some "sk-other"
             else None.

(** The same platform with [python-dotenv], in a directory that the
    process is not allowed to search. *)
Definition guarded_platform : Platform :=
  mkPlatform true (fun _ => Fail OSError) (fun _ env => (Done tt, env))
             (py_int example_platform) (py_float example_platform).

(** A standard output that takes every line, and one whose encoding lacks
    the check mark, the cross and the warning sign of the status lines. *)
Definition utf8_stdout : line -> option error := fun _ => None.

Definition ascii_stdout : line -> option error :=
  fun l =>
    match l with
    | EnvLoaded | EnvNotFound | KeyStatus _ _ => Some UnicodeEncodeError
    | _ => None
    end.

Definition fresh_process (env : string -> option string) : Process :=
  mkProcess env [] [] utf8_stdout None.

(** The standard output takes every line. *)
Definition accepts_all (p : Process) : Prop :=
  forall l, stdout p l = None.

End SecureConfig.

(** * Dataset preparation ([prepare_datasets.py])

    Downloads, archive extraction and the directory report.  The network
    and the file system are a [Net]: whether a download, an extraction or
    a deletion goes through (it may depend on everything that happened
    before), which directories exist and how many [.wav] files they
    hold. *)

Module DatasetPreparer.

(** What is logged. *)
Inductive message : Type :=
| Downloading (url : string)
| Downloaded (destination : Path)
| DownloadFailed (url : string)
| Extracting (archive_name : string)
| Extracted (extract_to : string)
| UnknownFormat (suffix : string)
| ExtractFailed (archive : Path)
| BackgroundBanner
| BackgroundReady
| NegativeBanner
| NegativeReady
| VerifyBanner
| WavFiles (directory_name : string) (file_count : nat)
| DirectoryNotFound (directory_name : string)
| Rule
| PreparationTitle
| PreparationComplete
| NextSteps (step : nat).

(** What happens, in order: the effects on the outside and the log. *)
Inductive action : Type :=
| Retrieve (url : string) (destination : Path) (ok : bool)
| Unzip (archive : Path) (extract_to : string) (ok : bool)
| Untar (archive : Path) (extract_to : string) (ok : bool)
| Unlink (p : Path) (ok : bool)
| Info (m : message)
| Warning (m : message)
| Error (m : message).

Record Net : Type := mkNet {
  retrieve_ok : list action -> string -> Path -> bool;
  unzip_ok : list action -> Path -> string -> bool;
  untar_ok : list action -> Path -> string -> bool;
  unlink_ok : list action -> Path -> bool;
  directory_exists : list action -> string -> bool;
  wav_count : list action -> string -> nat
}.

(** The only exception that escapes: a deletion that fails. *)
Inductive outcome (A : Type) : Type :=
| Returned (a : A)
| Raised.

Arguments Returned {A} a.
Arguments Raised {A}.

Definition D (A : Type) : Type := list action -> outcome A * list action.

Definition dret {A : Type} (a : A) : D A := fun t => (Returned a, t).

Definition dbind {A B : Type} (m : D A) (f : A -> D B) : D B :=
  fun t =>
    match m t with
    | (Returned a, t') => f a t'
    | (Raised, t') => (Raised, t')
    end.

Definition log (a : action) : D unit := fun t => (Returned tt, t ++ [a]).

(** The directories of a [DatasetPreparer]; [dir_name] is the last
    component of a directory, as [directory.name] gives it. *)
Record t : Type := mkPreparer {
  base_dir : string;
  positive_dir : string;
  negative_dir : string;
  background_dir : string
}.

(** [DatasetPreparer(base_dir)] (the creation of the three directories on
    disk is not part of the model). *)
Definition init (base_dir : string) : t :=
  mkPreparer base_dir
             (base_dir ++ "/positive")%string
             (base_dir ++ "/negative")%string
             (base_dir ++ "/background")%string.

(** [download_file]: every exception of [urlretrieve] is caught. *)
Definition download_file (w : Net) (url : string) (destination : Path)
  : D bool :=
  dbind (log (Info (Downloading url))) (fun _ =>
  fun t =>
    let ok := retrieve_ok w t url destination in
    if ok then
      dbind (log (Retrieve url destination true)) (fun _ =>
      dbind (log (Info (Downloaded destination))) (fun _ =>
      dret true)) t
    else
      dbind (log (Retrieve url destination false)) (fun _ =>
      dbind (log (Error (DownloadFailed url))) (fun _ =>
      dret false)) t).

Definition is_tar_suffix (s : string) : bool :=
  String.eqb s ".tar" || String.eqb s ".gz" || String.eqb s ".tgz".

(** [extract_archive]: the suffix chooses the extractor, an unknown suffix
    is reported, and every exception of the extractors is caught. *)
Definition extract_archive (w : Net) (archive_path : Path)
           (extract_to : string) : D bool :=
  dbind (log (Info (Extracting (name archive_path)))) (fun _ =>
  fun t =>
    if String.eqb (suffix archive_path) ".zip" then
      if unzip_ok w t archive_path extract_to then
        dbind (log (Unzip archive_path extract_to true)) (fun _ =>
        dbind (log (Info (Extracted extract_to))) (fun _ =>
        dret true)) t
      else
        dbind (log (Unzip archive_path extract_to false)) (fun _ =>
        dbind (log (Error (ExtractFailed archive_path))) (fun _ =>
        dret false)) t
    else if is_tar_suffix (suffix archive_path) then
      if untar_ok w t archive_path extract_to then
        dbind (log (Untar archive_path extract_to true)) (fun _ =>
        dbind (log (Info (Extracted extract_to))) (fun _ =>
        dret true)) t
      else
        dbind (log (Untar archive_path extract_to false)) (fun _ =>
        dbind (log (Error (ExtractFailed archive_path))) (fun _ =>
        dret false)) t
    else
      dbind (log (Error (UnknownFormat (suffix archive_path)))) (fun _ =>
      dret false) t).

(** [archive_path.unlink()]: not guarded, a failure raises. *)
Definition unlink (w : Net) (p : Path) : D unit :=
  fun t =>
    if unlink_ok w t p then (Returned tt, t ++ [Unlink p true])
    else (Raised, t ++ [Unlink p false]).

Definition speech_commands_url : string :=
  "http://download.tensorflow.org/data/speech_commands_v0.02.tar.gz".

(** [directory / "speech_commands_v0.02.tar.gz"]. *)
Definition archive_in (directory : string) : Path :=
  mkPath directory "speech_commands_v0.02.tar" ".gz".

(** The common body of the two download methods. *)
Definition download_dataset (w : Net) (directory : string)
           (banner ready : message) : D bool :=
  dbind (log (Info banner)) (fun _ =>
  let url := speech_commands_url in
  let archive_path := archive_in directory in
  dbind (download_file w url archive_path) (fun downloaded =>
  if negb downloaded then dret false
  else
    dbind (extract_archive w archive_path directory) (fun extracted =>
    if negb extracted then dret false
    else
      dbind (unlink w archive_path) (fun _ =>
      dbind (log (Info ready)) (fun _ =>
      dret true))))).

(** [download_background_noise]. *)
Definition download_background_noise (w : Net) (self : t) : D bool :=
  download_dataset w (background_dir self) BackgroundBanner BackgroundReady.

(** [download_negative_samples]. *)
Definition download_negative_samples (w : Net) (self : t) : D bool :=
  download_dataset w (negative_dir self) NegativeBanner NegativeReady.

(** One turn of the loop of [verify_structure]; [dir_name] is
    [directory.name]. *)
Definition verify_directory (w : Net) (directory dir_name : string)
  : D unit :=
  fun t =>
    if directory_exists w t directory then
      log (Info (WavFiles dir_name (wav_count w t directory))) t
    else log (Warning (DirectoryNotFound dir_name)) t.

(** [verify_structure]. *)
Definition verify_structure (w : Net) (self : t) : D unit :=
  dbind (log (Info VerifyBanner)) (fun _ =>
  dbind (verify_directory w (positive_dir self) "positive") (fun _ =>
  dbind (verify_directory w (negative_dir self) "negative") (fun _ =>
  verify_directory w (background_dir self) "background"))).

(** [prepare_all]: the results of the two downloads are not looked at. *)
Definition prepare_all (w : Net) (self : t) : D unit :=
  dbind (log (Info Rule)) (fun _ =>
  dbind (log (Info PreparationTitle)) (fun _ =>
  dbind (log (Info Rule)) (fun _ =>
  dbind (download_background_noise w self) (fun _ =>
  dbind (download_negative_samples w self) (fun _ =>
  dbind (verify_structure w self) (fun _ =>
  dbind (log (Info Rule)) (fun _ =>
  dbind (log (Info PreparationComplete)) (fun _ =>
  dbind (log (Info Rule)) (fun _ =>
  dbind (log (Info (NextSteps 0))) (fun _ =>
  dbind (log (Info (NextSteps 1))) (fun _ =>
  dbind (log (Info (NextSteps 2))) (fun _ =>
  log (Info (NextSteps 3)))))))))))))).

(** [main]. *)
Definition main (w : Net) : D unit := prepare_all w (init "../../data").

(** The effects on the outside, without the log. *)
Fixpoint effects (d : list action) : list action :=
  match d with
  | [] => []
  | Info _ :: rest | Warning _ :: rest | Error _ :: rest => effects rest
  | a :: rest => a :: effects rest
  end.

(** The downloads that were attempted: the URL and the destination. *)
Fixpoint retrieved (d : list action) : list (string * Path) :=
  match d with
  | [] => []
  | Retrieve url destination _ :: rest =>
      (url, destination) :: retrieved rest
  | _ :: rest => retrieved rest
  end.

(** The four ways one dataset download can go: the effects on the outside
    and the result. *)
Definition download_course (directory : string) (r : outcome bool)
           (fx : list action) : Prop :=
  let url := speech_commands_url in
  let a := archive_in directory in
  (fx = [Retrieve url a false] /\ r = Returned false)
  \/ (fx = [Retrieve url a true; Untar a directory false]
      /\ r = Returned false)
  \/ (fx = [Retrieve url a true; Untar a directory true; Unlink a true]
      /\ r = Returned true)
  \/ (fx = [Retrieve url a true; Untar a directory true; Unlink a false]
      /\ r = Raised).


(** A net where everything goes through. *)
Definition live_net : Net :=
  mkNet (fun _ _ _ => true) (fun _ _ _ => true) (fun _ _ _ => true)
        (fun _ _ => true) (fun _ _ => true) (fun _ _ => 7).

(** A net where everything goes through but the deletions. *)
Definition locked_net : Net :=
  mkNet (fun _ _ _ => true) (fun _ _ _ => true) (fun _ _ _ => true)
        (fun _ _ => false) (fun _ _ => true) (fun _ _ => 7).

End DatasetPreparer.
(** * Properties *)

(** ** The definitions on concrete inputs *)

Example stretch_double :
  stretch [10; 20; 30; 40] 2%Q = Ok [10; 30].
Proof. reflexivity. Qed.

Example stretch_slow :
  stretch [10; 20; 30; 40; 50] 0.9%Q = Ok [10; 10; 20; 30; 40; 50].
Proof. reflexivity. Qed.

Example stretch_fast :
  stretch [10; 20; 30; 40; 50; 60; 70; 80; 90; 100; 110; 120] 1.1%Q
  = Ok [10; 20; 30; 40; 50; 60; 70; 80; 90; 100; 120].
Proof. reflexivity. Qed.

Example stretch_zero_rate :
  stretch [10; 20] 0%Q = Raise ZeroDivisionError.
Proof. reflexivity. Qed.

Example time_stretch_stereo :
  time_stretch (Multi 2 [[1%R; 2%R]; [3%R; 4%R]; [5%R; 6%R]]) 2%Q
  = Ok (Multi 2 [[1%R; 2%R]; [5%R; 6%R]]).
Proof. reflexivity. Qed.

Example np_tile_array_stereo :
  np_tile_array (Multi 2 [[1%R; 2%R]]) 2 = Multi 4 [[1%R; 2%R; 1%R; 2%R]].
Proof. reflexivity. Qed.

Example np_add_shape_mismatch :
  np_add (Mono [1%R; 2%R; 3%R]) (Multi 2 [[1%R; 2%R]]) = Raise ValueError.
Proof. reflexivity. Qed.

Example float_div_fifteen :
  float_div fifteen ten = S754_finite false 6755399441055744 (-52).
Proof. reflexivity. Qed.

Example snr_linear_overflow : snr_linear snr_4000 = Raise OverflowError.
Proof. reflexivity. Qed.

Example np_tile_thrice : np_tile [1; 2] 3 = [1; 2; 1; 2; 1; 2].
Proof. reflexivity. Qed.

Example ceil_div_five_two : ceil_div 5 2 = 3.
Proof. reflexivity. Qed.

Example py_slice_inner : py_slice [1; 2; 3; 4; 5] 1 3 = [2; 3].
Proof. reflexivity. Qed.

Example py_slice_clamped : py_slice [1; 2; 3] 2 7 = [3].
Proof. reflexivity. Qed.

Example py_slice_from_end : py_slice [1; 2; 3; 4] (-2) 4 = [3; 4].
Proof. reflexivity. Qed.

Example np_take_wraps : np_take [1; 2; 3] [0; -1]%Z = Ok [1; 3].
Proof. reflexivity. Qed.

Example np_take_outside : np_take [1; 2; 3] [3]%Z = Raise IndexError.
Proof. reflexivity. Qed.

Example np_linspace_points :
  option_map (map Qred)
             (match np_linspace 3 4 with Ok g => Some g | Raise _ => None end)
  = Some [0%Q; 1%Q; 2%Q; 3%Q].
Proof. reflexivity. Qed.

Example resampled_length_doubles :
  resampled_length 100 16000 8000 = Ok 200%Z.
Proof. reflexivity. Qed.

Example resampled_length_truncates :
  resampled_length 3 16000 44100 = Ok 1%Z.
Proof. reflexivity. Qed.

Example random_sample_with_zero_tape :
  fst (random_sample (example_world one_sample_content [] example_library)
                     example_library 2 initial_state)
  = Ok [example_noise 0; example_noise 1].
Proof. reflexivity. Qed.

Example variant_path_name :
  name (variant_path example_augmenter "aug" "hey" (noise_tag 2))
  = "aug_hey_noise2.wav".
Proof. reflexivity. Qed.

Example augment_sample_full_count :
  fst (augment_sample
         (example_world one_sample_content [example_sample] example_library)
         example_augmenter example_sample example_library "aug"
         initial_state)
  = Ok 8.
Proof. vm_compute. reflexivity. Qed.

Example augment_sample_written_names :
  map name
      (written
         (trace
            (snd (augment_sample
                    (example_world one_sample_content [example_sample] [])
                    example_augmenter example_sample [] "aug"
                    initial_state))))
  = ["aug_hey_original.wav"; "aug_hey_vol0.7.wav"; "aug_hey_vol1.3.wav";
     "aug_hey_speed0.9.wav"; "aug_hey_speed1.1.wav"].
Proof. vm_compute. reflexivity. Qed.

Example augment_all_failing_world_total :
  errors (trace (snd (augment_all failing_world example_augmenter
                                  initial_state)))
  = [MsgLoadFailed unreadable_sample SoundFileError;
     MsgSaveFailed (variant_path example_augmenter "aug" "hey" "vol0.7")
                   SoundFileError;
     MsgLoadFailed (example_noise 0) SoundFileError]
  /\ In (EvInfo (MsgAugmentedSamples 4))
        (trace (snd (augment_all failing_world example_augmenter
                                 initial_state))).
Proof.
  split.
  - vm_compute. reflexivity.
  - vm_compute. repeat (first [left; reflexivity | right]).
Qed.

(** ** Volume scaling *)

Lemma np_map_shape (f : R -> R) (a : ndarray) :
  shape (np_map f a) = shape a.
Proof. destruct a as [v|c rows]; simpl; rewrite length_map; reflexivity. Qed.

Lemma np_map_len (f : R -> R) (a : ndarray) : len (np_map f a) = len a.
Proof. destruct a as [v|c rows]; simpl; apply length_map. Qed.

Lemma np_map_elements (f : R -> R) (a : ndarray) :
  elements (np_map f a) = map f (elements a).
Proof.
  destruct a as [v|c rows]; simpl; [reflexivity|].
  symmetry. apply concat_map.
Qed.

Lemma np_map_id (f : R -> R) (a : ndarray) :
  (forall v, f v = v) -> np_map f a = a.
Proof.
  intro Hf.
  assert (Hm : forall l : buffer, map f l = l).
  { induction l as [|v l IH]; simpl; [reflexivity|].
    rewrite Hf, IH. reflexivity. }
  destruct a as [v|c rows]; simpl.
  - rewrite Hm. reflexivity.
  - f_equal. induction rows as [|r rows IH]; simpl; [reflexivity|].
    rewrite Hm, IH. reflexivity.
Qed.

Lemma change_volume_len (audio : ndarray) (factor : R) :
  len (change_volume audio factor) = len audio.
Proof. apply np_map_len. Qed.

(** C7: the volume transform keeps the shape (so the length), multiplies
    every sample by the factor where it stands (and has no sample where the
    input has none), and is the identity at factor 1.0; on a
    one-dimensional signal the sample at the index [i] is [s[i] * f]. *)
Theorem change_volume_pointwise (s : ndarray) (f : R) :
  shape (change_volume s f) = shape s
  /\ len (change_volume s f) = len s
  /\ (forall i : nat,
        nth_error (elements (change_volume s f)) i
        = option_map (fun v => (v * f)%R) (nth_error (elements s) i))
  /\ (forall samples,
        s = Mono samples ->
        exists r,
          change_volume s f = Mono r
          /\ length r = length samples
          /\ forall i : nat,
              nth_error r i
              = option_map (fun v => (v * f)%R) (nth_error samples i))
  /\ change_volume s 1%R = s.
Proof.
  split; [apply np_map_shape|]. split; [apply np_map_len|].
  split; [|split].
  - intro i. unfold change_volume. rewrite np_map_elements.
    apply nth_error_map.
  - intros samples ->. eexists. split; [reflexivity|].
    split; [apply length_map|]. intro i. apply nth_error_map.
  - unfold change_volume. apply np_map_id. intro v. apply Rmult_1_r.
Qed.

(** ** Time stretch *)

Lemma np_take_seq {A : Type} (pre s : list A) :
  np_take (pre ++ s) (map Z.of_nat (seq (length pre) (length s))) = Ok s.
Proof.
  revert pre. induction s as [|v s IH]; intro pre; simpl.
  - reflexivity.
  - unfold np_item.
    destruct (Z.ltb_spec (Z.of_nat (length pre)) 0) as [Hneg|_]; [lia|].
    destruct (Z.ltb_spec (Z.of_nat (length pre)) 0) as [Hneg|_]; [lia|].
    rewrite Nat2Z.id, nth_error_app2 by lia.
    rewrite Nat.sub_diag. simpl.
    specialize (IH (pre ++ [v])).
    rewrite <- app_assoc, length_app in IH. simpl in IH.
    rewrite Nat.add_1_r in IH. rewrite IH. reflexivity.
Qed.

Lemma np_take_all {A : Type} (s : list A) :
  np_take s (map Z.of_nat (seq 0 (length s))) = Ok s.
Proof. exact (np_take_seq [] s). Qed.

Lemma Qmult_one_r (x : Q) : (x * 1 == x)%Q.
Proof. ring. Qed.

Lemma np_arange_unit (n : nat) :
  np_arange n 1%Q
  = Ok (map (fun i => (inject_Z (Z.of_nat i) * 1)%Q) (seq 0 n)).
Proof.
  unfold np_arange. simpl (Qeq_bool 1 0). cbv iota.
  replace (Qceiling (inject_Z (Z.of_nat n) / 1)) with (Z.of_nat n).
  - rewrite Nat2Z.id. reflexivity.
  - rewrite <- (Qceiling_Z (Z.of_nat n)) at 1.
    apply Qceiling_comp. field.
Qed.

Lemma unit_grid_indices (n a len : nat) :
  a + len <= n ->
  map astype_int
      (filter (fun x => Qlt_bool x (inject_Z (Z.of_nat n)))
              (map (fun i => (inject_Z (Z.of_nat i) * 1)%Q) (seq a len)))
  = map Z.of_nat (seq a len).
Proof.
  revert a. induction len as [|len IH]; intros a Hle; simpl.
  - reflexivity.
  - assert (Hlt : Qlt_bool (inject_Z (Z.of_nat a) * 1)
                           (inject_Z (Z.of_nat n)) = true).
    { unfold Qlt_bool. apply negb_true_iff.
      destruct (Qle_bool (inject_Z (Z.of_nat n))
                         (inject_Z (Z.of_nat a) * 1)) eqn:E; [|reflexivity].
      apply Qle_bool_iff in E. rewrite Qmult_one_r in E.
      rewrite <- Zle_Qle in E. lia. }
    rewrite Hlt. simpl. rewrite IH by lia. f_equal.
    unfold astype_int.
    assert (Hpos : Qle_bool 0 (inject_Z (Z.of_nat a) * 1) = true).
    { apply Qle_bool_iff. rewrite Qmult_one_r.
      change 0%Q with (inject_Z 0). rewrite <- Zle_Qle. lia. }
    rewrite Hpos.
    rewrite (Qfloor_comp _ _ (Qmult_one_r _)). apply Qfloor_Z.
Qed.
Lemma stretch_unit_rate {A : Type} (s : list A) : stretch s 1%Q = Ok s.
Proof.
  unfold stretch. rewrite np_arange_unit. simpl rbind.
  rewrite unit_grid_indices by lia. apply np_take_all.
Qed.

(** C6: stretching by the rate 1.0 gives the signal back: the positions
    0, 1, 2, ... select every sample once, in order. *)
Theorem time_stretch_unit_rate (s : ndarray) :
  time_stretch s 1%Q = Ok s.
Proof.
  destruct s as [samples|channels frames]; unfold time_stretch, rmap;
    rewrite stretch_unit_rate; reflexivity.
Qed.

Lemma np_take_in_range {A : Type} (audio : list A) (indices : list Z) :
  Forall (fun i => (0 <= i < Z.of_nat (length audio))%Z) indices ->
  exists r, np_take audio indices = Ok r /\ length r = length indices.
Proof.
  induction 1 as [|i rest Hi _ IH]; simpl.
  - exists []. split; reflexivity.
  - destruct IH as [r [Hr Hlen]]. unfold np_item.
    destruct (Z.ltb_spec i 0) as [Hneg|_]; [lia|].
    destruct (Z.ltb_spec i 0) as [Hneg|_]; [lia|].
    destruct (nth_error audio (Z.to_nat i)) as [v|] eqn:E.
    + simpl. rewrite Hr. simpl. exists (v :: r). split; [reflexivity|].
      simpl. rewrite Hlen. reflexivity.
    + apply nth_error_None in E. lia.
Qed.

Lemma stretched_index_in_range (n : nat) (rate : Q) (i : nat) :
  (0 < rate)%Q ->
  Qlt_bool (inject_Z (Z.of_nat i) * rate) (inject_Z (Z.of_nat n)) = true ->
  (0 <= astype_int (inject_Z (Z.of_nat i) * rate) < Z.of_nat n)%Z.
Proof.
  intros Hrate Hlt.
  assert (Hnonneg : (0 <= inject_Z (Z.of_nat i) * rate)%Q).
  { apply Qmult_le_0_compat.
    - change 0%Q with (inject_Z 0). rewrite <- Zle_Qle. lia.
    - apply Qlt_le_weak. exact Hrate. }
  unfold astype_int.
  assert (Hb : Qle_bool 0 (inject_Z (Z.of_nat i) * rate) = true)
    by (apply Qle_bool_iff; exact Hnonneg).
  rewrite Hb. split.
  - rewrite <- (Qfloor_Z 0). apply Qfloor_resp_le. exact Hnonneg.
  - unfold Qlt_bool in Hlt. apply negb_true_iff in Hlt.
    assert (Hx : (inject_Z (Z.of_nat i) * rate < inject_Z (Z.of_nat n))%Q).
    { apply Qnot_le_lt. intro Hle. apply Qle_bool_iff in Hle. congruence. }
    rewrite Zlt_Qlt. eapply Qle_lt_trans; [apply Qfloor_le|exact Hx].
Qed.

(** [stretch] returns for every positive rate. *)
Lemma stretch_total {A : Type} (audio : list A) (rate : Q) :
  (0 < rate)%Q -> exists r, stretch audio rate = Ok r.
Proof.
  intro Hrate. unfold stretch, np_arange.
  destruct (Qeq_bool rate 0) eqn:E.
  - apply Qeq_bool_iff in E. rewrite E in Hrate.
    exfalso. exact (Qlt_irrefl 0 Hrate).
  - simpl rbind.
    match goal with
    | |- exists r, np_take audio ?idx = Ok r =>
        destruct (np_take_in_range audio idx) as [r [Hr _]];
        [|exists r; exact Hr]
    end.
    apply Forall_forall. intros z Hz.
    apply in_map_iff in Hz. destruct Hz as [x [Hzx Hx]]. subst z.
    apply filter_In in Hx. destruct Hx as [Hx Hlt].
    apply in_map_iff in Hx. destruct Hx as [i [Hxi _]]. subst x.
    apply stretched_index_in_range; assumption.
Qed.

(** [time_stretch] returns an array for every positive rate. *)
Lemma time_stretch_total (audio : ndarray) (rate : Q) :
  (0 < rate)%Q -> exists r, time_stretch audio rate = Ok r.
Proof.
  intro Hrate. destruct audio as [samples|channels frames];
    unfold time_stretch, rmap.
  - destruct (stretch_total samples rate Hrate) as [r ->].
    eexists. reflexivity.
  - destruct (stretch_total frames rate Hrate) as [r ->].
    eexists. reflexivity.
Qed.

(** ** Array helpers *)

Lemma zip_add_length (x y : buffer) :
  length x = length y -> length (zip_add x y) = length x.
Proof.
  revert y. induction x as [|a x IH]; intros [|b y] H; simpl in *;
    try reflexivity; try discriminate.
  f_equal. apply IH. lia.
Qed.


Lemma zip_add_app (a b x y : buffer) :
  length a = length b ->
  zip_add (a ++ x) (b ++ y) = zip_add a b ++ zip_add x y.
Proof.
  revert b. induction a as [|u a IH]; intros [|v b] H; simpl in *;
    try discriminate; [reflexivity|].
  rewrite IH by lia. reflexivity.
Qed.

Lemma add_axis_same_length (x y : buffer) :
  length x = length y -> add_axis x y = zip_add x y.
Proof. intro H. unfold add_axis. rewrite H, Nat.eqb_refl. reflexivity. Qed.

Lemma bc_dim_same (a : nat) : bc_dim a a = Some a.
Proof. unfold bc_dim. rewrite Nat.eqb_refl. reflexivity. Qed.

Lemma zip_frames_length (x y : list buffer) :
  length x = length y -> length (zip_frames x y) = length x.
Proof.
  revert y. induction x as [|a x IH]; intros [|b y] H; simpl in *;
    try reflexivity; try discriminate.
  f_equal. apply IH. lia.
Qed.

Lemma zip_frames_shaped (c : nat) (x y : list buffer) :
  Forall (fun f => length f = c) x ->
  Forall (fun f => length f = c) y ->
  Forall (fun f => length f = c) (zip_frames x y)
  /\ concat (zip_frames x y) = zip_add (concat x) (concat y).
Proof.
  intro Hx. revert y. induction Hx as [|a x Ha Hx IH]; intros y Hy.
  - split; [constructor|reflexivity].
  - destruct Hy as [|b y Hb Hy]; simpl.
    + split; [constructor|]. destruct (a ++ concat x); reflexivity.
    + destruct (IH y Hy) as [Hs Hc]. split.
      * constructor; [|exact Hs].
        rewrite add_axis_same_length by congruence.
        rewrite zip_add_length by congruence. exact Ha.
      * rewrite add_axis_same_length by congruence.
        rewrite zip_add_app by congruence. rewrite Hc. reflexivity.
Qed.

(** Two arrays of the same shape add sample by sample. *)
Lemma np_add_same_shape (x y : ndarray) :
  shape y = shape x ->
  exists r,
    np_add x y = Ok r
    /\ shape r = shape x
    /\ (well_shaped x -> well_shaped y ->
        well_shaped r
        /\ elements r = zip_add (elements x) (elements y)).
Proof.
  destruct x as [a|c1 f1], y as [b|c2 f2]; simpl; intro H;
    try discriminate.
  - injection H as H. rewrite H, bc_dim_same.
    eexists. split; [reflexivity|]. simpl.
    rewrite add_axis_same_length by congruence.
    split; [rewrite zip_add_length by congruence; reflexivity|].
    intros _ _. split; [exact I|reflexivity].
  - injection H as Hn Hc. subst c2. rewrite Hn, !bc_dim_same.
    eexists. split; [reflexivity|]. simpl.
    unfold add_frames. rewrite Hn, Nat.eqb_refl.
    split; [rewrite zip_frames_length by congruence; reflexivity|].
    intros Hx Hy. apply zip_frames_shaped; assumption.
Qed.



Lemma np_scale_array_shape (g : R) (a : ndarray) :
  shape (np_scale_array g a) = shape a.
Proof. apply np_map_shape. Qed.

Lemma np_scale_array_elements (g : R) (a : ndarray) :
  elements (np_scale_array g a) = np_scale g (elements a).
Proof. apply np_map_elements. Qed.

Lemma np_map_well_shaped (f : R -> R) (a : ndarray) :
  well_shaped a -> well_shaped (np_map f a).
Proof.
  destruct a as [v|c rows]; simpl; [auto|].
  intro H. apply Forall_map. eapply Forall_impl; [|exact H].
  intros r Hr. simpl. rewrite length_map. exact Hr.
Qed.

Lemma shape_len (a b : ndarray) : shape a = shape b -> len a = len b.
Proof.
  destruct a as [v|c rows], b as [v'|c' rows']; simpl; intro H;
    try discriminate; injection H; auto.
Qed.

Lemma py_slice_prefix {A : Type} (x : list A) (target : nat) :
  py_slice x 0 (Z.of_nat target) = firstn target x.
Proof.
  unfold py_slice, slice_bound.
  destruct (Z.ltb_spec 0 0) as [H|_]; [lia|].
  destruct (Z.ltb_spec (Z.of_nat target) 0) as [H|_]; [lia|].
  replace (Z.to_nat (Z.min 0 (Z.of_nat (length x)))) with 0 by lia.
  replace (Z.to_nat (Z.min (Z.of_nat target) (Z.of_nat (length x))
                     - Z.min 0 (Z.of_nat (length x))))
    with (Nat.min target (length x)) by lia.
  simpl skipn.
  destruct (Nat.le_gt_cases target (length x)) as [Hle|Hgt].
  - rewrite Nat.min_l by lia. reflexivity.
  - rewrite Nat.min_r by lia. rewrite !firstn_all2 by lia. reflexivity.
Qed.

Lemma py_slice_window {A : Type} (x : list A) (start target : nat) :
  start + target <= length x ->
  py_slice x (Z.of_nat start) (Z.of_nat start + Z.of_nat target)
  = firstn target (skipn start x).
Proof.
  intro H. unfold py_slice, slice_bound.
  destruct (Z.ltb_spec (Z.of_nat start) 0) as [Hn|_]; [lia|].
  destruct (Z.ltb_spec (Z.of_nat start + Z.of_nat target) 0) as [Hn|_];
    [lia|].
  replace (Z.to_nat (Z.min (Z.of_nat start) (Z.of_nat (length x))))
    with start by lia.
  replace (Z.to_nat
             (Z.min (Z.of_nat start + Z.of_nat target)
                    (Z.of_nat (length x))
              - Z.min (Z.of_nat start) (Z.of_nat (length x))))
    with target by lia.
  reflexivity.
Qed.

Lemma np_tile_length {A : Type} (x : list A) (reps : nat) :
  length (np_tile x reps) = reps * length x.
Proof.
  induction reps as [|r IH]; simpl; [reflexivity|].
  rewrite length_app, IH. reflexivity.
Qed.

Lemma ceil_div_covers (a b : nat) : 0 < b -> a <= ceil_div a b * b.
Proof.
  intro Hb. unfold ceil_div.
  pose proof (Nat.div_mod_eq (a + b - 1) b) as E.
  pose proof (Nat.mod_upper_bound (a + b - 1) b ltac:(lia)) as U.
  nia.
Qed.

Lemma ceil_div_positive (a b : nat) : 0 < b -> 0 < a -> 0 < ceil_div a b.
Proof.
  intros Hb Ha. pose proof (ceil_div_covers a b Hb). 
  destruct (ceil_div a b); simpl in *; lia.
Qed.

(** Tiling then truncating: the length is the target and the noise itself
    comes first. *)
Lemma tiled_prefix (noise : buffer) (target : nat) :
  0 < length noise -> length noise < target ->
  let aligned :=
    firstn target (np_tile noise (ceil_div target (length noise))) in
  length aligned = target /\ firstn (length noise) aligned = noise.
Proof.
  intros Hpos Hlt aligned. subst aligned.
  pose proof (ceil_div_covers target (length noise) Hpos) as Hcov.
  pose proof (ceil_div_positive target (length noise) Hpos ltac:(lia)) as Hr.
  split.
  - rewrite length_firstn, np_tile_length. lia.
  - rewrite firstn_firstn, Nat.min_l by lia.
    destruct (ceil_div target (length noise)) as [|r]; [lia|].
    simpl. rewrite firstn_app, Nat.sub_diag, firstn_all. simpl.
    apply app_nil_r.
Qed.

Lemma window_length {A : Type} (x : list A) (start target : nat) :
  start + target <= length x ->
  length (firstn target (skipn start x)) = target.
Proof. intro H. rewrite length_firstn, length_skipn. lia. Qed.

(** ** Slices of the first axis *)

Lemma slice_frames_prefix (a : ndarray) (target : nat) :
  slice_frames a 0 (Z.of_nat target) = crop a 0 target.
Proof.
  destruct a as [v|c rows]; simpl; rewrite py_slice_prefix; reflexivity.
Qed.

Lemma slice_frames_window (a : ndarray) (start target : nat) :
  start + target <= len a ->
  slice_frames a (Z.of_nat start) (Z.of_nat start + Z.of_nat target)
  = crop a start target.
Proof.
  destruct a as [v|c rows]; simpl; intro H;
    rewrite py_slice_window by exact H; reflexivity.
Qed.



Lemma np_tile_array_len (a : ndarray) (reps : nat) :
  len (np_tile_array a reps)
  = match a with
    | Mono samples => reps * length samples
    | Multi _ frames => length frames
    end.
Proof.
  destruct a as [v|c rows]; simpl;
    [apply np_tile_length|apply length_map].
Qed.

(** ** Signal mixer: powers and gain *)




Lemma pow10_pos (x : R) : (0 < Rpower 10 x)%R.
Proof. unfold Rpower. apply exp_pos. Qed.




(** [10 ** x] raises [OverflowError] or returns a number that is not
    negative. *)
Lemma py_pow10_cases (x : float64) :
  py_pow10 x = Raise OverflowError
  \/ exists lin, py_pow10 x = Ok lin /\ (0 <= lin)%R.
Proof.
  unfold py_pow10. destruct (pow_overflows x); [left; reflexivity|].
  right. destruct (pow_vanishes x).
  - exists 0%R. split; [reflexivity|lra].
  - eexists. split; [reflexivity|]. apply Rlt_le, pow10_pos.
Qed.

(** The ratio of the noise variants, 15 dB: [10 ** 1.5]. *)
Lemma snr_linear_fifteen :
  snr_linear fifteen = Ok (Rpower 10 (SF2R (float_div fifteen ten))).
Proof. reflexivity. Qed.




(** The mixer on a signal and a noise of the same shape: once the ratio is
    computed, the scaled noise is added sample by sample. *)
Lemma mix_same_shape (s n : ndarray) (snr_db : float64) (lin : R) :
  shape n = shape s ->
  snr_linear snr_db = Ok lin ->
  exists r,
    mix s n snr_db = Ok r
    /\ shape r = shape s
    /\ (well_shaped s -> well_shaped n ->
        elements r
        = zip_add (elements s)
                  (np_scale (noise_scale s n lin) (elements n))).
Proof.
  intros Hshape Hlin. unfold mix. rewrite Hlin. simpl rbind.
  destruct (np_add_same_shape s (np_scale_array (noise_scale s n lin) n))
    as [r [Hr [Hs He]]].
  { rewrite np_scale_array_shape. exact Hshape. }
  exists r. split; [exact Hr|]. split; [exact Hs|].
  intros Hws Hwn.
  destruct (He Hws (np_map_well_shaped _ n Hwn)) as [_ Hel].
  rewrite Hel, np_scale_array_elements. reflexivity.
Qed.





(** ** Resampling *)

Lemma np_linspace_length (stop : nat) (num : Z) :
  (0 <= num)%Z ->
  exists grid, np_linspace stop num = Ok grid
               /\ length grid = Z.to_nat num.
Proof.
  intro H. unfold np_linspace.
  destruct (Z.ltb_spec num 0) as [Hn|_]; [lia|].
  eexists. split; [reflexivity|].
  rewrite length_map, length_seq. reflexivity.
Qed.

Lemma np_interp_mono (grid : list Q) (samples : buffer) :
  samples <> [] ->
  np_interp grid (Mono samples) = Ok (Mono (map (interp_at samples) grid)).
Proof. destruct samples; [congruence|reflexivity]. Qed.

(** The resampling of a non-empty one-dimensional noise, whenever the
    number of samples asked for is defined and not negative. *)
Lemma resample_mono (samples : buffer) (sr noise_sr : Z) :
  samples <> [] -> noise_sr <> 0%Z ->
  (0 <= Z.quot (Z.of_nat (length samples) * sr) noise_sr)%Z ->
  exists grid,
    np_linspace (length samples)
                (Z.quot (Z.of_nat (length samples) * sr) noise_sr)
    = Ok grid
    /\ length grid
       = Z.to_nat (Z.quot (Z.of_nat (length samples) * sr) noise_sr)
    /\ resample (Mono samples) sr noise_sr
       = Ok (Mono (map (interp_at samples) grid)).
Proof.
  intros Hne Hnz Hnum. unfold resample, resampled_length. simpl len.
  destruct (Z.eqb_spec noise_sr 0) as [E|_]; [contradiction|].
  simpl rbind.
  destruct (np_linspace_length (length samples) _ Hnum) as [grid [Hg Hlen]].
  exists grid. split; [exact Hg|]. split; [exact Hlen|].
  rewrite Hg. simpl rbind. apply np_interp_mono. exact Hne.
Qed.

Lemma resample_if_needed_differ (noise : ndarray) (sr noise_sr : Z) :
  noise_sr <> sr ->
  resample_if_needed noise sr noise_sr = resample noise sr noise_sr.
Proof.
  intro Hdiff. unfold resample_if_needed.
  destruct (Z.eqb_spec noise_sr sr) as [E|_]; [contradiction|reflexivity].
Qed.

Lemma resample_if_needed_same (noise : ndarray) (sr : Z) :
  resample_if_needed noise sr sr = Ok noise.
Proof. unfold resample_if_needed. rewrite Z.eqb_refl. reflexivity. Qed.

(** C10, as the code has it: at different rates a non-empty
    one-dimensional noise is resampled by linear interpolation to exactly
    [int(len(noise) * sr / noise_sr)] samples, whenever this number is
    defined and not negative, as it is for positive rates (a zero
    [noise_sr] divides by zero and a negative number is refused by
    [np.linspace]); at equal rates the noise goes to the mixer
    unchanged. *)
Theorem resample_if_needed_length (noise : ndarray) (sr noise_sr : Z) :
  (noise_sr <> sr ->
   forall samples,
     noise = Mono samples -> samples <> [] ->
     let num := Z.quot (Z.of_nat (len noise) * sr) noise_sr in
     (noise_sr = 0%Z ->
      resample_if_needed noise sr noise_sr = Raise ZeroDivisionError)
     /\ (noise_sr <> 0%Z -> (num < 0)%Z ->
         resample_if_needed noise sr noise_sr = Raise ValueError)
     /\ (noise_sr <> 0%Z -> (0 <= num)%Z ->
         exists r grid,
           resample_if_needed noise sr noise_sr = Ok (Mono r)
           /\ Z.of_nat (length r) = num
           /\ np_linspace (len noise) num = Ok grid
           /\ r = map (interp_at samples) grid)
     /\ ((0 < sr)%Z -> (0 < noise_sr)%Z -> noise_sr <> 0%Z /\ (0 <= num)%Z))
  /\ (noise_sr = sr -> resample_if_needed noise sr noise_sr = Ok noise).
Proof.
  split.
  - intros Hdiff samples -> Hne num. simpl len in num.
    rewrite resample_if_needed_differ by exact Hdiff.
    split; [|split; [|split]].
    + intros ->. reflexivity.
    + intros Hnz Hneg. unfold resample, resampled_length. simpl len.
      destruct (Z.eqb_spec noise_sr 0) as [E|_]; [contradiction|].
      simpl rbind. unfold np_linspace. fold num.
      destruct (Z.ltb_spec num 0) as [_|Hge]; [reflexivity|lia].
    + intros Hnz Hnum.
      destruct (resample_mono samples sr noise_sr Hne Hnz Hnum)
        as [grid [Hg [Hlen Hr]]].
      exists (map (interp_at samples) grid), grid.
      split; [exact Hr|]. split; [|split; [exact Hg|reflexivity]].
      rewrite length_map, Hlen. fold num. lia.
    + intros Hsr Hnsr. split; [lia|].
      subst num. apply Z.quot_pos; nia.
  - intros ->. apply resample_if_needed_same.
Qed.

Lemma resample_if_needed_length_witness :
  (exists r, resample_if_needed (Mono [1%R; 2%R]) 16000 8000 = Ok (Mono r)
             /\ Z.of_nat (length r) = 4%Z)
  /\ resample_if_needed (Mono [1%R; 2%R]) 16000 16000
     = Ok (Mono [1%R; 2%R]).
Proof.
  split.
  - destruct (resample_if_needed_length (Mono [1%R; 2%R]) 16000 8000)
      as [H _].
    destruct (H ltac:(discriminate) [1%R; 2%R] eq_refl ltac:(discriminate))
      as [_ [_ [Hok _]]].
    destruct Hok as [r [grid [Hr [Hlen _]]]];
      [discriminate|vm_compute; discriminate|].
    exists r. split; [exact Hr|exact Hlen].
  - apply (resample_if_needed_length (Mono [1%R; 2%R]) 16000 16000).
    reflexivity.
Defined.

(** C10, as stated, fails on a loaded noise file recorded at another rate
    when the file has no sample and when it has several channels:
    [np.interp] refuses an empty array of sample points and an array of
    two dimensions, so that no resampled buffer (of the announced length or
    any other) is produced.  It fails as well for rates that make the
    announced length undefined or negative: a rate [noise_sr] of zero
    divides by zero, and [np.linspace] refuses a negative number of
    samples. *)
Lemma resample_empty_raises :
  (resample_if_needed (Mono []) 16000 8000 = Raise ValueError
   /\ ~ (exists r, resample_if_needed (Mono []) 16000 8000 = Ok r
                   /\ Z.of_nat (len r)
                      = Z.quot (Z.of_nat (len (Mono [])) * 16000) 8000))
  /\ (let stereo := Multi 2 [[1%R; 2%R]; [3%R; 4%R]] in
      resample_if_needed stereo 16000 8000 = Raise ValueError
      /\ ~ (exists r, resample_if_needed stereo 16000 8000 = Ok r
                      /\ Z.of_nat (len r)
                         = Z.quot (Z.of_nat (len stereo) * 16000) 8000))
  /\ resample_if_needed (Mono [1%R; 2%R]) 16000 0
     = Raise ZeroDivisionError
  /\ resample_if_needed (Mono [1%R; 2%R]) (-16000) 8000 = Raise ValueError.
Proof.
  split; [|split; [|split; reflexivity]].
  - assert (H : resample_if_needed (Mono []) 16000 8000 = Raise ValueError)
      by reflexivity.
    split; [exact H|].
    intros [r [Hr _]]. rewrite H in Hr. discriminate.
  - intro stereo.
    assert (H : resample_if_needed stereo 16000 8000 = Raise ValueError)
      by reflexivity.
    split; [exact H|].
    intros [r [Hr _]]. rewrite H in Hr. discriminate.
Qed.

(** A multi-channel noise at another rate is never resampled. *)
Lemma resample_multi_raises (channels : nat) (frames : list buffer)
      (sr noise_sr : Z) :
  noise_sr <> sr ->
  exists e,
    resample_if_needed (Multi channels frames) sr noise_sr = Raise e.
Proof.
  intro Hdiff. rewrite resample_if_needed_differ by exact Hdiff.
  unfold resample, resampled_length.
  destruct (Z.eqb_spec noise_sr 0) as [E|_]; [eexists; reflexivity|].
  simpl.
  destruct (np_linspace _ _) as [grid|e]; eexists; reflexivity.
Qed.
(** ** Running computations *)

Lemma faithful_app (w : World) (t d1 d2 : list event) :
  faithful w t d1 -> faithful w (t ++ d1) d2 -> faithful w t (d1 ++ d2).
Proof.
  revert t. induction d1 as [|ev d1 IH]; intros t H1 H2; simpl in *.
  - rewrite app_nil_r in H2. exact H2.
  - destruct H1 as [Hev H1]. split; [exact Hev|].
    apply IH; [exact H1|]. rewrite <- app_assoc. exact H2.
Qed.

Lemma faithful_written (w : World) (t d : list event) :
  all_writes_succeed w -> faithful w t d ->
  written d = map (fun wr => fst (fst wr)) (write_attempts d).
Proof.
  intros Hall. revert t. induction d as [|ev d IH]; intros t H; simpl in *.
  - reflexivity.
  - destruct H as [Hev H]. destruct ev as [p ok|p a sr ok|m|m]; simpl;
      try (apply (IH _ H)).
    rewrite Hev, Hall. simpl. f_equal. apply (IH _ H).
Qed.

Lemma written_app (d1 d2 : list event) :
  written (d1 ++ d2) = written d1 ++ written d2.
Proof.
  induction d1 as [|ev d1 IH]; simpl; [reflexivity|].
  destruct ev as [p ok|p a sr [|]|m|m]; simpl; rewrite IH; reflexivity.
Qed.

Lemma write_attempts_app (d1 d2 : list event) :
  write_attempts (d1 ++ d2) = write_attempts d1 ++ write_attempts d2.
Proof.
  induction d1 as [|ev d1 IH]; simpl; [reflexivity|].
  destruct ev as [p ok|p a sr ok|m|m]; simpl; rewrite IH; reflexivity.
Qed.

Lemma read_attempts_app (d1 d2 : list event) :
  read_attempts (d1 ++ d2) = read_attempts d1 ++ read_attempts d2.
Proof.
  induction d1 as [|ev d1 IH]; simpl; [reflexivity|].
  destruct ev as [p ok|p a sr ok|m|m]; simpl; rewrite IH; reflexivity.
Qed.

Lemma errors_app (d1 d2 : list event) :
  errors (d1 ++ d2) = errors d1 ++ errors d2.
Proof.
  induction d1 as [|ev d1 IH]; simpl; [reflexivity|].
  destruct ev as [p ok|p a sr ok|m|m]; simpl; rewrite IH; reflexivity.
Qed.

Lemma state_eta (s : State) : mkState (trace s ++ []) (cursor s) = s.
Proof. destruct s as [t c]. simpl. rewrite app_nil_r. reflexivity. Qed.

Lemma runs_deterministic {A : Type} (w : World) (m : M A) (s : State)
      (r r' : result A) (d d' : list event) (cu cu' : nat) :
  runs w m s r d cu -> runs w m s r' d' cu' ->
  r = r' /\ d = d' /\ cu = cu'.
Proof.
  intros [H _] [H' _]. rewrite H in H'. injection H' as Hr Hd Hc.
  apply app_inv_head in Hd. auto.
Qed.

Lemma runs_ret {A : Type} (w : World) (a : A) (s : State) :
  runs w (ret a) s (Ok a) [] (cursor s).
Proof.
  split; [|exact I]. unfold ret. rewrite state_eta. reflexivity.
Qed.

Lemma runs_raise {A : Type} (w : World) (e : exn) (s : State) :
  runs w (@raise A e) s (Raise e) [] (cursor s).
Proof.
  split; [|exact I]. unfold raise. rewrite state_eta. reflexivity.
Qed.

Lemma runs_lift {A : Type} (w : World) (r : result A) (s : State) :
  runs w (lift r) s r [] (cursor s).
Proof.
  split; [|exact I]. unfold lift. rewrite state_eta. reflexivity.
Qed.

Lemma runs_bind {A B : Type} (w : World) (m : M A) (f : A -> M B)
      (s : State) (a : A) (d1 : list event) (c1 : nat)
      (r : result B) (d2 : list event) (c2 : nat) :
  runs w m s (Ok a) d1 c1 ->
  runs w (f a) (mkState (trace s ++ d1) c1) r d2 c2 ->
  runs w (bind m f) s r (d1 ++ d2) c2.
Proof.
  intros [H1 F1] [H2 F2]. split.
  - unfold bind. rewrite H1, H2. simpl. rewrite app_assoc. reflexivity.
  - apply faithful_app; assumption.
Qed.

Lemma runs_bind_raise {A B : Type} (w : World) (m : M A) (f : A -> M B)
      (s : State) (e : exn) (d : list event) (cu : nat) :
  runs w m s (Raise e) d cu -> runs w (bind m f) s (Raise e) d cu.
Proof.
  intros [H F]. split; [|exact F]. unfold bind. rewrite H. reflexivity.
Qed.

Lemma runs_then_ret {A B : Type} (w : World) (m : M A) (g : A -> B)
      (s : State) (a : A) (d : list event) (cu : nat) :
  runs w m s (Ok a) d cu ->
  runs w (bind m (fun x => ret (g x))) s (Ok (g a)) d cu.
Proof.
  intros [H F]. split; [|exact F]. unfold bind, ret. rewrite H.
  reflexivity.
Qed.

Lemma runs_emit_info (w : World) (m : message) (s : State) :
  runs w (logger_info m) s (Ok tt) [EvInfo m] (cursor s).
Proof. split; [reflexivity|simpl; auto]. Qed.

Lemma runs_emit_error (w : World) (m : message) (s : State) :
  runs w (logger_error m) s (Ok tt) [EvError m] (cursor s).
Proof. split; [reflexivity|simpl; auto]. Qed.

(** [load_audio] never raises: it returns the content of a readable file,
    and reports an unreadable one and returns [None]. *)
Lemma runs_load_audio (w : World) (p : Path) (s : State) :
  match file_content w p with
  | Some r => runs w (load_audio w p) s (Ok (Some r)) [EvRead p true]
                   (cursor s)
  | None =>
      runs w (load_audio w p) s (Ok None)
           [EvRead p false; EvError (MsgLoadFailed p SoundFileError)]
           (cursor s)
  end.
Proof.
  unfold runs, load_audio, try_except, bind, sf_read.
  destruct (file_content w p) as [r|]; simpl.
  - split; [reflexivity|auto].
  - rewrite <- app_assoc. simpl. split; [reflexivity|auto].
Qed.

(** [save_audio] never raises: it returns the verdict of the world. *)
Lemma runs_save_audio (w : World) (audio : ndarray) (sr : Z) (p : Path)
      (s : State) :
  let ok := write_succeeds w (trace s) p audio sr in
  runs w (save_audio w audio sr p) s (Ok ok) (save_events p audio sr ok)
       (cursor s).
Proof.
  unfold runs, save_audio, try_except, bind, sf_write, save_events.
  simpl. destruct (write_succeeds w (trace s) p audio sr) eqn:E; simpl.
  - split; [reflexivity|auto].
  - rewrite <- app_assoc. simpl. split; [reflexivity|auto].
Qed.

Lemma save_events_written (p : Path) (audio : ndarray) (sr : Z) (ok : bool)
      (count : nat) :
  count_if ok count = count + length (written (save_events p audio sr ok)).
Proof. destruct ok; simpl; lia. Qed.

Lemma save_events_attempt (p : Path) (audio : ndarray) (sr : Z) (ok : bool) :
  write_attempts (save_events p audio sr ok) = [(p, audio, sr)]
  /\ read_attempts (save_events p audio sr ok) = [].
Proof. destruct ok; simpl; auto. Qed.

(** One "save and count" step, as every variant ends. *)
Lemma runs_save_and_count (w : World) (audio : ndarray) (sr : Z) (p : Path)
      (count : nat) (s : State) :
  exists d,
    runs w (bind (save_audio w audio sr p)
                 (fun ok => ret (count_if ok count)))
         s (Ok (count + length (written d))) d (cursor s)
    /\ write_attempts d = [(p, audio, sr)]
    /\ read_attempts d = [].
Proof.
  pose proof (runs_save_audio w audio sr p s) as H. simpl in H.
  set (ok := write_succeeds w (trace s) p audio sr) in *.
  exists (save_events p audio sr ok).
  split; [|apply save_events_attempt].
  rewrite <- save_events_written.
  rewrite <- (app_nil_r (save_events p audio sr ok)).
  eapply runs_bind; [exact H|].
  apply (runs_ret w (count_if ok count)
                  (mkState (trace s ++ save_events p audio sr ok)
                           (cursor s))).
Qed.

(** ** The random draws *)

Lemma runs_randint (w : World) (a b : Z) (s : State) :
  (a <= b)%Z ->
  runs w (randint w a b) s
       (Ok (a + Z.of_nat (tape w (cursor s) mod Z.to_nat (b - a + 1)))%Z)
       [] (S (cursor s)).
Proof.
  intro H. split; [|exact I]. unfold randint.
  destruct (Z.ltb_spec b a) as [Hlt|_]; [lia|].
  rewrite app_nil_r. reflexivity.
Qed.

Lemma remove_at_length {A : Type} (j : nat) (l : list A) :
  j < length l -> length (remove_at j l) = length l - 1.
Proof.
  revert j. induction l as [|x l IH]; intros [|j] H; simpl in *; try lia.
  rewrite IH by lia. lia.
Qed.

Lemma remove_at_incl {A : Type} (j : nat) (l : list A) :
  incl (remove_at j l) l.
Proof.
  revert j. induction l as [|x l IH]; intros [|j]; simpl.
  - apply incl_refl.
  - apply incl_refl.
  - apply incl_tl, incl_refl.
  - apply incl_cons; [left; reflexivity|]. apply incl_tl, IH.
Qed.

(** [random.sample] returns [k] files of the population and writes no
    event. *)
Lemma runs_random_sample (w : World) (population : list Path) (k : nat)
      (s : State) :
  k <= length population ->
  exists chosen cu,
    runs w (random_sample w population k) s (Ok chosen) [] cu
    /\ length chosen = k /\ incl chosen population.
Proof.
  revert population s. induction k as [|k IH]; intros population s Hk.
  - exists [], (cursor s). split; [apply runs_ret|].
    split; [reflexivity|]. intros x [].
  - destruct population as [|first rest] eqn:Epop; [simpl in Hk; lia|].
    rewrite <- Epop in *. 
    assert (Hlen : 0 < length population) by (rewrite Epop; simpl; lia).
    pose proof (runs_randint w 0 (Z.of_nat (length population) - 1) s
                             ltac:(lia)) as Hdraw.
    set (j := Z.to_nat
                (0 + Z.of_nat (tape w (cursor s)
                               mod Z.to_nat (Z.of_nat (length population)
                                             - 1 - 0 + 1)))) in *.
    assert (Hj : j < length population).
    { subst j.
      pose proof (Nat.mod_upper_bound (tape w (cursor s))
                    (Z.to_nat (Z.of_nat (length population) - 1 - 0 + 1))
                    ltac:(lia)).
      lia. }
    assert (Hrest : k <= length (remove_at j population))
      by (rewrite remove_at_length by exact Hj; lia).
    destruct (IH (remove_at j population)
                 (mkState (trace s ++ []) (S (cursor s))) Hrest)
      as [chosen [cu [Hrun [Hcl Hci]]]].
    exists (nth j population first :: chosen), cu.
    split; [|split].
    + simpl random_sample. rewrite Epop. rewrite <- Epop.
      change (@nil event) with (@nil event ++ []).
      eapply runs_bind; [exact Hdraw|].
      fold j.
      change (@nil event) with (@nil event ++ []).
      eapply runs_bind; [exact Hrun|].
      apply (runs_ret w (nth j population first :: chosen)
               (mkState
                  (trace (mkState (trace s ++ []) (S (cursor s))) ++ [])
                  cu)).
    + simpl. rewrite Hcl. reflexivity.
    + apply incl_cons.
      * apply nth_In. exact Hj.
      * eapply incl_tran; [exact Hci|apply remove_at_incl].
Qed.

(** ** Noise alignment *)

Lemma runs_align_short (w : World) (noise : ndarray) (target : nat)
      (s : State) :
  0 < len noise < target ->
  runs w (align_noise w noise target) s
       (Ok (crop (np_tile_array noise (ceil_div target (len noise)))
                 0 target))
       [] (cursor s).
Proof.
  intros [Hpos Hlt]. unfold align_noise.
  rewrite (proj2 (Nat.ltb_lt _ _) Hlt).
  destruct (Nat.eqb_spec (len noise) 0) as [E|_]; [lia|].
  rewrite slice_frames_prefix. apply runs_ret.
Qed.

Lemma runs_align_empty (w : World) (noise : ndarray) (target : nat)
      (s : State) :
  len noise = 0 -> 0 < target ->
  runs w (align_noise w noise target) s (Raise ZeroDivisionError) []
       (cursor s).
Proof.
  intros Hlen H. unfold align_noise. rewrite Hlen.
  rewrite (proj2 (Nat.ltb_lt _ _) H). simpl. apply runs_raise.
Qed.

Lemma runs_align_long (w : World) (noise : ndarray) (target : nat)
      (s : State) :
  target <= len noise ->
  let start := tape w (cursor s) mod (len noise - target + 1) in
  start + target <= len noise
  /\ runs w (align_noise w noise target) s
          (Ok (crop noise start target)) [] (S (cursor s)).
Proof.
  intros Hle start.
  assert (Hstart : start + target <= len noise).
  { subst start.
    pose proof (Nat.mod_upper_bound (tape w (cursor s))
                  (len noise - target + 1) ltac:(lia)).
    lia. }
  split; [exact Hstart|].
  unfold align_noise.
  rewrite (proj2 (Nat.ltb_ge _ _) Hle).
  pose proof (runs_randint w 0
                (Z.of_nat (len noise) - Z.of_nat target) s ltac:(lia))
    as Hdraw.
  replace (Z.to_nat (Z.of_nat (len noise) - Z.of_nat target - 0 + 1))
    with (len noise - target + 1) in Hdraw by lia.
  fold start in Hdraw. rewrite Z.add_0_l in Hdraw.
  change (@nil event) with (@nil event ++ []).
  eapply runs_bind; [exact Hdraw|].
  rewrite slice_frames_window by exact Hstart.
  apply (runs_ret w (crop noise start target)
                  (mkState (trace s ++ []) (S (cursor s)))).
Qed.

Lemma runs_trace_unchanged {A : Type} (w : World) (m : M A) (s : State)
      (r : result A) (cu : nat) :
  runs w m s r [] cu -> m s = (r, mkState (trace s) cu).
Proof. intros [H _]. rewrite app_nil_r in H. exact H. Qed.

(** ** The offsets of the crop are evenly drawn *)






(** ** [add_noise] *)



(** Whatever the noise, the alignment either divides by zero, on a noise
    without any frame, or aligns. *)
Lemma runs_align_cases (w : World) (noise : ndarray) (target : nat)
      (s : State) :
  (len noise = 0 /\ 0 < target
   /\ runs w (align_noise w noise target) s (Raise ZeroDivisionError) []
           (cursor s))
  \/ (exists aligned cu,
         aligned_to noise target aligned
         /\ runs w (align_noise w noise target) s (Ok aligned) [] cu).
Proof.
  destruct (Nat.lt_ge_cases (len noise) target) as [Hlt|Hge].
  - destruct (Nat.eq_dec (len noise) 0) as [E|Hpos].
    + left. split; [exact E|]. split; [lia|].
      apply runs_align_empty; [exact E|lia].
    + right. eexists. exists (cursor s). split.
      * left. split; [lia|reflexivity].
      * apply runs_align_short. lia.
  - right. destruct (runs_align_long w noise target s Hge) as [Hstart Hrun].
    eexists. exists (S (cursor s)). split; [|exact Hrun].
    right. eexists. split; [exact Hstart|reflexivity].
Qed.

(** A noise that can be mixed into the audio is aligned to the shape of
    the audio. *)
Lemma aligned_shape (audio noise aligned : ndarray) :
  mixable audio noise ->
  aligned_to noise (len audio) aligned ->
  shape aligned = shape audio.
Proof.
  destruct audio as [a|c rows], noise as [v|c' rows']; simpl;
    try contradiction.
  - intros Hne [[[Hpos Hlt] ->]|[start [Hstart ->]]]; simpl.
    + destruct (tiled_prefix v (length a) Hpos Hlt) as [Hlen _].
      rewrite Hlen. reflexivity.
    + rewrite window_length by exact Hstart. reflexivity.
  - intros [-> Hle] [[[Hpos Hlt] ->]|[start [Hstart ->]]]; simpl.
    + exfalso. simpl in Hlt. lia.
    + rewrite window_length by exact Hstart. reflexivity.
Qed.

Lemma mixable_aligns (w : World) (audio noise : ndarray) (s : State) :
  mixable audio noise ->
  exists aligned cu,
    aligned_to noise (len audio) aligned
    /\ runs w (align_noise w noise (len audio)) s (Ok aligned) [] cu.
Proof.
  intro Hmix.
  destruct (runs_align_cases w noise (len audio) s)
    as [[Hlen [Hpos _]]|H]; [|exact H].
  exfalso. destruct audio as [a|c rows], noise as [v|c' rows'];
    simpl in *; try contradiction.
  - destruct v; [congruence|discriminate].
  - destruct Hmix as [_ Hle]. lia.
Qed.

(** With a noise that can be mixed and a ratio that does not overflow,
    [add_noise] returns the audio mixed with an aligned noise and records
    no event. *)
Lemma runs_add_noise (w : World) (audio noise : ndarray)
      (snr_db : float64) (lin : R) (s : State) :
  mixable audio noise ->
  snr_linear snr_db = Ok lin ->
  exists aligned cu mixed,
    aligned_to noise (len audio) aligned
    /\ shape aligned = shape audio
    /\ mix audio aligned snr_db = Ok mixed
    /\ shape mixed = shape audio
    /\ runs w (add_noise w audio noise snr_db) s (Ok mixed) [] cu.
Proof.
  intros Hmix Hlin.
  destruct (mixable_aligns w audio noise s Hmix)
    as [aligned [cu [Hal Hrun]]].
  pose proof (aligned_shape audio noise aligned Hmix Hal) as Hshape.
  destruct (mix_same_shape audio aligned snr_db lin Hshape Hlin)
    as [mixed [Hm [Hms _]]].
  exists aligned, cu, mixed.
  split; [exact Hal|]. split; [exact Hshape|]. split; [exact Hm|].
  split; [exact Hms|].
  unfold add_noise. change (@nil event) with (@nil event ++ []).
  eapply runs_bind; [exact Hrun|].
  rewrite Hm. apply (runs_lift w _ (mkState (trace s ++ []) cu)).
Qed.

Lemma runs_add_noise_empty (w : World) (audio noise : ndarray)
      (snr_db : float64) (s : State) :
  0 < len audio -> len noise = 0 ->
  runs w (add_noise w audio noise snr_db) s (Raise ZeroDivisionError) []
       (cursor s).
Proof.
  intros Hpos Hlen. unfold add_noise. apply runs_bind_raise.
  apply runs_align_empty; assumption.
Qed.

(** [add_noise] records no event, whatever its outcome. *)
Lemma runs_add_noise_any (w : World) (audio noise : ndarray)
      (snr_db : float64) (s : State) :
  exists r cu, runs w (add_noise w audio noise snr_db) s r [] cu.
Proof.
  destruct (runs_align_cases w noise (len audio) s)
    as [[_ [_ Hrun]]|[aligned [cu [_ Hrun]]]].
  - eexists. eexists. unfold add_noise. apply runs_bind_raise. exact Hrun.
  - eexists. exists cu. unfold add_noise.
    change (@nil event) with (@nil event ++ []).
    eapply runs_bind; [exact Hrun|].
    apply (runs_lift w _ (mkState (trace s ++ []) cu)).
Qed.



(** ** The fixed variants of [augment_sample] *)

Lemma runs_save_original (w : World) (self : AudioAugmenter)
      (audio : ndarray) (sr : Z) (output_prefix base_name : string)
      (count : nat) (s : State) :
  exists d count',
    runs w (save_original w self audio sr output_prefix base_name count)
         s (Ok count') d (cursor s)
    /\ count' = count + length (written d)
    /\ write_attempts d
       = [(variant_path self output_prefix base_name "original",
           audio, sr)]
    /\ read_attempts d = [].
Proof.
  destruct (runs_save_and_count w audio sr
              (variant_path self output_prefix base_name "original")
              count s) as [d [Hrun [Hw Hr]]].
  exists d. eexists. split; [exact Hrun|]. auto.
Qed.

Lemma runs_volume_variations (w : World) (self : AudioAugmenter)
      (audio : ndarray) (sr : Z) (output_prefix base_name : string)
      (count : nat) (s : State) :
  exists d count',
    runs w (volume_variations w self audio sr output_prefix base_name
                              count)
         s (Ok count') d (cursor s)
    /\ count' = count + length (written d)
    /\ write_attempts d
       = [(variant_path self output_prefix base_name "vol0.7",
           change_volume audio 0.7, sr);
          (variant_path self output_prefix base_name "vol1.3",
           change_volume audio 1.3, sr)]
    /\ read_attempts d = [].
Proof.
  destruct (runs_save_and_count w (change_volume audio 0.7) sr
              (variant_path self output_prefix base_name "vol0.7")
              count s) as [d1 [H1 [Hw1 Hr1]]].
  destruct (runs_save_and_count w (change_volume audio 1.3) sr
              (variant_path self output_prefix base_name "vol1.3")
              (count + length (written d1))
              (mkState (trace s ++ d1) (cursor s)))
    as [d2 [H2 [Hw2 Hr2]]].
  exists (d1 ++ d2). eexists. split; [|split; [|split]].
  - unfold volume_variations, vol_factors. simpl for_each.
    eapply runs_bind; [exact H1|].
    apply runs_then_ret. exact H2.
  - rewrite written_app, length_app. lia.
  - rewrite write_attempts_app, Hw1, Hw2. reflexivity.
  - rewrite read_attempts_app, Hr1, Hr2. reflexivity.
Qed.

Lemma runs_speed_variant (w : World) (self : AudioAugmenter)
      (audio : ndarray) (sr : Z) (output_prefix base_name : string)
      (rate : Q) (repr : string) (count : nat) (s : State) :
  (0 < rate)%Q ->
  exists stretched d,
    time_stretch audio rate = Ok stretched
    /\ runs w (speed_variant w self audio sr output_prefix base_name
                             (rate, repr) count)
            s (Ok (count + length (written d))) d (cursor s)
    /\ write_attempts d
       = [(variant_path self output_prefix base_name
                        ("speed" ++ repr)%string, stretched, sr)]
    /\ read_attempts d = [].
Proof.
  intro Hrate.
  destruct (time_stretch_total audio rate Hrate) as [stretched Hst].
  destruct (runs_save_and_count w stretched sr
              (variant_path self output_prefix base_name
                            ("speed" ++ repr)%string)
              count s) as [d [Hrun [Hw Hr]]].
  exists stretched, d. split; [exact Hst|]. split; [|auto].
  unfold speed_variant. simpl fst. simpl snd. rewrite Hst.
  change d with ([] ++ d).
  eapply runs_bind; [apply runs_lift|].
  rewrite state_eta. exact Hrun.
Qed.

Lemma runs_speed_variations (w : World) (self : AudioAugmenter)
      (audio : ndarray) (sr : Z) (output_prefix base_name : string)
      (count : nat) (s : State) :
  exists slow fast d count',
    time_stretch audio 0.9 = Ok slow
    /\ time_stretch audio 1.1 = Ok fast
    /\ runs w (speed_variations w self audio sr output_prefix base_name
                                count)
            s (Ok count') d (cursor s)
    /\ count' = count + length (written d)
    /\ write_attempts d
       = [(variant_path self output_prefix base_name "speed0.9",
           slow, sr);
          (variant_path self output_prefix base_name "speed1.1",
           fast, sr)]
    /\ read_attempts d = [].
Proof.
  destruct (runs_speed_variant w self audio sr output_prefix base_name
              0.9%Q "0.9" count s eq_refl)
    as [slow [d1 [Hslow [H1 [Hw1 Hr1]]]]].
  destruct (runs_speed_variant w self audio sr output_prefix base_name
              1.1%Q "1.1" (count + length (written d1))
              (mkState (trace s ++ d1) (cursor s)) eq_refl)
    as [fast [d2 [Hfast [H2 [Hw2 Hr2]]]]].
  exists slow, fast, (d1 ++ d2). eexists.
  split; [exact Hslow|]. split; [exact Hfast|].
  split; [|split; [|split]].
  - unfold speed_variations, speed_factors. simpl for_each.
    eapply runs_bind; [exact H1|].
    apply runs_then_ret. exact H2.
  - rewrite written_app, length_app. lia.
  - rewrite write_attempts_app, Hw1, Hw2. reflexivity.
  - rewrite read_attempts_app, Hr1, Hr2. reflexivity.
Qed.

(** The three fixed blocks in sequence, followed by any continuation: five
    writes are attempted, in order, none of them is a read, and the
    continuation starts with the number of those that went through. *)
Lemma runs_fixed_blocks {B : Type} (w : World) (self : AudioAugmenter)
      (audio : ndarray) (sr : Z) (output_prefix base_name : string)
      (k : nat -> M B) (s : State) :
  exists slow fast d5,
    time_stretch audio 0.9 = Ok slow
    /\ time_stretch audio 1.1 = Ok fast
    /\ write_attempts d5
       = fixed_writes self audio slow fast sr output_prefix base_name
    /\ read_attempts d5 = []
    /\ forall r d cu,
        runs w (k (length (written d5)))
             (mkState (trace s ++ d5) (cursor s)) r d cu ->
        runs w
             (bind (save_original w self audio sr output_prefix base_name
                                  0)
                (fun count =>
                   bind (volume_variations w self audio sr output_prefix
                                           base_name count)
                     (fun count =>
                        bind (speed_variations w self audio sr
                                               output_prefix base_name
                                               count)
                             k)))
             s r (d5 ++ d) cu.
Proof.
  destruct (runs_save_original w self audio sr output_prefix base_name 0 s)
    as [d1 [c1 [H1 [Hc1 [Hw1 Hr1]]]]].
  destruct (runs_volume_variations w self audio sr output_prefix base_name
              c1 (mkState (trace s ++ d1) (cursor s)))
    as [d2 [c2 [H2 [Hc2 [Hw2 Hr2]]]]].
  destruct (runs_speed_variations w self audio sr output_prefix base_name
              c2 (mkState (trace s ++ d1 ++ d2) (cursor s)))
    as [slow [fast [d3 [c3 [Hslow [Hfast [H3 [Hc3 [Hw3 Hr3]]]]]]]]].
  exists slow, fast, (d1 ++ d2 ++ d3).
  split; [exact Hslow|]. split; [exact Hfast|].
  split; [|split].
  - rewrite !write_attempts_app, Hw1, Hw2, Hw3. reflexivity.
  - rewrite !read_attempts_app, Hr1, Hr2, Hr3. reflexivity.
  - intros r d cu Hk.
    assert (Ec : c3 = length (written (d1 ++ d2 ++ d3)))
      by (rewrite !written_app, !length_app; lia).
    rewrite <- Ec in Hk.
    rewrite <- !app_assoc.
    eapply runs_bind; [exact H1|].
    eapply runs_bind; [simpl in H2; exact H2|].
    eapply runs_bind.
    + simpl in H3. simpl. rewrite <- app_assoc. exact H3.
    + simpl. rewrite <- !app_assoc. exact Hk.
Qed.

(** ** The noise variants *)

Lemma enumerate_snd {X : Type} (start : nat) (xs : list X) :
  map snd (enumerate start xs) = xs.
Proof.
  unfold enumerate. revert start.
  induction xs as [|x xs IH]; intro start; simpl; [reflexivity|].
  rewrite IH. reflexivity.
Qed.

Lemma enumerate_in {X : Type} (start : nat) (xs : list X) (e : nat * X) :
  In e (enumerate start xs) -> In (snd e) xs.
Proof.
  intro H. rewrite <- (enumerate_snd start xs). apply in_map. exact H.
Qed.

(** One noise variant made from a usable file: the file is read; when it
    loads, the audio mixed at 15 dB with its aligned noise is handed to
    [sf.write]; when it does not, nothing is written. *)
Lemma runs_noise_variant (w : World) (self : AudioAugmenter)
      (audio : ndarray) (sr : Z) (output_prefix base_name : string)
      (entry : nat * Path) (count : nat) (s : State) :
  usable_noise w audio sr (snd entry) ->
  exists d cu count',
    runs w (noise_variant w self audio sr output_prefix base_name entry
                          count)
         s (Ok count') d cu
    /\ count' = count + length (written d)
    /\ read_attempts d = [snd entry]
    /\ Forall2 (noise_write w self audio sr output_prefix base_name)
               (if loads w (snd entry) then [entry] else [])
               (write_attempts d).
Proof.
  destruct entry as [i f]. simpl snd. intro Huse.
  pose proof (runs_load_audio w f s) as Hload.
  unfold noise_variant, loads.
  destruct (file_content w f) as [[noise noise_sr]|] eqn:Ef.
  - destruct (Huse noise noise_sr Ef) as [noise' [Hres Hne]].
    destruct (runs_add_noise w audio noise' fifteen _
                (mkState (trace s ++ [EvRead f true]) (cursor s)) Hne
                snr_linear_fifteen)
      as [aligned [cu [mixed [Hal [_ [Hmix [_ Hadd]]]]]]].
    destruct (runs_save_and_count w mixed sr
                (variant_path self output_prefix base_name
                              ("noise" ++ str_of_nat i)%string)
                count
                (mkState (trace s ++ [EvRead f true]) cu))
      as [d [Hsave [Hw Hr]]].
    exists ([EvRead f true] ++ d), cu. eexists.
    split; [|split; [|split]].
    + eapply runs_bind; [exact Hload|]. cbv iota beta.
      rewrite Hres. change d with ([] ++ [] ++ d).
      eapply runs_bind; [apply runs_lift|].
      eapply runs_bind.
      * simpl. rewrite app_nil_r. exact Hadd.
      * simpl. rewrite !app_nil_r. simpl in Hsave. exact Hsave.
    + simpl. reflexivity.
    + simpl. rewrite Hr. reflexivity.
    + simpl. rewrite Hw. constructor; [|constructor].
      exists noise, noise_sr, noise', aligned, mixed. simpl.
      split; [exact Ef|]. split; [exact Hres|]. split; [exact Hal|].
      split; [exact Hmix|reflexivity].
  - exists [EvRead f false; EvError (MsgLoadFailed f SoundFileError)],
      (cursor s), count.
    split; [|split; [|split]].
    + rewrite <- (app_nil_r [EvRead f false; _]).
      eapply runs_bind; [exact Hload|].
      apply (runs_ret w count
               (mkState (trace s ++ [EvRead f false;
                                     EvError (MsgLoadFailed f
                                                SoundFileError)])
                        (cursor s))).
    + simpl. lia.
    + reflexivity.
    + simpl. constructor.
Qed.

Lemma runs_noise_loop (w : World) (self : AudioAugmenter)
      (audio : ndarray) (sr : Z) (output_prefix base_name : string)
      (entries : list (nat * Path)) (count : nat) (s : State) :
  (forall e, In e entries -> usable_noise w audio sr (snd e)) ->
  exists d cu count',
    runs w (for_each entries
              (noise_variant w self audio sr output_prefix base_name)
              count)
         s (Ok count') d cu
    /\ count' = count + length (written d)
    /\ read_attempts d = map snd entries
    /\ Forall2 (noise_write w self audio sr output_prefix base_name)
               (filter (fun e => loads w (snd e)) entries)
               (write_attempts d).
Proof.
  revert count s. induction entries as [|e entries IH]; intros count s Huse.
  - exists [], (cursor s), count. split; [apply runs_ret|].
    split; [simpl; lia|]. split; [reflexivity|constructor].
  - destruct (runs_noise_variant w self audio sr output_prefix base_name
                e count s (Huse e (or_introl eq_refl)))
      as [d1 [c1 [n1 [H1 [Hn1 [Hr1 Hw1]]]]]].
    destruct (IH n1 (mkState (trace s ++ d1) c1)
                 (fun e' He' => Huse e' (or_intror He')))
      as [d2 [c2 [n2 [H2 [Hn2 [Hr2 Hw2]]]]]].
    exists (d1 ++ d2), c2, n2. split; [|split; [|split]].
    + simpl for_each. eapply runs_bind; [exact H1|exact H2].
    + rewrite written_app, length_app. lia.
    + rewrite read_attempts_app, Hr1, Hr2. reflexivity.
    + rewrite write_attempts_app. simpl filter.
      destruct (loads w (snd e)).
      * change (e :: filter (fun e0 => loads w (snd e0)) entries)
          with ([e] ++ filter (fun e0 => loads w (snd e0)) entries).
        apply Forall2_app; assumption.
      * inversion Hw1 as [E1 E2|]. rewrite <- E2 in *. simpl. exact Hw2.
Qed.

Lemma min_three_le (n : nat) : Nat.min 3 n <= n.
Proof. lia. Qed.

Lemma runs_noise_variations (w : World) (self : AudioAugmenter)
      (audio : ndarray) (sr : Z) (output_prefix base_name : string)
      (background_files : list Path) (count : nat) (s : State) :
  (forall f, In f background_files -> usable_noise w audio sr f) ->
  exists chosen d cu count',
    runs w (noise_variations w self audio sr output_prefix base_name
                             background_files count)
         s (Ok count') d cu
    /\ count' = count + length (written d)
    /\ length chosen = Nat.min 3 (length background_files)
    /\ incl chosen background_files
    /\ read_attempts d = chosen
    /\ Forall2 (noise_write w self audio sr output_prefix base_name)
               (filter (fun e => loads w (snd e)) (enumerate 0 chosen))
               (write_attempts d).
Proof.
  intro Huse. unfold noise_variations.
  destruct background_files as [|b bs] eqn:E.
  - exists [], [], (cursor s), count.
    split; [apply runs_ret|]. split; [simpl; lia|].
    split; [reflexivity|]. split; [apply incl_refl|].
    split; [reflexivity|constructor].
  - rewrite <- E in *.
    destruct (runs_random_sample w background_files
                (Nat.min 3 (length background_files)) s
                (min_three_le _))
      as [chosen [cu [Hsample [Hlen Hincl]]]].
    destruct (runs_noise_loop w self audio sr output_prefix base_name
                (enumerate 0 chosen) count
                (mkState (trace s ++ []) cu))
      as [d [cu' [count' [Hloop [Hcount [Hreads Hwrites]]]]]].
    { intros e He. apply Huse, Hincl. eapply enumerate_in. exact He. }
    exists chosen, d, cu', count'.
    split; [|split; [exact Hcount|split; [exact Hlen|split;
             [exact Hincl|split; [|exact Hwrites]]]]].
    + change d with ([] ++ d).
      eapply runs_bind; [exact Hsample|exact Hloop].
    + rewrite Hreads. apply enumerate_snd.
Qed.

(** [augment_sample] on a sample that loads, with usable noise files: it
    returns the number of files written, after reading the sample and the
    chosen noise files and attempting the five fixed writes and one write
    per chosen noise file that loads, in this order. *)
Lemma augment_sample_runs (w : World) (self : AudioAugmenter)
      (audio_path : Path) (background_files : list Path)
      (output_prefix : string) (audio : ndarray) (sr : Z) (s : State) :
  file_content w audio_path = Some (audio, sr) ->
  (forall f, In f background_files -> usable_noise w audio sr f) ->
  exists slow fast chosen noise_writes d cu,
    time_stretch audio 0.9 = Ok slow
    /\ time_stretch audio 1.1 = Ok fast
    /\ runs w (augment_sample w self audio_path background_files
                              output_prefix)
            s (Ok (length (written d))) d cu
    /\ length chosen = Nat.min 3 (length background_files)
    /\ incl chosen background_files
    /\ read_attempts d = audio_path :: chosen
    /\ write_attempts d
       = fixed_writes self audio slow fast sr output_prefix
                      (stem audio_path)
         ++ noise_writes
    /\ Forall2 (noise_write w self audio sr output_prefix
                            (stem audio_path))
               (filter (fun e => loads w (snd e)) (enumerate 0 chosen))
               noise_writes.
Proof.
  intros Hfile Huse.
  pose proof (runs_load_audio w audio_path s) as Hload.
  rewrite Hfile in Hload.
  destruct (runs_fixed_blocks w self audio sr output_prefix
              (stem audio_path)
              (fun count =>
                 bind (noise_variations w self audio sr output_prefix
                         (stem audio_path) background_files count)
                      (fun count => ret count))
              (mkState (trace s ++ [EvRead audio_path true]) (cursor s)))
    as [slow [fast [d5 [Hslow [Hfast [Hw5 [Hr5 Hk]]]]]]].
  destruct (runs_noise_variations w self audio sr output_prefix
              (stem audio_path) background_files (length (written d5))
              (mkState ((trace s ++ [EvRead audio_path true]) ++ d5)
                       (cursor s)) Huse)
    as [chosen [dn [cu [count [Hn [Hcount [Hlen [Hincl [Hrn Hwn]]]]]]]]].
  exists slow, fast, chosen, (write_attempts dn),
    ([EvRead audio_path true] ++ d5 ++ dn), cu.
  split; [exact Hslow|]. split; [exact Hfast|].
  split; [|split; [exact Hlen|split; [exact Hincl|split;
           [|split; [|exact Hwn]]]]].
  - unfold augment_sample.
    eapply runs_bind; [exact Hload|]. cbv iota beta zeta.
    replace (length (written ([EvRead audio_path true] ++ d5 ++ dn)))
      with count
      by (simpl; rewrite written_app, length_app; lia).
    apply Hk. simpl. apply (runs_then_ret w _ (fun c => c)). exact Hn.
  - simpl. rewrite read_attempts_app, Hr5, Hrn. reflexivity.
  - simpl. rewrite write_attempts_app, Hw5. reflexivity.
Qed.

(** ** Counting, whatever fails *)

Lemma runs_noise_variant_any (w : World) (self : AudioAugmenter)
      (audio : ndarray) (sr : Z) (output_prefix base_name : string)
      (entry : nat * Path) (count : nat) (s : State) :
  exists r d cu,
    runs w (noise_variant w self audio sr output_prefix base_name entry
                          count)
         s r d cu
    /\ forall count', r = Ok count' -> count' = count + length (written d).
Proof.
  destruct entry as [i f].
  pose proof (runs_load_audio w f s) as Hload.
  unfold noise_variant.
  destruct (file_content w f) as [[noise noise_sr]|] eqn:Ef.
  - destruct (resample_if_needed noise sr noise_sr) as [noise'|e] eqn:Hres.
    + destruct (runs_add_noise_any w audio noise' fifteen
                  (mkState (trace s ++ [EvRead f true]) (cursor s)))
        as [[mixed|e] [cu Hadd]].
      * destruct (runs_save_and_count w mixed sr
                    (variant_path self output_prefix base_name
                                  ("noise" ++ str_of_nat i)%string)
                    count
                    (mkState (trace s ++ [EvRead f true]) cu))
          as [d [Hsave [Hw Hr]]].
        exists (Ok (count + length (written d))), ([EvRead f true] ++ d), cu.
        split; [|intros c Hc; injection Hc as <-; reflexivity].
        eapply runs_bind; [exact Hload|]. cbv iota beta.
        rewrite Hres. change d with ([] ++ [] ++ d).
        eapply runs_bind; [apply runs_lift|].
        eapply runs_bind.
        -- simpl. rewrite app_nil_r. exact Hadd.
        -- simpl. rewrite !app_nil_r. simpl in Hsave. exact Hsave.
      * exists (Raise e), ([EvRead f true] ++ []), cu.
        split; [|intros c Hc; discriminate Hc].
        eapply runs_bind; [exact Hload|]. cbv iota beta.
        rewrite Hres. change (@nil event) with (@nil event ++ []).
        eapply runs_bind; [apply runs_lift|].
        apply runs_bind_raise. simpl. rewrite app_nil_r. exact Hadd.
    + exists (Raise e), ([EvRead f true] ++ []), (cursor s).
      split; [|intros c Hc; discriminate Hc].
      eapply runs_bind; [exact Hload|]. cbv iota beta.
      rewrite Hres. apply runs_bind_raise.
      apply (runs_lift w (Raise e)
               (mkState (trace s ++ [EvRead f true]) (cursor s))).
  - exists (Ok count),
      ([EvRead f false; EvError (MsgLoadFailed f SoundFileError)] ++ []),
      (cursor s).
    split; [|intros c Hc; injection Hc as <-; simpl; lia].
    eapply runs_bind; [exact Hload|].
    apply (runs_ret w count
             (mkState (trace s ++ [EvRead f false;
                                   EvError (MsgLoadFailed f
                                              SoundFileError)])
                      (cursor s))).
Qed.

Lemma runs_noise_loop_any (w : World) (self : AudioAugmenter)
      (audio : ndarray) (sr : Z) (output_prefix base_name : string)
      (entries : list (nat * Path)) (count : nat) (s : State) :
  exists r d cu,
    runs w (for_each entries
              (noise_variant w self audio sr output_prefix base_name)
              count)
         s r d cu
    /\ forall count', r = Ok count' -> count' = count + length (written d).
Proof.
  revert count s. induction entries as [|e entries IH]; intros count s.
  - exists (Ok count), [], (cursor s). split; [apply runs_ret|].
    intros c Hc. injection Hc as <-. simpl. lia.
  - destruct (runs_noise_variant_any w self audio sr output_prefix
                base_name e count s) as [[c1|e1] [d1 [cu1 [H1 Hc1]]]].
    + destruct (IH c1 (mkState (trace s ++ d1) cu1))
        as [r [d2 [cu2 [H2 Hc2]]]].
      exists r, (d1 ++ d2), cu2. split.
      * simpl for_each. eapply runs_bind; [exact H1|exact H2].
      * intros c Hc. rewrite written_app, length_app.
        rewrite (Hc2 c Hc), (Hc1 c1 eq_refl). lia.
    + exists (Raise e1), d1, cu1. split.
      * simpl for_each. apply runs_bind_raise. exact H1.
      * intros c Hc. discriminate Hc.
Qed.

Lemma runs_noise_variations_any (w : World) (self : AudioAugmenter)
      (audio : ndarray) (sr : Z) (output_prefix base_name : string)
      (background_files : list Path) (count : nat) (s : State) :
  exists r d cu,
    runs w (noise_variations w self audio sr output_prefix base_name
                             background_files count)
         s r d cu
    /\ forall count', r = Ok count' -> count' = count + length (written d).
Proof.
  unfold noise_variations.
  destruct background_files as [|b bs] eqn:E.
  - exists (Ok count), [], (cursor s). split; [apply runs_ret|].
    intros c Hc. injection Hc as <-. simpl. lia.
  - rewrite <- E.
    destruct (runs_random_sample w background_files
                (Nat.min 3 (length background_files)) s
                (min_three_le _))
      as [chosen [cu [Hsample _]]].
    destruct (runs_noise_loop_any w self audio sr output_prefix base_name
                (enumerate 0 chosen) count
                (mkState (trace s ++ []) cu))
      as [r [d [cu' [Hloop Hcount]]]].
    exists r, ([] ++ d), cu'. split; [|exact Hcount].
    eapply runs_bind; [exact Hsample|exact Hloop].
Qed.

(** Whatever fails, a count that [augment_sample] returns is the number of
    files written. *)
Lemma augment_sample_counts (w : World) (self : AudioAugmenter)
      (audio_path : Path) (background_files : list Path)
      (output_prefix : string) (s : State) :
  exists r d cu,
    runs w (augment_sample w self audio_path background_files
                           output_prefix)
         s r d cu
    /\ forall count, r = Ok count -> count = length (written d).
Proof.
  pose proof (runs_load_audio w audio_path s) as Hload.
  unfold augment_sample.
  destruct (file_content w audio_path) as [[audio sr]|] eqn:Hfile.
  - destruct (runs_fixed_blocks w self audio sr output_prefix
                (stem audio_path)
                (fun count =>
                   bind (noise_variations w self audio sr output_prefix
                           (stem audio_path) background_files count)
                        (fun count => ret count))
                (mkState (trace s ++ [EvRead audio_path true]) (cursor s)))
      as [slow [fast [d5 [_ [_ [_ [_ Hk]]]]]]].
    destruct (runs_noise_variations_any w self audio sr output_prefix
                (stem audio_path) background_files (length (written d5))
                (mkState ((trace s ++ [EvRead audio_path true]) ++ d5)
                         (cursor s)))
      as [r [dn [cu [Hn Hcount]]]].
    exists r, ([EvRead audio_path true] ++ d5 ++ dn), cu. split.
    + eapply runs_bind; [exact Hload|]. cbv iota beta zeta.
      apply Hk. simpl. destruct r as [c|e].
      * apply (runs_then_ret w _ (fun c => c)). exact Hn.
      * apply runs_bind_raise. exact Hn.
    + intros c Hc. simpl. rewrite written_app, length_app.
      rewrite (Hcount c Hc). reflexivity.
  - exists (Ok 0),
      ([EvRead audio_path false;
        EvError (MsgLoadFailed audio_path SoundFileError)] ++ []),
      (cursor s).
    split; [|intros c Hc; injection Hc as <-; reflexivity].
    eapply runs_bind; [exact Hload|].
    apply (runs_ret w 0
             (mkState (trace s ++ [EvRead audio_path false;
                                   EvError (MsgLoadFailed audio_path
                                              SoundFileError)])
                      (cursor s))).
Qed.

(** For a sample that loads, the five fixed writes are attempted first,
    whatever fails then or later. *)
Lemma augment_sample_fixed_first (w : World) (self : AudioAugmenter)
      (audio_path : Path) (background_files : list Path)
      (output_prefix : string) (audio : ndarray) (sr : Z) (s : State) :
  file_content w audio_path = Some (audio, sr) ->
  exists r d cu slow fast more,
    runs w (augment_sample w self audio_path background_files
                           output_prefix)
         s r d cu
    /\ time_stretch audio 0.9 = Ok slow
    /\ time_stretch audio 1.1 = Ok fast
    /\ write_attempts d
       = fixed_writes self audio slow fast sr output_prefix
                      (stem audio_path)
         ++ more
    /\ forall count, r = Ok count -> count = length (written d).
Proof.
  intro Hfile.
  pose proof (runs_load_audio w audio_path s) as Hload.
  rewrite Hfile in Hload. unfold augment_sample.
  destruct (runs_fixed_blocks w self audio sr output_prefix
              (stem audio_path)
              (fun count =>
                 bind (noise_variations w self audio sr output_prefix
                         (stem audio_path) background_files count)
                      (fun count => ret count))
              (mkState (trace s ++ [EvRead audio_path true]) (cursor s)))
    as [slow [fast [d5 [Hslow [Hfast [Hw5 [_ Hk]]]]]]].
  destruct (runs_noise_variations_any w self audio sr output_prefix
              (stem audio_path) background_files (length (written d5))
              (mkState ((trace s ++ [EvRead audio_path true]) ++ d5)
                       (cursor s)))
    as [r [dn [cu [Hn Hcount]]]].
  exists r, ([EvRead audio_path true] ++ d5 ++ dn), cu, slow, fast,
    (write_attempts dn).
  split; [|split; [exact Hslow|split; [exact Hfast|split]]].
  - eapply runs_bind; [exact Hload|]. cbv iota beta zeta.
    apply Hk. simpl. destruct r as [c|e].
    + apply (runs_then_ret w _ (fun c => c)). exact Hn.
    + apply runs_bind_raise. exact Hn.
  - simpl. rewrite write_attempts_app, Hw5. reflexivity.
  - intros c Hc. simpl. rewrite written_app, length_app.
    rewrite (Hcount c Hc). reflexivity.
Qed.

(** A noise file that cannot be loaded is skipped: the loop goes on with
    the files after it and the same count. *)
Lemma unreadable_noise_skipped (w : World) (self : AudioAugmenter)
      (audio : ndarray) (sr : Z) (output_prefix base_name : string)
      (i : nat) (f : Path) (rest : list (nat * Path)) (count : nat)
      (s : State) :
  file_content w f = None ->
  for_each ((i, f) :: rest)
           (noise_variant w self audio sr output_prefix base_name) count s
  = for_each rest
             (noise_variant w self audio sr output_prefix base_name) count
             (mkState (trace s
                       ++ [EvRead f false;
                           EvError (MsgLoadFailed f SoundFileError)])
                      (cursor s)).
Proof.
  intro Hfile.
  pose proof (runs_load_audio w f s) as Hload. rewrite Hfile in Hload.
  simpl for_each. unfold bind at 1. unfold noise_variant, bind at 1.
  rewrite (proj1 Hload). reflexivity.
Qed.

(** A positive sample that cannot be loaded is skipped: the run goes on
    with the samples after it and the same total. *)
Lemma unreadable_sample_skipped (w : World) (self : AudioAugmenter)
      (background_files : list Path) (n i : nat) (f : Path)
      (rest : list (nat * Path)) (total : nat) (s : State) :
  file_content w f = None ->
  for_each ((i, f) :: rest) (augment_one w self background_files n)
           total s
  = for_each rest (augment_one w self background_files n) total
             (mkState (trace s
                       ++ [EvInfo (MsgAugmenting i n (name f));
                           EvRead f false;
                           EvError (MsgLoadFailed f SoundFileError);
                           EvInfo (MsgCreated 0)])
                      (cursor s)).
Proof.
  intro Hfile.
  pose proof (runs_load_audio w f
                (mkState (trace s ++ [EvInfo (MsgAugmenting i n (name f))])
                         (cursor s))) as Hload.
  rewrite Hfile in Hload.
  simpl for_each. unfold bind at 1. unfold augment_one, bind at 1.
  unfold logger_info at 1, emit at 1.
  unfold bind at 1. unfold augment_sample, bind at 1.
  rewrite (proj1 Hload). simpl.
  rewrite Nat.add_0_r, <- !app_assoc. reflexivity.
Qed.

(** ** An empty noise file *)

Lemma empty_noise_variant_raises (w : World) (self : AudioAugmenter)
      (audio : ndarray) (sr : Z) (output_prefix base_name : string)
      (i : nat) (f : Path) (noise : ndarray) (rest : list (nat * Path))
      (count : nat) (s : State) :
  0 < len audio ->
  file_content w f = Some (noise, sr) ->
  len noise = 0 ->
  runs w (for_each ((i, f) :: rest)
            (noise_variant w self audio sr output_prefix base_name)
            count)
       s (Raise ZeroDivisionError) [EvRead f true] (cursor s).
Proof.
  intros Hne Hfile Hempty.
  pose proof (runs_load_audio w f s) as Hload. rewrite Hfile in Hload.
  simpl for_each. apply runs_bind_raise.
  unfold noise_variant.
  rewrite <- (app_nil_r [EvRead f true]).
  eapply runs_bind; [exact Hload|]. cbv iota beta.
  rewrite resample_if_needed_same.
  change (@nil event) with (@nil event ++ []).
  eapply runs_bind; [apply runs_lift|].
  apply runs_bind_raise.
  apply (runs_add_noise_empty w audio noise fifteen
           (mkState ((trace s ++ [EvRead f true]) ++ []) (cursor s)) Hne
           Hempty).
Qed.

Lemma resample_empty (noise : ndarray) (sr noise_sr : Z) :
  len noise = 0 -> noise_sr <> sr ->
  exists e, resample_if_needed noise sr noise_sr = Raise e.
Proof.
  intros Hlen Hdiff. destruct noise as [samples|channels frames].
  - destruct samples; [|discriminate Hlen].
    rewrite resample_if_needed_differ by exact Hdiff.
    unfold resample, resampled_length.
    destruct (Z.eqb_spec noise_sr 0) as [E|Hnz].
    + exists ZeroDivisionError. reflexivity.
    + exists ValueError. simpl len. rewrite Z.mul_0_l.
      rewrite Z.quot_0_l by exact Hnz. reflexivity.
  - apply resample_multi_raises. exact Hdiff.
Qed.

(** An empty noise file recorded at another rate stops the loop as well:
    the resampling raises before the mixer is reached. *)
Lemma empty_noise_variant_raises_any_rate (w : World)
      (self : AudioAugmenter) (audio : ndarray) (sr noise_sr : Z)
      (output_prefix base_name : string) (i : nat) (f : Path)
      (noise : ndarray) (rest : list (nat * Path)) (count : nat)
      (s : State) :
  0 < len audio ->
  file_content w f = Some (noise, noise_sr) ->
  len noise = 0 ->
  exists e,
    runs w (for_each ((i, f) :: rest)
              (noise_variant w self audio sr output_prefix base_name)
              count)
         s (Raise e) [EvRead f true] (cursor s)
    /\ (noise_sr = sr -> e = ZeroDivisionError).
Proof.
  intros Hne Hfile Hempty.
  destruct (Z.eq_dec noise_sr sr) as [E|Hdiff].
  - subst noise_sr. exists ZeroDivisionError. split; [|reflexivity].
    apply (empty_noise_variant_raises w self audio sr output_prefix
             base_name i f noise rest count s Hne Hfile Hempty).
  - destruct (resample_empty noise sr noise_sr Hempty Hdiff) as [e He].
    exists e. split; [|intro E; contradiction].
    pose proof (runs_load_audio w f s) as Hload. rewrite Hfile in Hload.
    simpl for_each. apply runs_bind_raise.
    unfold noise_variant.
    rewrite <- (app_nil_r [EvRead f true]).
    eapply runs_bind; [exact Hload|]. cbv iota beta.
    rewrite He. apply runs_bind_raise.
    apply (runs_lift w (Raise e)
             (mkState (trace s ++ [EvRead f true]) (cursor s))).
Qed.

Lemma empty_noise_aborts_sample (w : World) (self : AudioAugmenter)
      (audio_path : Path) (background_files : list Path)
      (output_prefix : string) (audio : ndarray) (sr : Z) (s : State) :
  file_content w audio_path = Some (audio, sr) ->
  0 < len audio ->
  background_files <> [] ->
  (forall f, In f background_files ->
             exists noise,
               file_content w f = Some (noise, sr) /\ len noise = 0) ->
  exists slow fast first d cu,
    time_stretch audio 0.9 = Ok slow
    /\ time_stretch audio 1.1 = Ok fast
    /\ In first background_files
    /\ runs w (augment_sample w self audio_path background_files
                              output_prefix)
            s (Raise ZeroDivisionError) d cu
    /\ read_attempts d = [audio_path; first]
    /\ write_attempts d
       = fixed_writes self audio slow fast sr output_prefix
                      (stem audio_path).
Proof.
  intros Hfile Hne Hbg Hempty.
  pose proof (runs_load_audio w audio_path s) as Hload.
  rewrite Hfile in Hload.
  destruct (runs_fixed_blocks w self audio sr output_prefix
              (stem audio_path)
              (fun count =>
                 bind (noise_variations w self audio sr output_prefix
                         (stem audio_path) background_files count)
                      (fun count => ret count))
              (mkState (trace s ++ [EvRead audio_path true]) (cursor s)))
    as [slow [fast [d5 [Hslow [Hfast [Hw5 [Hr5 Hk]]]]]]].
  destruct (runs_random_sample w background_files
              (Nat.min 3 (length background_files))
              (mkState ((trace s ++ [EvRead audio_path true]) ++ d5)
                       (cursor s))
              (min_three_le _))
    as [chosen [cu [Hsample [Hlen Hincl]]]].
  destruct chosen as [|first others].
  { destruct background_files; [congruence|simpl in Hlen; lia]. }
  assert (Hin : In first background_files)
    by (apply Hincl; left; reflexivity).
  destruct (Hempty first Hin) as [noise [Hnoise Hnone]].
  exists slow, fast, first,
    ([EvRead audio_path true] ++ d5 ++ [] ++ [EvRead first true]), cu.
  split; [exact Hslow|]. split; [exact Hfast|]. split; [exact Hin|].
  split; [|split].
  - unfold augment_sample.
    eapply runs_bind; [exact Hload|]. cbv iota beta zeta.
    apply Hk. simpl. apply runs_bind_raise.
    unfold noise_variations.
    destruct background_files as [|b bs] eqn:E; [congruence|].
    rewrite <- E in *.
    change [EvRead first true] with ([] ++ [EvRead first true]).
    eapply runs_bind; [exact Hsample|].
    apply (empty_noise_variant_raises w self audio sr output_prefix
             (stem audio_path) 0 first noise
             (combine (seq 1 (length others)) others)
             (length (written d5))
             (mkState
                (((trace s ++ [EvRead audio_path true]) ++ d5) ++ [])
                cu) Hne Hnoise Hnone).
  - simpl. rewrite read_attempts_app, Hr5. reflexivity.
  - simpl. rewrite write_attempts_app, Hw5. reflexivity.
Qed.

Lemma snr_linear_no_overflow (snr_db : float64) :
  pow_overflows (float_div snr_db ten) = false ->
  exists lin, snr_linear snr_db = Ok lin.
Proof.
  intro H. unfold snr_linear, py_pow10. rewrite H.
  destruct (pow_vanishes (float_div snr_db ten)); eexists; reflexivity.
Qed.

(** C9, as the code has it: [add_noise] returns an array of the shape of
    the signal for every noise that can be mixed into it (a non-empty
    one-dimensional noise for a one-dimensional signal, a noise with the
    channels of the signal and at least its length for a multi-channel
    signal), whenever the power of ten of the ratio does not overflow;
    with a noise without any frame and a signal that has some, the number
    of repeats divides by zero; nothing in the loop over the noise files
    catches this, so that the loop stops at an empty noise file without
    touching the files after it (with [ZeroDivisionError] when the file has
    the rate of the sample, in the resampling otherwise), and
    [augment_sample] raises after its five fixed variants. *)
Theorem add_noise_total_unless_empty (w : World) (audio : ndarray)
        (s : State) :
  (forall noise snr_db,
      mixable audio noise ->
      pow_overflows (float_div snr_db ten) = false ->
      exists r cu,
        add_noise w audio noise snr_db s = (Ok r, mkState (trace s) cu)
        /\ shape r = shape audio
        /\ len r = len audio)
  /\ (0 < len audio ->
      forall noise snr_db,
        len noise = 0 ->
        add_noise w audio noise snr_db s = (Raise ZeroDivisionError, s))
  /\ (0 < len audio ->
      forall self sr noise_sr output_prefix base_name i f noise rest count,
        file_content w f = Some (noise, noise_sr) ->
        len noise = 0 ->
        exists e,
          for_each ((i, f) :: rest)
                   (noise_variant w self audio sr output_prefix base_name)
                   count s
          = (Raise e, mkState (trace s ++ [EvRead f true]) (cursor s))
          /\ (noise_sr = sr -> e = ZeroDivisionError))
  /\ (0 < len audio ->
      forall self audio_path background_files output_prefix sr,
        file_content w audio_path = Some (audio, sr) ->
        background_files <> [] ->
        (forall f, In f background_files ->
                   exists noise,
                     file_content w f = Some (noise, sr)
                     /\ len noise = 0) ->
        exists slow fast first d cu,
          time_stretch audio 0.9 = Ok slow
          /\ time_stretch audio 1.1 = Ok fast
          /\ In first background_files
          /\ augment_sample w self audio_path background_files
                            output_prefix s
             = (Raise ZeroDivisionError, mkState (trace s ++ d) cu)
          /\ read_attempts d = [audio_path; first]
          /\ write_attempts d
             = fixed_writes self audio slow fast sr output_prefix
                            (stem audio_path)).
Proof.
  split; [|split; [|split]].
  - intros noise snr_db Hmix Hover.
    destruct (snr_linear_no_overflow snr_db Hover) as [lin Hlin].
    destruct (runs_add_noise w audio noise snr_db lin s Hmix Hlin)
      as [aligned [cu [mixed [_ [_ [_ [Hshape Hrun]]]]]]].
    apply runs_trace_unchanged in Hrun.
    exists mixed, cu. split; [exact Hrun|].
    split; [exact Hshape|apply shape_len; exact Hshape].
  - intros Hne noise snr_db Hempty.
    pose proof (runs_add_noise_empty w audio noise snr_db s Hne Hempty)
      as Hrun.
    apply runs_trace_unchanged in Hrun. rewrite Hrun.
    destruct s; reflexivity.
  - intros Hne self sr noise_sr output_prefix base_name i f noise rest
           count Hfile Hempty.
    destruct (empty_noise_variant_raises_any_rate w self audio sr noise_sr
                output_prefix base_name i f noise rest count s Hne Hfile
                Hempty)
      as [e [Hrun He]].
    exists e. split; [exact (proj1 Hrun)|exact He].
  - intros Hne self audio_path background_files output_prefix sr Hfile
           Hbg Hempty.
    destruct (empty_noise_aborts_sample w self audio_path background_files
                output_prefix audio sr s Hfile Hne Hbg Hempty)
      as [slow [fast [first [d [cu [Hs [Hf [Hin [Hrun [Hr Hw]]]]]]]]]].
    exists slow, fast, first, d, cu.
    split; [exact Hs|]. split; [exact Hf|]. split; [exact Hin|].
    split; [exact (proj1 Hrun)|]. split; [exact Hr|exact Hw].
Qed.

Lemma one_sample_nonempty : [1%R] <> [].
Proof. discriminate. Qed.

Lemma add_noise_total_unless_empty_witness :
  let w := example_world empty_noise_content [example_sample]
                         [example_noise 0] in
  (exists r cu,
      add_noise w (Mono [1%R]) (Mono [2%R]) fifteen initial_state
      = (Ok r, mkState [] cu) /\ len r = 1)
  /\ add_noise w (Mono [1%R]) (Mono []) fifteen initial_state
     = (Raise ZeroDivisionError, initial_state)
  /\ (exists e,
         for_each [(0, example_noise 0); (1, example_noise 1)]
                  (noise_variant w example_augmenter (Mono [1%R]) 16000
                                 "aug" "hey")
                  5 initial_state
         = (Raise e, mkState [EvRead (example_noise 0) true] 0)
         /\ e = ZeroDivisionError)
  /\ fst (augment_sample w example_augmenter example_sample
                         [example_noise 0] "aug" initial_state)
     = Raise ZeroDivisionError.
Proof.
  intro w.
  destruct (add_noise_total_unless_empty w (Mono [1%R]) initial_state)
    as [Htotal [Hempty [Hloop Hsample]]].
  split; [|split; [|split]].
  - destruct (Htotal (Mono [2%R]) fifteen) as [r [cu [Hrun [_ Hlen]]]].
    + simpl. discriminate.
    + reflexivity.
    + exists r, cu. split; [exact Hrun|exact Hlen].
  - apply Hempty; [simpl; lia|reflexivity].
  - destruct (Hloop ltac:(simpl; lia) example_augmenter 16000%Z 16000%Z
                    "aug" "hey" 0 (example_noise 0) (Mono [])
                    [(1, example_noise 1)] 5 eq_refl eq_refl)
      as [e [Hrun He]].
    exists e. split; [exact Hrun|apply He; reflexivity].
  - destruct (Hsample ltac:(simpl; lia) example_augmenter example_sample
                      [example_noise 0] "aug" 16000%Z)
      as [slow [fast [first [d [cu [_ [_ [_ [Hrun _]]]]]]]]].
    + reflexivity.
    + discriminate.
    + intros f [<-|[]]. exists (Mono []). split; reflexivity.
    + rewrite Hrun. reflexivity.
Defined.

(** C9, as stated, fails: [add_noise] is not total on non-empty noise and
    non-empty signal.  A two-channel noise of three frames is tiled along
    its channels for a two-channel signal of four frames, and the addition
    of the shapes (4, 2) and (3, 4) raises [ValueError]; a two-channel
    noise of three frames and a one-channel signal of three samples have
    the shapes (3, 2) and (3,), and their addition raises [ValueError];
    and at 4000 dB the power of ten raises [OverflowError] whatever the
    arrays. *)
Lemma add_noise_not_total :
  let w := example_world one_sample_content [] [] in
  (let audio := Multi 2 [[1%R; 1%R]; [1%R; 1%R]; [1%R; 1%R]; [1%R; 1%R]] in
   let noise := Multi 2 [[1%R; 2%R]; [3%R; 4%R]; [5%R; 6%R]] in
   0 < len audio /\ 0 < len noise
   /\ add_noise w audio noise fifteen initial_state
      = (Raise ValueError, initial_state)
   /\ ~ (exists r, fst (add_noise w audio noise fifteen initial_state)
                   = Ok r))
  /\ (let audio := Mono [1%R; 1%R; 1%R] in
      let noise := Multi 2 [[1%R; 2%R]; [3%R; 4%R]; [5%R; 6%R]] in
      0 < len audio /\ 0 < len noise
      /\ add_noise w audio noise fifteen initial_state
         = (Raise ValueError, mkState [] 1)
      /\ ~ (exists r, fst (add_noise w audio noise fifteen initial_state)
                      = Ok r))
  /\ (0 < len (Mono [1%R]) /\ 0 < len (Mono [2%R])
      /\ add_noise w (Mono [1%R]) (Mono [2%R]) snr_4000 initial_state
         = (Raise OverflowError, mkState [] 1)
      /\ ~ (exists r,
              fst (add_noise w (Mono [1%R]) (Mono [2%R]) snr_4000
                             initial_state) = Ok r)).
Proof.
  intro w. split; [|split].
  - intros audio noise.
    assert (H : add_noise w audio noise fifteen initial_state
                = (Raise ValueError, initial_state)) by reflexivity.
    split; [simpl; lia|]. split; [simpl; lia|]. split; [exact H|].
    intros [r Hr]. rewrite H in Hr. discriminate Hr.
  - intros audio noise.
    assert (H : add_noise w audio noise fifteen initial_state
                = (Raise ValueError, mkState [] 1)) by reflexivity.
    split; [simpl; lia|]. split; [simpl; lia|]. split; [exact H|].
    intros [r Hr]. rewrite H in Hr. discriminate Hr.
  - assert (H : add_noise w (Mono [1%R]) (Mono [2%R]) snr_4000
                          initial_state
                = (Raise OverflowError, mkState [] 1)) by reflexivity.
    split; [simpl; lia|]. split; [simpl; lia|]. split; [exact H|].
    intros [r Hr]. rewrite H in Hr. discriminate Hr.
Qed.
(** ** The outputs of one sample *)

Lemma string_app_inv_head (a x y : string) :
  (a ++ x)%string = (a ++ y)%string -> x = y.
Proof.
  induction a as [|c a IH]; simpl; intro H; [exact H|].
  injection H as H. apply IH. exact H.
Qed.

Lemma variant_path_injective (self : AudioAugmenter)
      (output_prefix base_name t1 t2 : string) :
  variant_path self output_prefix base_name t1
  = variant_path self output_prefix base_name t2 ->
  t1 = t2.
Proof.
  unfold variant_path.
  destruct (split_last_separator output_prefix) as [[dir file_prefix]|];
    intro H; injection H as H;
    apply string_app_inv_head in H; simpl in H; injection H as H;
    apply string_app_inv_head in H; simpl in H; injection H as H;
    exact H.
Qed.

Lemma NoDup_map_injective {X Y : Type} (f : X -> Y) (l : list X) :
  (forall a b, f a = f b -> a = b) -> NoDup l -> NoDup (map f l).
Proof.
  intros Hinj H. induction H as [|x l Hx _ IH]; simpl; constructor.
  - intro Hin. apply in_map_iff in Hin. destruct Hin as [y [Hy Hin]].
    apply Hinj in Hy. subst y. contradiction.
  - exact IH.
Qed.

Lemma variant_tags_nodup (k : nat) : k <= 3 -> NoDup (variant_tags k).
Proof.
  intro Hk.
  destruct k as [|[|[|[|k]]]]; [| | | |lia];
    unfold variant_tags; simpl;
    repeat (constructor; [simpl; intuition discriminate|]);
    constructor.
Qed.

Lemma variant_tags_length (k : nat) : length (variant_tags k) = 5 + k.
Proof.
  unfold variant_tags. rewrite length_app, length_map, length_seq.
  reflexivity.
Qed.

Lemma enumerate_fst {X : Type} (start : nat) (xs : list X) :
  map fst (enumerate start xs) = seq start (length xs).
Proof.
  unfold enumerate. revert start.
  induction xs as [|x xs IH]; intro start; simpl; [reflexivity|].
  rewrite IH. reflexivity.
Qed.

Lemma filter_all {X : Type} (p : X -> bool) (l : list X) :
  (forall x, In x l -> p x = true) -> filter p l = l.
Proof.
  induction l as [|x l IH]; intro H; simpl; [reflexivity|].
  rewrite (H x (or_introl eq_refl)), IH; [reflexivity|].
  intros y Hy. apply H. right. exact Hy.
Qed.

Lemma noise_write_paths (w : World) (self : AudioAugmenter)
      (audio : ndarray) (sr : Z) (output_prefix base_name : string)
      (entries : list (nat * Path)) (ws : list (Path * ndarray * Z)) :
  Forall2 (noise_write w self audio sr output_prefix base_name)
          entries ws ->
  map (fun wr => fst (fst wr)) ws
  = map (fun i => variant_path self output_prefix base_name (noise_tag i))
        (map fst entries).
Proof.
  induction 1 as [|e wr entries ws Hw _ IH]; simpl; [reflexivity|].
  destruct Hw as [noise [nsr [noise' [aligned [mixed [_ [_ [_ [_ E]]]]]]]]].
  rewrite E, IH. reflexivity.
Qed.

Lemma fixed_writes_paths (self : AudioAugmenter) (audio slow fast : ndarray)
      (sr : Z) (output_prefix base_name : string) :
  map (fun wr => fst (fst wr))
      (fixed_writes self audio slow fast sr output_prefix base_name)
  = map (variant_path self output_prefix base_name) fixed_tags.
Proof. reflexivity. Qed.

Lemma written_names (w : World) (self : AudioAugmenter) (audio : ndarray)
      (sr : Z) (output_prefix base_name : string)
      (slow fast : ndarray) (chosen : list Path)
      (noise_writes : list (Path * ndarray * Z)) (t d : list event) :
  faithful w t d ->
  all_writes_succeed w ->
  (forall f, In f chosen -> loads w f = true) ->
  write_attempts d
  = fixed_writes self audio slow fast sr output_prefix base_name
    ++ noise_writes ->
  Forall2 (noise_write w self audio sr output_prefix base_name)
          (filter (fun e => loads w (snd e)) (enumerate 0 chosen))
          noise_writes ->
  written d
  = map (variant_path self output_prefix base_name)
        (variant_tags (length chosen)).
Proof.
  intros Hf Hall Hloads Hw Hn.
  rewrite (faithful_written w t d Hall Hf), Hw, map_app.
  rewrite fixed_writes_paths.
  rewrite filter_all in Hn.
  - rewrite (noise_write_paths _ _ _ _ _ _ _ _ Hn), enumerate_fst.
    unfold variant_tags. rewrite map_app, map_map. reflexivity.
  - intros e He. apply Hloads. eapply enumerate_in. exact He.
Qed.

(** C2, as the code has it: for a sample that loads, the unmodified copy,
    the volumes 0.7 and 1.3 and the stretch rates 0.9 and 1.1 are attempted
    first, in this order, and a count that [augment_sample] returns is
    always the number of files written.  Moreover, when every background
    file that loads gives, at the rate of the sample, a noise that can be
    mixed into the sample (not empty, with the channel layout of the
    sample, a multi-channel noise being at least as long as the sample),
    the job returns; after the five fixed variants it reads
    [min(3, number of background files)] chosen files and attempts for
    each one that loads the mix at 15 dB with its aligned noise; when in
    addition every load and every write succeeds the files written are the
    distinct variants named after these tags: 8 of them with three or more
    background files, 5 with none. *)
Theorem augment_sample_outputs (w : World) (self : AudioAugmenter)
        (audio_path : Path) (background_files : list Path)
        (output_prefix : string) (audio : ndarray) (sr : Z) (s : State) :
  file_content w audio_path = Some (audio, sr) ->
  (exists r d cu slow fast more,
      augment_sample w self audio_path background_files output_prefix s
      = (r, mkState (trace s ++ d) cu)
      /\ time_stretch audio 0.9 = Ok slow
      /\ time_stretch audio 1.1 = Ok fast
      /\ write_attempts d
         = fixed_writes self audio slow fast sr output_prefix
                        (stem audio_path)
           ++ more
      /\ forall count, r = Ok count -> count = length (written d))
  /\ ((forall f, In f background_files -> usable_noise w audio sr f) ->
      exists slow fast chosen noise_writes d cu,
        time_stretch audio 0.9 = Ok slow
        /\ time_stretch audio 1.1 = Ok fast
        /\ augment_sample w self audio_path background_files
                          output_prefix s
           = (Ok (length (written d)), mkState (trace s ++ d) cu)
        /\ length chosen = Nat.min 3 (length background_files)
        /\ incl chosen background_files
        /\ read_attempts d = audio_path :: chosen
        /\ write_attempts d
           = fixed_writes self audio slow fast sr output_prefix
                          (stem audio_path)
             ++ noise_writes
        /\ Forall2 (noise_write w self audio sr output_prefix
                                (stem audio_path))
                   (filter (fun e => loads w (snd e))
                           (enumerate 0 chosen))
                   noise_writes
        /\ ((forall f, In f background_files -> loads w f = true) ->
            all_writes_succeed w ->
            written d
            = map (variant_path self output_prefix (stem audio_path))
                  (variant_tags (Nat.min 3 (length background_files)))
            /\ NoDup (written d)
            /\ (3 <= length background_files -> length (written d) = 8)
            /\ (background_files = [] -> length (written d) = 5))).
Proof.
  intro Hfile. split.
  - destruct (augment_sample_fixed_first w self audio_path
                background_files output_prefix audio sr s Hfile)
      as [r [d [cu [slow [fast [more [Hrun Hrest]]]]]]].
    exists r, d, cu, slow, fast, more.
    split; [exact (proj1 Hrun)|exact Hrest].
  - intro Huse.
    destruct (augment_sample_runs w self audio_path background_files
                output_prefix audio sr s Hfile Huse)
      as [slow [fast [chosen [nw [d [cu [Hs [Hf [Hrun [Hlen [Hincl
         [Hr [Hw Hn]]]]]]]]]]]]].
    exists slow, fast, chosen, nw, d, cu.
    split; [exact Hs|]. split; [exact Hf|].
    split; [exact (proj1 Hrun)|]. split; [exact Hlen|].
    split; [exact Hincl|]. split; [exact Hr|]. split; [exact Hw|].
    split; [exact Hn|].
    intros Hloads Hall.
    assert (Hnames :
              written d
              = map (variant_path self output_prefix (stem audio_path))
                    (variant_tags (Nat.min 3 (length background_files)))).
    { rewrite <- Hlen.
      apply (written_names w self audio sr output_prefix (stem audio_path)
               slow fast chosen nw (trace s) d (proj2 Hrun) Hall);
        [|exact Hw|exact Hn].
      intros f Hin. apply Hloads, Hincl, Hin. }
    split; [exact Hnames|]. rewrite Hnames. split; [|split].
    + apply NoDup_map_injective.
      * intros a b. apply variant_path_injective.
      * apply variant_tags_nodup. lia.
    + intro H3. rewrite length_map, variant_tags_length. lia.
    + intro Hnil. rewrite length_map, variant_tags_length, Hnil.
      reflexivity.
Qed.

Lemma one_sample_usable (background_files : list Path) :
  forall f, In f background_files ->
            usable_noise (example_world one_sample_content [example_sample]
                                        background_files)
                         (Mono [1%R]) 16000 f.
Proof.
  intros f _ noise noise_sr Hfile. simpl in Hfile.
  unfold one_sample_content in Hfile. injection Hfile as <- <-.
  exists (Mono [1%R]). split; [reflexivity|simpl; discriminate].
Qed.

Lemma augment_sample_outputs_witness :
  (let w := example_world one_sample_content [example_sample]
                          example_library in
   exists d cu,
     augment_sample w example_augmenter example_sample example_library
                    "aug" initial_state
     = (Ok (length (written d)), mkState d cu)
     /\ length (written d) = 8)
  /\ (let w := example_world one_sample_content [example_sample] [] in
      exists d cu,
        augment_sample w example_augmenter example_sample [] "aug"
                       initial_state
        = (Ok (length (written d)), mkState d cu)
        /\ length (written d) = 5).
Proof.
  split; intro w.
  - destruct (augment_sample_outputs w example_augmenter example_sample
                example_library "aug" (Mono [1%R]) 16000%Z initial_state
                eq_refl)
      as [_ H].
    destruct (H (one_sample_usable example_library))
      as [slow [fast [chosen [nw [d [cu [_ [_ [Hrun [_ [_ [_ [_ [_ Hout
         ]]]]]]]]]]]]]].
    destruct Hout as [_ [_ [H8 _]]].
    + intros f _. reflexivity.
    + intros t p a r. reflexivity.
    + exists d, cu. split; [exact Hrun|]. apply H8. simpl. lia.
  - destruct (augment_sample_outputs w example_augmenter example_sample
                [] "aug" (Mono [1%R]) 16000%Z initial_state eq_refl)
      as [_ H].
    destruct (H (one_sample_usable []))
      as [slow [fast [chosen [nw [d [cu [_ [_ [Hrun [_ [_ [_ [_ [_ Hout
         ]]]]]]]]]]]]]].
    destruct Hout as [_ [_ [_ H5]]].
    + intros f _. reflexivity.
    + intros t p a r. reflexivity.
    + exists d, cu. split; [exact Hrun|]. apply H5. reflexivity.
Defined.

(** C2, as stated, fails when a background file holds a noise that cannot
    be mixed into the sample, although every load and every write succeeds
    and three background files are available.  With background files
    without any sample the first noise variant divides by zero; with a
    two-channel sample of three frames and one-channel noises of three
    samples the addition of the shapes (3, 2) and (3,) raises
    [ValueError]; with two-channel noises of two frames the noise is tiled
    along its channels and the addition of the shapes (3, 2) and (2, 4)
    raises [ValueError].  Each time the job raises after its five fixed
    variants instead of returning 8. *)
Lemma augment_sample_unfit_noise_counterexample :
  (let w := example_world empty_noise_content [example_sample]
                          example_library in
   let run := augment_sample w example_augmenter example_sample
                             example_library "aug" initial_state in
   all_reads_succeed w
   /\ all_writes_succeed w
   /\ 3 <= length example_library
   /\ file_content w example_sample = Some (Mono [1%R], 16000%Z)
   /\ fst run = Raise ZeroDivisionError
   /\ length (written (trace (snd run))) = 5
   /\ ~ (exists count, fst run = Ok count /\ count = 8))
  /\ (let w := example_world stereo_sample_content [example_sample]
                             example_library in
      let run := augment_sample w example_augmenter example_sample
                                example_library "aug" initial_state in
      all_reads_succeed w
      /\ all_writes_succeed w
      /\ 3 <= length example_library
      /\ file_content w example_sample
         = Some (Multi 2 [[1%R; 1%R]; [1%R; 1%R]; [1%R; 1%R]], 16000%Z)
      /\ file_content w (example_noise 0)
         = Some (Mono [1%R; 1%R; 1%R], 16000%Z)
      /\ fst run = Raise ValueError
      /\ length (written (trace (snd run))) = 5
      /\ ~ (exists count, fst run = Ok count /\ count = 8))
  /\ (let w := example_world short_noise_content [example_sample]
                             example_library in
      let run := augment_sample w example_augmenter example_sample
                                example_library "aug" initial_state in
      all_reads_succeed w
      /\ all_writes_succeed w
      /\ 3 <= length example_library
      /\ file_content w example_sample
         = Some (Multi 2 [[1%R; 1%R]; [1%R; 1%R]; [1%R; 1%R]], 16000%Z)
      /\ file_content w (example_noise 0)
         = Some (Multi 2 [[1%R; 2%R]; [3%R; 4%R]], 16000%Z)
      /\ fst run = Raise ValueError
      /\ length (written (trace (snd run))) = 5
      /\ ~ (exists count, fst run = Ok count /\ count = 8)).
Proof.
  split; [|split]; intros w run.
  - assert (Hrun : fst run = Raise ZeroDivisionError)
      by (vm_compute; reflexivity).
    split; [|split; [|split; [|split; [|split; [|split]]]]].
    + intros p. simpl. unfold empty_noise_content.
      destruct (String.eqb (parent p) "data/positive"); discriminate.
    + intros t p a r. reflexivity.
    + simpl. lia.
    + reflexivity.
    + exact Hrun.
    + vm_compute. reflexivity.
    + intros [count [Hc _]]. rewrite Hrun in Hc. discriminate Hc.
  - assert (Hrun : fst run = Raise ValueError)
      by (vm_compute; reflexivity).
    split; [|split; [|split; [|split; [|split; [|split; [|split]]]]]].
    + intros p. simpl. unfold stereo_sample_content.
      destruct (String.eqb (parent p) "data/positive"); discriminate.
    + intros t p a r. reflexivity.
    + simpl. lia.
    + reflexivity.
    + reflexivity.
    + exact Hrun.
    + vm_compute. reflexivity.
    + intros [count [Hc _]]. rewrite Hrun in Hc. discriminate Hc.
  - assert (Hrun : fst run = Raise ValueError)
      by (vm_compute; reflexivity).
    split; [|split; [|split; [|split; [|split; [|split; [|split]]]]]].
    + intros p. simpl. unfold short_noise_content.
      destruct (String.eqb (parent p) "data/positive"); discriminate.
    + intros t p a r. reflexivity.
    + simpl. lia.
    + reflexivity.
    + reflexivity.
    + exact Hrun.
    + vm_compute. reflexivity.
    + intros [count [Hc _]]. rewrite Hrun in Hc. discriminate Hc.
Qed.
(** ** The run over all positive samples *)

Lemma augment_sample_returns (w : World) (self : AudioAugmenter)
      (audio_path : Path) (background_files : list Path)
      (output_prefix : string) (s : State) :
  (forall audio sr,
      file_content w audio_path = Some (audio, sr) ->
      forall f, In f background_files -> usable_noise w audio sr f) ->
  exists d cu,
    runs w (augment_sample w self audio_path background_files
                           output_prefix)
         s (Ok (length (written d))) d cu
    /\ In audio_path (read_attempts d).
Proof.
  intro Hfit.
  destruct (file_content w audio_path) as [[audio sr]|] eqn:Hfile.
  - destruct (augment_sample_runs w self audio_path background_files
                output_prefix audio sr s Hfile (Hfit audio sr eq_refl))
      as [slow [fast [chosen [nw [d [cu [_ [_ [Hrun [_ [_ [Hr _]]]]]]]]]]]].
    exists d, cu. split; [exact Hrun|]. rewrite Hr. left. reflexivity.
  - pose proof (runs_load_audio w audio_path s) as Hload.
    rewrite Hfile in Hload.
    exists ([EvRead audio_path false;
             EvError (MsgLoadFailed audio_path SoundFileError)] ++ []),
      (cursor s).
    split; [|left; reflexivity].
    unfold augment_sample. eapply runs_bind; [exact Hload|].
    apply (runs_ret w 0
             (mkState (trace s ++ [EvRead audio_path false;
                                   EvError (MsgLoadFailed audio_path
                                              SoundFileError)])
                      (cursor s))).
Qed.

Lemma runs_augment_one (w : World) (self : AudioAugmenter)
      (background_files : list Path) (n : nat) (entry : nat * Path)
      (total : nat) (s : State) :
  (forall audio sr,
      file_content w (snd entry) = Some (audio, sr) ->
      forall f, In f background_files -> usable_noise w audio sr f) ->
  exists d cu total',
    runs w (augment_one w self background_files n entry total) s
         (Ok total') d cu
    /\ total' = total + length (written d)
    /\ In (snd entry) (read_attempts d).
Proof.
  destruct entry as [i f]. simpl snd. intro Hfit.
  destruct (augment_sample_returns w self f background_files "aug"
              (mkState (trace s ++ [EvInfo (MsgAugmenting i n (name f))])
                       (cursor s)) Hfit)
    as [d [cu [Hrun Hin]]].
  exists ([EvInfo (MsgAugmenting i n (name f))]
          ++ d ++ [EvInfo (MsgCreated (length (written d)))]), cu.
  eexists. split; [|split].
  - unfold augment_one.
    eapply runs_bind; [apply runs_emit_info|].
    eapply runs_bind; [exact Hrun|].
    apply (runs_then_ret w _ (fun _ => total + length (written d)) _ tt).
    apply runs_emit_info.
  - simpl. rewrite written_app, length_app. simpl. lia.
  - simpl. rewrite read_attempts_app. apply in_or_app. left. exact Hin.
Qed.

Lemma runs_augment_loop (w : World) (self : AudioAugmenter)
      (background_files : list Path) (n : nat)
      (entries : list (nat * Path)) (total : nat) (s : State) :
  (forall e audio sr,
      In e entries ->
      file_content w (snd e) = Some (audio, sr) ->
      forall f, In f background_files -> usable_noise w audio sr f) ->
  exists d cu total',
    runs w (for_each entries (augment_one w self background_files n) total)
         s (Ok total') d cu
    /\ total' = total + length (written d)
    /\ incl (map snd entries) (read_attempts d).
Proof.
  revert total s. induction entries as [|e entries IH]; intros total s Hfit.
  - exists [], (cursor s), total. split; [apply runs_ret|].
    split; [simpl; lia|]. intros x [].
  - destruct (runs_augment_one w self background_files n e total s)
      as [d1 [c1 [t1 [H1 [Ht1 Hin1]]]]].
    { intros audio sr. apply Hfit. left. reflexivity. }
    destruct (IH t1 (mkState (trace s ++ d1) c1))
      as [d2 [c2 [t2 [H2 [Ht2 Hin2]]]]].
    { intros e' audio sr He'. apply Hfit. right. exact He'. }
    exists (d1 ++ d2), c2, t2. split; [|split].
    + simpl for_each. eapply runs_bind; [exact H1|exact H2].
    + rewrite written_app, length_app. lia.
    + rewrite read_attempts_app. simpl map. apply incl_cons.
      * apply in_or_app. left. exact Hin1.
      * apply incl_appr. exact Hin2.
Qed.

Lemma runs_augment_all (w : World) (self : AudioAugmenter) (s : State) :
  samples_fit w (glob_wav w (positive_dir self))
              (rglob_wav w (background_dir self)) ->
  exists d cu,
    runs w (augment_all w self) s (Ok tt) d cu
    /\ incl (glob_wav w (positive_dir self)) (read_attempts d)
    /\ (glob_wav w (positive_dir self) <> [] ->
        In (EvInfo (MsgAugmentedSamples (length (written d)))) d).
Proof.
  intro Hfit. unfold augment_all.
  set (positive_files := glob_wav w (positive_dir self)) in *.
  set (background_files := rglob_wav w (background_dir self)) in *.
  set (head := [EvInfo MsgRule; EvInfo MsgTitle; EvInfo MsgRule;
                EvInfo (MsgFoundPositive (length positive_files));
                EvInfo (MsgFoundBackground (length background_files))]).
  assert (Hhead : forall (k : M unit) r d cu,
             runs w k (mkState (trace s ++ head) (cursor s)) r d cu ->
             runs w
               (bind (logger_info MsgRule) (fun _ =>
                bind (logger_info MsgTitle) (fun _ =>
                bind (logger_info MsgRule) (fun _ =>
                bind (logger_info
                        (MsgFoundPositive (length positive_files)))
                     (fun _ =>
                bind (logger_info
                        (MsgFoundBackground (length background_files)))
                     (fun _ => k))))))
               s r (head ++ d) cu).
  { intros k r d cu Hk. unfold head.
    change ([EvInfo MsgRule; EvInfo MsgTitle; EvInfo MsgRule;
             EvInfo (MsgFoundPositive (length positive_files));
             EvInfo (MsgFoundBackground (length background_files))] ++ d)
      with ([EvInfo MsgRule] ++ [EvInfo MsgTitle] ++ [EvInfo MsgRule]
            ++ [EvInfo (MsgFoundPositive (length positive_files))]
            ++ [EvInfo (MsgFoundBackground (length background_files))]
            ++ d).
    eapply runs_bind; [apply runs_emit_info|].
    eapply runs_bind; [apply runs_emit_info|].
    eapply runs_bind; [apply runs_emit_info|].
    eapply runs_bind; [apply runs_emit_info|].
    eapply runs_bind; [apply runs_emit_info|].
    simpl. unfold head in Hk. simpl in Hk.
    rewrite <- !app_assoc. simpl. exact Hk. }
  destruct positive_files as [|p ps] eqn:Epos.
  - exists (head ++ [EvError MsgNoPositive]), (cursor s).
    split; [|split].
    + apply Hhead.
      apply (runs_then_ret w _ (fun _ => tt) _ tt).
      apply (runs_emit_error w MsgNoPositive
               (mkState (trace s ++ head) (cursor s))).
    + intros x [].
    + intro H. congruence.
  - rewrite <- Epos in *.
    destruct (runs_augment_loop w self background_files
                (length positive_files) (enumerate 1 positive_files) 0
                (mkState (trace s ++ head) (cursor s)))
      as [d [cu [total [Hloop [Htotal Hin]]]]].
    { intros e audio sr He. apply (Hfit (snd e) audio sr).
      eapply enumerate_in. exact He. }
    rewrite enumerate_snd in Hin. simpl in Htotal. subst total.
    set (tail := [EvInfo MsgRule; EvInfo MsgComplete;
                  EvInfo (MsgOriginalSamples (length positive_files));
                  EvInfo (MsgAugmentedSamples (length (written d)));
                  EvInfo (MsgTotalSize (length positive_files
                                        + length (written d)));
                  EvInfo MsgRule]).
    assert (Hw : written (head ++ d ++ tail) = written d).
    { rewrite !written_app. simpl. apply app_nil_r. }
    exists (head ++ d ++ tail), cu. split; [|split].
    + apply Hhead. eapply runs_bind; [exact Hloop|].
      unfold tail.
      change ([EvInfo MsgRule; EvInfo MsgComplete;
               EvInfo (MsgOriginalSamples (length positive_files));
               EvInfo (MsgAugmentedSamples (length (written d)));
               EvInfo (MsgTotalSize (length positive_files
                                     + length (written d)));
               EvInfo MsgRule])
        with ([EvInfo MsgRule] ++ [EvInfo MsgComplete]
              ++ [EvInfo (MsgOriginalSamples (length positive_files))]
              ++ [EvInfo (MsgAugmentedSamples (length (written d)))]
              ++ [EvInfo (MsgTotalSize (length positive_files
                                        + length (written d)))]
              ++ [EvInfo MsgRule]).
      eapply runs_bind; [apply runs_emit_info|].
      eapply runs_bind; [apply runs_emit_info|].
      eapply runs_bind; [apply runs_emit_info|].
      eapply runs_bind; [apply runs_emit_info|].
      eapply runs_bind; [apply runs_emit_info|].
      apply runs_emit_info.
    + rewrite !read_attempts_app. apply incl_appr, incl_appl. exact Hin.
    + intros _. rewrite Hw. apply in_or_app. right.
      apply in_or_app. right. unfold tail. simpl. auto.
Qed.

(** C4: a read or a write that fails is caught where it happens, reported,
    and counts for nothing.  [load_audio] and [save_audio] never raise; a
    positive sample that does not load makes [augment_sample] return 0
    without any write; for a sample that loads, the five fixed writes are
    all attempted whichever of them fail, and a count returned is the
    number of writes that went through; a noise file that does not load is
    skipped and the loop goes on with the next one; a positive sample that
    does not load is skipped and the run goes on with the next one.  When
    no other kind of failure occurs (the noises that reach the mixer can
    be mixed into the sample), one write per chosen noise file that loads
    is attempted as well, and [augment_all] reads every positive sample and ends
    normally, reporting the number of files written in the whole run. *)
Theorem failures_are_skipped (w : World) (self : AudioAugmenter)
        (s : State) :
  (forall p,
      exists r d,
        load_audio w p s = (Ok r, mkState (trace s ++ d) (cursor s))
        /\ (file_content w p = None ->
            r = None /\ errors d = [MsgLoadFailed p SoundFileError]))
  /\ (forall audio sr p,
         exists ok d,
           save_audio w audio sr p s
           = (Ok ok, mkState (trace s ++ d) (cursor s))
           /\ ok = write_succeeds w (trace s) p audio sr
           /\ (ok = false ->
               written d = []
               /\ errors d = [MsgSaveFailed p SoundFileError]))
  /\ (forall audio_path background_files output_prefix,
         file_content w audio_path = None ->
         augment_sample w self audio_path background_files output_prefix s
         = (Ok 0,
            mkState (trace s
                     ++ [EvRead audio_path false;
                         EvError (MsgLoadFailed audio_path
                                                SoundFileError)])
                    (cursor s)))
  /\ (forall audio_path background_files output_prefix audio sr,
         file_content w audio_path = Some (audio, sr) ->
         exists r d cu slow fast more,
           augment_sample w self audio_path background_files
                          output_prefix s
           = (r, mkState (trace s ++ d) cu)
           /\ time_stretch audio 0.9 = Ok slow
           /\ time_stretch audio 1.1 = Ok fast
           /\ write_attempts d
              = fixed_writes self audio slow fast sr output_prefix
                             (stem audio_path)
                ++ more
           /\ forall count, r = Ok count -> count = length (written d))
  /\ (forall audio sr output_prefix base_name i f rest count,
         file_content w f = None ->
         for_each ((i, f) :: rest)
                  (noise_variant w self audio sr output_prefix base_name)
                  count s
         = for_each rest
                    (noise_variant w self audio sr output_prefix base_name)
                    count
                    (mkState (trace s
                              ++ [EvRead f false;
                                  EvError (MsgLoadFailed f SoundFileError)])
                             (cursor s)))
  /\ (forall background_files n i f rest total,
         file_content w f = None ->
         for_each ((i, f) :: rest) (augment_one w self background_files n)
                  total s
         = for_each rest (augment_one w self background_files n) total
                    (mkState (trace s
                              ++ [EvInfo (MsgAugmenting i n (name f));
                                  EvRead f false;
                                  EvError (MsgLoadFailed f SoundFileError);
                                  EvInfo (MsgCreated 0)])
                             (cursor s)))
  /\ (forall audio_path background_files output_prefix audio sr,
         file_content w audio_path = Some (audio, sr) ->
         (forall f, In f background_files -> usable_noise w audio sr f) ->
         exists slow fast chosen noise_writes d cu,
           time_stretch audio 0.9 = Ok slow
           /\ time_stretch audio 1.1 = Ok fast
           /\ augment_sample w self audio_path background_files
                             output_prefix s
              = (Ok (length (written d)), mkState (trace s ++ d) cu)
           /\ length chosen = Nat.min 3 (length background_files)
           /\ read_attempts d = audio_path :: chosen
           /\ write_attempts d
              = fixed_writes self audio slow fast sr output_prefix
                             (stem audio_path)
                ++ noise_writes
           /\ Forall2 (noise_write w self audio sr output_prefix
                                   (stem audio_path))
                      (filter (fun e => loads w (snd e))
                              (enumerate 0 chosen))
                      noise_writes)
  /\ (samples_fit w (glob_wav w (positive_dir self))
                  (rglob_wav w (background_dir self)) ->
      exists d cu,
        augment_all w self s = (Ok tt, mkState (trace s ++ d) cu)
        /\ incl (glob_wav w (positive_dir self)) (read_attempts d)
        /\ (glob_wav w (positive_dir self) <> [] ->
            In (EvInfo (MsgAugmentedSamples (length (written d)))) d)).
Proof.
  split; [|split; [|split; [|split; [|split; [|split; [|split]]]]]].
  - intro p. pose proof (runs_load_audio w p s) as Hload.
    destruct (file_content w p) as [r|].
    + exists (Some r), [EvRead p true]. split; [exact (proj1 Hload)|].
      intro H. discriminate H.
    + exists None, [EvRead p false; EvError (MsgLoadFailed p SoundFileError)].
      split; [exact (proj1 Hload)|]. intros _. split; reflexivity.
  - intros audio sr p.
    pose proof (runs_save_audio w audio sr p s) as Hsave. simpl in Hsave.
    eexists. eexists. split; [exact (proj1 Hsave)|].
    split; [reflexivity|]. intro Hok. rewrite Hok. split; reflexivity.
  - intros audio_path background_files output_prefix Hfile.
    pose proof (runs_load_audio w audio_path s) as Hload.
    rewrite Hfile in Hload. unfold augment_sample, bind.
    rewrite (proj1 Hload). reflexivity.
  - intros audio_path background_files output_prefix audio sr Hfile.
    destruct (augment_sample_fixed_first w self audio_path
                background_files output_prefix audio sr s Hfile)
      as [r [d [cu [slow [fast [more [Hrun Hrest]]]]]]].
    exists r, d, cu, slow, fast, more.
    split; [exact (proj1 Hrun)|exact Hrest].
  - intros audio sr output_prefix base_name i f rest count Hfile.
    apply unreadable_noise_skipped. exact Hfile.
  - intros background_files n i f rest total Hfile.
    apply unreadable_sample_skipped. exact Hfile.
  - intros audio_path background_files output_prefix audio sr Hfile Huse.
    destruct (augment_sample_runs w self audio_path background_files
                output_prefix audio sr s Hfile Huse)
      as [slow [fast [chosen [nw [d [cu [Hs [Hf [Hrun [Hlen [_
         [Hr [Hw Hn]]]]]]]]]]]]].
    exists slow, fast, chosen, nw, d, cu.
    split; [exact Hs|]. split; [exact Hf|].
    split; [exact (proj1 Hrun)|]. split; [exact Hlen|].
    split; [exact Hr|]. split; [exact Hw|exact Hn].
  - intro Hfit.
    destruct (runs_augment_all w self s Hfit) as [d [cu [Hrun [Hin Hrep]]]].
    exists d, cu. split; [exact (proj1 Hrun)|].
    split; [exact Hin|exact Hrep].
Qed.

Lemma failing_world_fit :
  samples_fit failing_world [unreadable_sample; example_sample]
              [example_noise 0].
Proof.
  intros p audio sr _ _ f [<-|[]] noise noise_sr Hfile.
  discriminate Hfile.
Qed.

Lemma failures_are_skipped_witness :
  augment_sample failing_world example_augmenter unreadable_sample
                 [example_noise 0] "aug" initial_state
  = (Ok 0,
     mkState [EvRead unreadable_sample false;
              EvError (MsgLoadFailed unreadable_sample SoundFileError)] 0)
  /\ (exists d cu,
         augment_sample failing_world example_augmenter example_sample
                        [example_noise 0] "aug" initial_state
         = (Ok (length (written d)), mkState d cu)
         /\ 5 <= length (write_attempts d))
  /\ (exists d cu,
         augment_all failing_world example_augmenter initial_state
         = (Ok tt, mkState d cu)
         /\ In example_sample (read_attempts d))
  /\ for_each [(0, example_noise 0)]
              (noise_variant failing_world example_augmenter (Mono [1%R])
                             16000
                             "aug" "hey")
              4 initial_state
     = (Ok 4,
        mkState [EvRead (example_noise 0) false;
                 EvError (MsgLoadFailed (example_noise 0) SoundFileError)]
                0)
  /\ fst (for_each [(1, unreadable_sample); (2, example_sample)]
                   (augment_one failing_world example_augmenter
                                [example_noise 0] 2)
                   0 initial_state)
     = Ok 4.
Proof.
  destruct (failures_are_skipped failing_world example_augmenter
              initial_state)
    as [_ [_ [Hnone [_ [Hnoise [Hbatch [Hsome Hall]]]]]]].
  split; [|split; [|split; [|split]]].
  - apply Hnone. reflexivity.
  - destruct (Hsome example_sample [example_noise 0] "aug" (Mono [1%R])
                     16000%Z)
      as [slow [fast [chosen [nw [d [cu [_ [_ [Hrun [Hlen [Hr [Hw Hn
         ]]]]]]]]]]]].
    + reflexivity.
    + intros f [<-|[]] noise noise_sr Hfile. discriminate Hfile.
    + exists d, cu. split; [exact Hrun|].
      rewrite Hw, length_app. simpl. lia.
  - destruct (Hall failing_world_fit) as [d [cu [Hrun [Hin _]]]].
    exists d, cu. split; [exact Hrun|]. apply Hin. right. left. reflexivity.
  - rewrite (Hnoise (Mono [1%R]) 16000%Z "aug" "hey" 0 (example_noise 0) [] 4
                    eq_refl).
    reflexivity.
  - rewrite (Hbatch [example_noise 0] 2 1 unreadable_sample
                    [(2, example_sample)] 0 eq_refl).
    vm_compute. reflexivity.
Defined.

(** C8: with no positive sample, [augment_all] reports the condition as an
    error message and returns normally, without reading or writing any
    audio file. *)
Theorem augment_all_without_samples (w : World) (self : AudioAugmenter)
        (s : State) :
  glob_wav w (positive_dir self) = [] ->
  exists d,
    augment_all w self s = (Ok tt, mkState (trace s ++ d) (cursor s))
    /\ d = [EvInfo MsgRule; EvInfo MsgTitle; EvInfo MsgRule;
            EvInfo (MsgFoundPositive 0);
            EvInfo (MsgFoundBackground
                      (length (rglob_wav w (background_dir self))));
            EvError MsgNoPositive]
    /\ errors d = [MsgNoPositive]
    /\ write_attempts d = []
    /\ written d = []
    /\ read_attempts d = [].
Proof.
  intro Hnone. eexists. split; [|split; [reflexivity|]].
  - unfold augment_all. rewrite Hnone.
    unfold bind, logger_info, logger_error, emit, ret. simpl.
    rewrite <- !app_assoc. reflexivity.
  - repeat split; reflexivity.
Qed.

Lemma augment_all_without_samples_witness :
  exists d,
    augment_all (example_world one_sample_content [] example_library)
                example_augmenter initial_state
    = (Ok tt, mkState d 0)
    /\ written d = [] /\ errors d = [MsgNoPositive].
Proof.
  destruct (augment_all_without_samples
              (example_world one_sample_content [] example_library)
              example_augmenter initial_state eq_refl)
    as [d [Hrun [_ [He [_ [Hw _]]]]]].
  exists d. split; [exact Hrun|]. split; [exact Hw|exact He].
Defined.

(** * Further properties of the transforms *)
(** ** Time stretch: length and samples *)

Lemma np_take_samples {A : Type} (audio : list A) (indices : list Z) :
  Forall (fun i => (0 <= i < Z.of_nat (length audio))%Z) indices ->
  exists r,
    np_take audio indices = Ok r
    /\ length r = length indices
    /\ forall k z, nth_error indices k = Some z ->
                   nth_error r k = nth_error audio (Z.to_nat z).
Proof.
  induction 1 as [|i rest Hi _ IH]; simpl.
  - exists []. split; [reflexivity|]. split; [reflexivity|].
    intros [|k] z H; discriminate H.
  - destruct IH as [r [Hr [Hlen Hnth]]]. unfold np_item.
    destruct (Z.ltb_spec i 0) as [Hneg|_]; [lia|].
    destruct (Z.ltb_spec i 0) as [Hneg|_]; [lia|].
    destruct (nth_error audio (Z.to_nat i)) as [v|] eqn:E.
    + simpl. rewrite Hr. simpl. exists (v :: r).
      split; [reflexivity|]. split; [simpl; rewrite Hlen; reflexivity|].
      intros [|k] z H; simpl in *.
      * injection H as <-. symmetry. exact E.
      * apply Hnth. exact H.
    + apply nth_error_None in E. lia.
Qed.

Lemma grid_position_below (n : nat) (rate : Q) (i : nat) :
  (0 < rate)%Q ->
  i < Z.to_nat (Qceiling (inject_Z (Z.of_nat n) / rate)) ->
  (inject_Z (Z.of_nat i) * rate < inject_Z (Z.of_nat n))%Q.
Proof.
  intros Hrate Hi.
  set (q := (inject_Z (Z.of_nat n) / rate)%Q) in *.
  assert (Hle : (inject_Z (Z.of_nat i) <= inject_Z (Qceiling q - 1))%Q)
    by (rewrite <- Zle_Qle; lia).
  assert (Hlt : (inject_Z (Z.of_nat i) < q)%Q)
    by (eapply Qle_lt_trans; [exact Hle|apply Qceiling_lt]).
  apply (Qmult_lt_compat_r _ _ rate Hrate) in Hlt.
  assert (E : (q * rate == inject_Z (Z.of_nat n))%Q).
  { unfold q. field. intro H0. rewrite H0 in Hrate.
    exact (Qlt_irrefl 0 Hrate). }
  rewrite E in Hlt. exact Hlt.
Qed.

Lemma grid_all_below (n : nat) (rate : Q) (m : nat) :
  (0 < rate)%Q ->
  m <= Z.to_nat (Qceiling (inject_Z (Z.of_nat n) / rate)) ->
  filter (fun x => Qlt_bool x (inject_Z (Z.of_nat n)))
         (map (fun i => (inject_Z (Z.of_nat i) * rate)%Q) (seq 0 m))
  = map (fun i => (inject_Z (Z.of_nat i) * rate)%Q) (seq 0 m).
Proof.
  intros Hrate Hm. apply filter_all. intros x Hx.
  apply in_map_iff in Hx. destruct Hx as [i [<- Hi]].
  apply in_seq in Hi.
  unfold Qlt_bool. apply negb_true_iff.
  destruct (Qle_bool (inject_Z (Z.of_nat n))
                     (inject_Z (Z.of_nat i) * rate)) eqn:E; [|reflexivity].
  apply Qle_bool_iff in E.
  pose proof (grid_position_below n rate i Hrate ltac:(lia)) as Hlt.
  exfalso. exact (Qlt_not_le _ _ Hlt E).
Qed.

Lemma stretch_grid {A : Type} (audio : list A) (rate : Q) :
  (0 < rate)%Q ->
  exists r,
    stretch audio rate = Ok r
    /\ length r
       = Z.to_nat (Qceiling (inject_Z (Z.of_nat (length audio)) / rate))
    /\ forall i, i < length r ->
                 nth_error r i
                 = nth_error audio
                     (Z.to_nat (Qfloor (inject_Z (Z.of_nat i) * rate))).
Proof.
  intro Hrate. unfold stretch, np_arange.
  destruct (Qeq_bool rate 0) eqn:E.
  { apply Qeq_bool_iff in E. rewrite E in Hrate.
    exfalso. exact (Qlt_irrefl 0 Hrate). }
  simpl rbind.
  set (m := Z.to_nat (Qceiling (inject_Z (Z.of_nat (length audio)) / rate))).
  rewrite (grid_all_below (length audio) rate m Hrate (Nat.le_refl _)).
  rewrite map_map.
  destruct (np_take_samples audio
              (map (fun i => astype_int (inject_Z (Z.of_nat i) * rate))
                   (seq 0 m)))
    as [r [Hr [Hlen Hnth]]].
  { apply Forall_forall. intros z Hz.
    apply in_map_iff in Hz. destruct Hz as [i [<- Hi]].
    apply in_seq in Hi.
    apply stretched_index_in_range; [exact Hrate|].
    unfold Qlt_bool. apply negb_true_iff.
    destruct (Qle_bool (inject_Z (Z.of_nat (length audio)))
                       (inject_Z (Z.of_nat i) * rate)) eqn:E'; [|reflexivity].
    apply Qle_bool_iff in E'.
    pose proof (grid_position_below (length audio) rate i Hrate
                                    ltac:(fold m; lia)) as Hlt.
    exfalso. exact (Qlt_not_le _ _ Hlt E'). }
  rewrite length_map, length_seq in Hlen.
  exists r. split; [exact Hr|]. split; [exact Hlen|].
  intros i Hi. rewrite Hlen in Hi.
  rewrite (Hnth i (astype_int (inject_Z (Z.of_nat i) * rate))).
  - unfold astype_int.
    assert (Hb : Qle_bool 0 (inject_Z (Z.of_nat i) * rate) = true).
    { apply Qle_bool_iff. apply Qmult_le_0_compat.
      - change 0%Q with (inject_Z 0). rewrite <- Zle_Qle. lia.
      - apply Qlt_le_weak. exact Hrate. }
    rewrite Hb. reflexivity.
  - rewrite nth_error_map, nth_error_seq.
    destruct (Nat.ltb_spec i m) as [_|Hge]; [reflexivity|lia].
Qed.

Lemma Qmult_le_l_nonneg (z x y : Q) :
  (0 <= z)%Q -> (x <= y)%Q -> (z * x <= z * y)%Q.
Proof.
  intros Hz Hxy. rewrite (Qmult_comm z x), (Qmult_comm z y).
  apply Qmult_le_compat_r; assumption.
Qed.

Lemma inject_nat_nonneg (n : nat) : (0 <= inject_Z (Z.of_nat n))%Q.
Proof. change 0%Q with (inject_Z 0). rewrite <- Zle_Qle. lia. Qed.

Lemma stretch_length_bounds {A : Type} (audio : list A) (rate : Q) :
  (0 < rate)%Q ->
  exists r,
    stretch audio rate = Ok r
    /\ ((1 <= rate)%Q -> length r <= length audio)
    /\ ((rate <= 1)%Q -> length audio <= length r).
Proof.
  intro Hrate.
  destruct (stretch_grid audio rate Hrate) as [r [Hr [Hlen _]]].
  exists r. split; [exact Hr|]. rewrite Hlen.
  pose proof (inject_nat_nonneg (length audio)) as Hn.
  split; intro H.
  - assert (Hq : (inject_Z (Z.of_nat (length audio)) / rate
                  <= inject_Z (Z.of_nat (length audio)))%Q).
    { apply Qle_shift_div_r; [exact Hrate|].
      rewrite <- (Qmult_1_r (inject_Z (Z.of_nat (length audio)))) at 1.
      apply Qmult_le_l_nonneg; assumption. }
    apply Qceiling_resp_le in Hq. rewrite Qceiling_Z in Hq. lia.
  - assert (Hq : (inject_Z (Z.of_nat (length audio))
                  <= inject_Z (Z.of_nat (length audio)) / rate)%Q).
    { apply Qle_shift_div_l; [exact Hrate|].
      rewrite <- (Qmult_1_r (inject_Z (Z.of_nat (length audio)))) at 2.
      apply Qmult_le_l_nonneg; assumption. }
    apply Qceiling_resp_le in Hq. rewrite Qceiling_Z in Hq. lia.
Qed.

(** Speeding up (a rate of 1 or more) never gives more samples than the
    input has, slowing down (a positive rate of 1 or less) never gives
    fewer; this holds of the frames of an array of any layout, whose
    channels are kept. *)
Theorem time_stretch_length_bounds (audio : ndarray) (rate : Q) :
  (0 < rate)%Q ->
  exists r,
    time_stretch audio rate = Ok r
    /\ ((1 <= rate)%Q -> len r <= len audio)
    /\ ((rate <= 1)%Q -> len audio <= len r)
    /\ (forall samples, audio = Mono samples ->
                        exists stretched,
                          r = Mono stretched
                          /\ ((1 <= rate)%Q ->
                              length stretched <= length samples)
                          /\ ((rate <= 1)%Q ->
                              length samples <= length stretched))
    /\ (forall channels frames,
           audio = Multi channels frames ->
           exists stretched, r = Multi channels stretched).
Proof.
  intro Hrate. destruct audio as [samples|channels frames]; simpl.
  - destruct (stretch_length_bounds samples rate Hrate)
      as [r [Hr [Hfast Hslow]]].
    rewrite Hr. exists (Mono r). split; [reflexivity|].
    split; [exact Hfast|]. split; [exact Hslow|]. split.
    + intros samples' E. injection E as <-. exists r.
      split; [reflexivity|]. split; [exact Hfast|exact Hslow].
    + intros c f E. discriminate E.
  - destruct (stretch_length_bounds frames rate Hrate)
      as [r [Hr [Hfast Hslow]]].
    rewrite Hr. exists (Multi channels r). split; [reflexivity|].
    split; [exact Hfast|]. split; [exact Hslow|]. split.
    + intros samples E. discriminate E.
    + intros c f E. injection E as <- <-. exists r. reflexivity.
Qed.

Lemma time_stretch_length_bounds_witness :
  (exists r, time_stretch (Mono [10; 20; 30; 40; 50]%R) 1.1%Q = Ok r
             /\ len r <= 5)
  /\ (exists r, time_stretch (Mono [10; 20; 30; 40; 50]%R) 0.9%Q = Ok r
                /\ 5 <= len r).
Proof.
  split.
  - destruct (time_stretch_length_bounds (Mono [10; 20; 30; 40; 50]%R)
                                         1.1%Q eq_refl)
      as [r [Hr [Hfast _]]].
    exists r. split; [exact Hr|]. apply Hfast. discriminate.
  - destruct (time_stretch_length_bounds (Mono [10; 20; 30; 40; 50]%R)
                                         0.9%Q eq_refl)
      as [r [Hr [_ [Hslow _]]]].
    exists r. split; [exact Hr|]. apply Hslow. discriminate.
Defined.

Lemma stretch_negative_rate {A : Type} (audio : list A) (rate : Q) :
  (rate < 0)%Q -> stretch audio rate = Ok [].
Proof.
  intro Hrate. unfold stretch, np_arange.
  destruct (Qeq_bool rate 0) eqn:E.
  { apply Qeq_bool_iff in E. rewrite E in Hrate.
    exfalso. exact (Qlt_irrefl 0 Hrate). }
  simpl rbind.
  assert (Hq : (inject_Z (Z.of_nat (length audio)) / rate <= 0)%Q).
  { assert (Hneg : (0 < - rate)%Q).
    { apply Qopp_lt_compat in Hrate. exact Hrate. }
    assert (Hpos : (0 <= inject_Z (Z.of_nat (length audio)) / - rate)%Q).
    { apply Qle_shift_div_l; [exact Hneg|].
      rewrite Qmult_0_l. apply inject_nat_nonneg. }
    assert (Eq : (inject_Z (Z.of_nat (length audio)) / rate
                  == - (inject_Z (Z.of_nat (length audio)) / - rate))%Q).
    { field. intro H0. rewrite H0 in Hrate. exact (Qlt_irrefl 0 Hrate). }
    rewrite Eq. apply Qopp_le_compat in Hpos. exact Hpos. }
  apply Qceiling_resp_le in Hq.
  change 0%Q with (inject_Z 0) in Hq. rewrite Qceiling_Z in Hq.
  replace (Z.to_nat (Qceiling (inject_Z (Z.of_nat (length audio)) / rate)))
    with 0 by lia.
  reflexivity.
Qed.

(** A negative rate gives an empty array, whatever the input: [np.arange]
    has no position to offer.  The result keeps the layout of the input
    and has no frame. *)
Theorem time_stretch_negative_rate (audio : ndarray) (rate : Q) :
  (rate < 0)%Q ->
  time_stretch audio rate = Ok (crop audio 0 0)
  /\ len (crop audio 0 0) = 0
  /\ elements (crop audio 0 0) = []
  /\ (forall samples, audio = Mono samples ->
                      time_stretch audio rate = Ok (Mono [])).
Proof.
  intro Hrate. destruct audio as [samples|channels frames]; simpl;
    rewrite (stretch_negative_rate _ rate Hrate); simpl.
  - split; [reflexivity|]. split; [reflexivity|].
    split; [reflexivity|]. intros samples' _. reflexivity.
  - split; [reflexivity|]. split; [reflexivity|].
    split; [reflexivity|]. intros samples E. discriminate E.
Qed.

Lemma time_stretch_negative_rate_witness :
  time_stretch (Mono [10; 20; 30]%R) (-1)%Q = Ok (Mono []).
Proof.
  destruct (time_stretch_negative_rate (Mono [10; 20; 30]%R) (-1)%Q
                                        eq_refl)
    as [H _].
  exact H.
Defined.
(** * Further properties of the transforms *)

(** ** Tiling *)

Lemma np_tile_nth_error {A : Type} (x : list A) (reps i : nat) :
  0 < length x -> i < reps * length x ->
  nth_error (np_tile x reps) i = nth_error x (i mod length x).
Proof.
  intro Hpos. revert i. induction reps as [|reps IH]; intros i Hi.
  - simpl in Hi. lia.
  - simpl np_tile. destruct (Nat.lt_ge_cases i (length x)) as [Hlt|Hge].
    + rewrite nth_error_app1 by exact Hlt.
      rewrite Nat.mod_small by exact Hlt. reflexivity.
    + rewrite nth_error_app2 by exact Hge.
      rewrite IH by (simpl in Hi; lia).
      replace i with (i - length x + 1 * length x) at 2 by lia.
      rewrite Nat.Div0.mod_add. reflexivity.
Qed.

(** A one-dimensional noise shorter than the signal is repeated end to
    end: the sample number [i] of the aligned noise is the sample number
    [i mod len(noise)] of the noise, for every [i] below the target.  A
    multi-channel noise shorter than the signal is not brought to the
    length of the signal: each of its frames is repeated instead, so that
    it keeps its frames and gets [repeats] times as many channels. *)
Theorem align_noise_tiles_periodically (w : World) (n : ndarray) (L : nat)
        (s : State) :
  0 < len n < L ->
  (forall samples,
      n = Mono samples ->
      exists r,
        align_noise w n L s = (Ok (Mono r), s)
        /\ length r = L
        /\ forall i, i < L ->
                     nth_error r i
                     = nth_error samples (i mod length samples))
  /\ (forall channels frames,
         n = Multi channels frames ->
         let repeats := ceil_div L (length frames) in
         exists rows,
           align_noise w n L s
           = (Ok (Multi (channels * repeats) rows), s)
           /\ length rows = length frames
           /\ rows = map (fun frame => np_tile frame repeats) frames
           /\ len (Multi (channels * repeats) rows) < L).
Proof.
  intro H. pose proof (runs_align_short w n L s H) as Hrun.
  apply runs_trace_unchanged in Hrun. split.
  - intros samples E. subst n. cbn [len crop np_tile_array] in *.
    destruct (tiled_prefix samples L (proj1 H) (proj2 H)) as [Hlen _].
    eexists. split; [|split; [exact Hlen|]].
    + rewrite Hrun. destruct s; reflexivity.
    + intros i Hi. rewrite nth_error_firstn.
      rewrite (proj2 (Nat.ltb_lt i L) Hi).
      apply np_tile_nth_error; [lia|].
      pose proof (ceil_div_covers L (length samples) (proj1 H)). lia.
  - intros channels frames E. subst n. cbv zeta.
    cbn [len crop np_tile_array skipn] in *.
    rewrite firstn_all2 in Hrun
      by (rewrite length_map; exact (Nat.lt_le_incl _ _ (proj2 H))).
    eexists. split; [|split; [|split]].
    + rewrite Hrun. destruct s; reflexivity.
    + apply length_map.
    + reflexivity.
    + rewrite length_map. exact (proj2 H).
Qed.

Lemma align_noise_tiles_periodically_witness :
  (exists r,
      align_noise (example_world one_sample_content [] [])
                  (Mono [1%R; 2%R]) 5 initial_state
      = (Ok (Mono r), initial_state)
      /\ nth_error r 4 = Some 1%R)
  /\ align_noise (example_world one_sample_content [] [])
                 (Multi 2 [[1%R; 2%R]]) 2 initial_state
     = (Ok (Multi 4 [[1%R; 2%R; 1%R; 2%R]]), initial_state).
Proof.
  split.
  - destruct (align_noise_tiles_periodically
                (example_world one_sample_content [] [])
                (Mono [1%R; 2%R]) 5 initial_state ltac:(simpl; lia))
      as [Hmono _].
    destruct (Hmono [1%R; 2%R] eq_refl) as [r [Hr [_ Hnth]]].
    exists r. split; [exact Hr|]. rewrite (Hnth 4 ltac:(lia)). reflexivity.
  - destruct (align_noise_tiles_periodically
                (example_world one_sample_content [] [])
                (Multi 2 [[1%R; 2%R]]) 2 initial_state ltac:(simpl; lia))
      as [_ Hmulti].
    destruct (Hmulti 2 [[1%R; 2%R]] eq_refl) as [rows [Hr [_ [Hrows _]]]].
    rewrite Hr, Hrows. reflexivity.
Defined.
(** ** Resampling: range and ends *)


Lemma Qlt_bool_false (x y : Q) : Qlt_bool x y = false -> (y <= x)%Q.
Proof.
  unfold Qlt_bool. intro H. apply negb_false_iff in H.
  apply Qle_bool_iff. exact H.
Qed.

Lemma Qlt_bool_true (x y : Q) : Qlt_bool x y = true -> (x < y)%Q.
Proof.
  unfold Qlt_bool. intro H. apply negb_true_iff in H.
  apply Qnot_le_lt. intro Hle. apply Qle_bool_iff in Hle. congruence.
Qed.



(** The resampling of a non-empty noise, spelled out. *)
Lemma resample_grid (noise : buffer) (sr noise_sr : Z) :
  (0 < sr)%Z -> (0 < noise_sr)%Z -> noise <> [] ->
  let num := Z.quot (Z.of_nat (length noise) * sr) noise_sr in
  let step := (inject_Z (Z.of_nat (length noise)) / inject_Z (num - 1))%Q in
  (0 <= num)%Z
  /\ resample (Mono noise) sr noise_sr
     = Ok (Mono (map (interp_at noise)
                     (map (fun j => (inject_Z (Z.of_nat j) * step)%Q)
                          (seq 0 (Z.to_nat num))))).
Proof.
  intros Hsr Hnsr Hne num step.
  assert (Hnum : (0 <= num)%Z) by (apply Z.quot_pos; nia).
  split; [exact Hnum|].
  unfold resample, resampled_length. simpl len.
  destruct (Z.eqb_spec noise_sr 0) as [E|_]; [lia|].
  simpl rbind. fold num. unfold np_linspace.
  destruct (Z.ltb_spec num 0) as [Hn|_]; [lia|].
  simpl rbind. unfold np_interp.
  destruct noise; [congruence|reflexivity].
Qed.



Lemma interp_at_origin (fp : buffer) (x : Q) :
  (x == 0)%Q -> interp_at fp x = nth 0 fp 0%R.
Proof.
  intro Ex. unfold interp_at.
  destruct (Qlt_bool x 0) eqn:E0; [reflexivity|].
  destruct (Qlt_bool (inject_Z (Z.of_nat (length fp - 1))) x) eqn:E1.
  { apply Qlt_bool_true in E1. rewrite Ex in E1.
    exfalso. apply (Qlt_not_le _ _ E1). apply inject_nat_nonneg. }
  rewrite (Qfloor_comp _ _ Ex). change 0%Q with (inject_Z 0).
  rewrite Qfloor_Z. simpl Z.to_nat.
  destruct (0 =? Z.of_nat (length fp - 1))%Z; [reflexivity|].
  destruct (Qeq_bool (inject_Z 0) x) eqn:E2; [reflexivity|].
  exfalso. apply Qeq_bool_neq in E2. apply E2. symmetry. exact Ex.
Qed.

Lemma interp_at_past_end (fp : buffer) (x : Q) :
  0 < length fp ->
  (x == inject_Z (Z.of_nat (length fp)))%Q ->
  interp_at fp x = nth (length fp - 1) fp 0%R.
Proof.
  intros Hpos Ex. unfold interp_at.
  destruct (Qlt_bool x 0) eqn:E0.
  { apply Qlt_bool_true in E0. rewrite Ex in E0.
    exfalso. apply (Qlt_not_le _ _ E0). apply inject_nat_nonneg. }
  destruct (Qlt_bool (inject_Z (Z.of_nat (length fp - 1))) x) eqn:E1;
    [reflexivity|].
  apply Qlt_bool_false in E1. rewrite Ex in E1.
  rewrite <- Zle_Qle in E1. lia.
Qed.

(** Resampling keeps the ends of a one-dimensional noise: the first
    resampled sample is the first sample of the noise, and, when at least
    two samples come out, the last one is the last sample of the noise
    (the grid runs up to [len(noise)], past the last sample point). *)
Theorem resample_keeps_ends (noise : buffer) (sr noise_sr : Z) :
  (0 < sr)%Z -> (0 < noise_sr)%Z -> noise <> [] -> noise_sr <> sr ->
  exists r,
    resample_if_needed (Mono noise) sr noise_sr = Ok (Mono r)
    /\ (1 <= length r -> nth_error r 0 = nth_error noise 0)
    /\ (2 <= length r ->
        nth_error r (length r - 1) = nth_error noise (length noise - 1)).
Proof.
  intros Hsr Hnsr Hne Hdiff. unfold resample_if_needed.
  destruct (Z.eqb_spec noise_sr sr) as [E|_]; [contradiction|].
  simpl negb. cbv iota.
  destruct (resample_grid noise sr noise_sr Hsr Hnsr Hne) as [Hnum Hr].
  set (num := Z.quot (Z.of_nat (length noise) * sr) noise_sr) in *.
  set (step := (inject_Z (Z.of_nat (length noise)) / inject_Z (num - 1))%Q)
    in *.
  assert (Hpos : 0 < length noise)
    by (destruct noise; [congruence|simpl; lia]).
  eexists. split; [exact Hr|].
  rewrite !length_map, length_seq.
  split; intro Hlen.
  - rewrite !nth_error_map, nth_error_seq.
    destruct (Nat.ltb_spec 0 (Z.to_nat num)) as [_|Hge]; [|lia].
    simpl option_map.
    rewrite (nth_error_nth' noise 0%R Hpos). f_equal.
    apply interp_at_origin. simpl. apply Qmult_0_l.
  - rewrite !nth_error_map, nth_error_seq.
    destruct (Nat.ltb_spec (Z.to_nat num - 1) (Z.to_nat num)) as [_|Hge];
      [|lia].
    simpl option_map.
    rewrite (nth_error_nth' noise 0%R) by lia. f_equal.
    apply interp_at_past_end; [exact Hpos|].
    unfold step.
    assert (Hi : inject_Z (Z.of_nat (Z.to_nat num - 1))
                 = inject_Z (num - 1)) by (f_equal; lia).
    simpl Nat.add. rewrite Hi. apply Qmult_div_r. intro H0.
    unfold Qeq in H0. simpl in H0. clear Hr. clearbody num. lia.
Qed.

Lemma resample_keeps_ends_witness :
  exists r,
    resample_if_needed (Mono [1%R; 2%R; 3%R]) 16000 8000 = Ok (Mono r)
    /\ (1 <= length r -> nth_error r 0 = Some 1%R)
    /\ (2 <= length r -> nth_error r (length r - 1) = Some 3%R).
Proof.
  apply (resample_keeps_ends [1%R; 2%R; 3%R] 16000 8000);
    try lia; discriminate.
Defined.

(** * Further properties of the augmentation *)
(** ** What one job reads and writes, whatever happens *)

Lemma written_le_attempts (d : list event) :
  length (written d) <= length (write_attempts d).
Proof.
  induction d as [|ev d IH]; simpl; [lia|].
  destruct ev as [p ok|p a sr [|]|m|m]; simpl; lia.
Qed.

Lemma remove_at_not_in {A : Type} (j : nat) (l : list A) (d : A) :
  NoDup l -> j < length l -> ~ In (nth j l d) (remove_at j l).
Proof.
  intro H. revert j. induction H as [|x l Hx Hl IH]; intros [|j] Hj;
    simpl in *; try lia.
  - exact Hx.
  - intros [E|Hin].
    + apply Hx. rewrite E. apply nth_In. lia.
    + apply (IH j); [lia|exact Hin].
Qed.

Lemma remove_at_nodup {A : Type} (j : nat) (l : list A) :
  NoDup l -> NoDup (remove_at j l).
Proof.
  intro H. revert j. induction H as [|x l Hx Hl IH]; intros [|j]; simpl;
    try constructor; try assumption.
  - intro Hin. apply Hx. exact (remove_at_incl j l x Hin).
  - apply IH.
Qed.

(** [random.sample] never returns the same position twice. *)
Lemma runs_random_sample_distinct (w : World) (population : list Path)
      (k : nat) (s : State) :
  k <= length population ->
  exists chosen cu,
    runs w (random_sample w population k) s (Ok chosen) [] cu
    /\ length chosen = k
    /\ incl chosen population
    /\ (NoDup population -> NoDup chosen).
Proof.
  revert population s. induction k as [|k IH]; intros population s Hk.
  - exists [], (cursor s). split; [apply runs_ret|].
    split; [reflexivity|]. split; [intros x []|]. intros _. constructor.
  - destruct population as [|first rest] eqn:Epop; [simpl in Hk; lia|].
    rewrite <- Epop in *.
    assert (Hlen : 0 < length population) by (rewrite Epop; simpl; lia).
    pose proof (runs_randint w 0 (Z.of_nat (length population) - 1) s
                             ltac:(lia)) as Hdraw.
    set (j := Z.to_nat
                (0 + Z.of_nat (tape w (cursor s)
                               mod Z.to_nat (Z.of_nat (length population)
                                             - 1 - 0 + 1)))) in *.
    assert (Hj : j < length population).
    { subst j.
      pose proof (Nat.mod_upper_bound (tape w (cursor s))
                    (Z.to_nat (Z.of_nat (length population) - 1 - 0 + 1))
                    ltac:(lia)).
      lia. }
    assert (Hrest : k <= length (remove_at j population))
      by (rewrite remove_at_length by exact Hj; lia).
    destruct (IH (remove_at j population)
                 (mkState (trace s ++ []) (S (cursor s))) Hrest)
      as [chosen [cu [Hrun [Hcl [Hci Hnd]]]]].
    exists (nth j population first :: chosen), cu.
    split; [|split; [|split]].
    + simpl random_sample. rewrite Epop. rewrite <- Epop.
      change (@nil event) with (@nil event ++ []).
      eapply runs_bind; [exact Hdraw|].
      fold j.
      change (@nil event) with (@nil event ++ []).
      eapply runs_bind; [exact Hrun|].
      apply (runs_ret w (nth j population first :: chosen)
               (mkState
                  (trace (mkState (trace s ++ []) (S (cursor s))) ++ [])
                  cu)).
    + simpl. rewrite Hcl. reflexivity.
    + apply incl_cons.
      * apply nth_In. exact Hj.
      * eapply incl_tran; [exact Hci|apply remove_at_incl].
    + intro Hpop. constructor.
      * intro Hin. apply Hci in Hin.
        exact (remove_at_not_in j population first Hpop Hj Hin).
      * apply Hnd. apply remove_at_nodup. exact Hpop.
Qed.

Lemma variant_path_written (w : World) (self : AudioAugmenter) (p : Path)
      (audio audio' : ndarray) (sr : Z)
      (output_prefix base_name tag : string) :
  file_content w p = Some (audio, sr) ->
  variant_write w self p output_prefix base_name
    (variant_path self output_prefix base_name tag, audio', sr).
Proof.
  intro Hfile. split; [exists tag; reflexivity|].
  intros a r H. rewrite Hfile in H. injection H as _ <-. reflexivity.
Qed.

(** Without a separator in the prefix, the variants are [.wav] files of
    the output directory. *)
Lemma variant_write_confined (w : World) (self : AudioAugmenter) (p : Path)
      (output_prefix base_name : string) (wr : Path * ndarray * Z) :
  split_last_separator output_prefix = None ->
  variant_write w self p output_prefix base_name wr ->
  confined_write w self p wr.
Proof.
  intros Hsep [[tag Hpath] Hrate]. unfold confined_write.
  rewrite Hpath. unfold variant_path. rewrite Hsep.
  split; [reflexivity|]. split; [reflexivity|exact Hrate].
Qed.

(** One noise variant, whatever happens: its file is read, at most one
    write is attempted, of a variant of the sample. *)
Lemma noise_variant_trace (w : World) (self : AudioAugmenter) (p : Path)
      (audio : ndarray) (sr : Z) (output_prefix base_name : string)
      (entry : nat * Path) (count : nat) (s : State) :
  file_content w p = Some (audio, sr) ->
  exists r d cu,
    runs w (noise_variant w self audio sr output_prefix base_name entry
                          count)
         s r d cu
    /\ read_attempts d = [snd entry]
    /\ Forall (variant_write w self p output_prefix base_name)
              (write_attempts d)
    /\ length (write_attempts d) <= 1
    /\ forall count', r = Ok count' -> count' = count + length (written d).
Proof.
  intro Hp. destruct entry as [i f]. simpl snd.
  pose proof (runs_load_audio w f s) as Hload.
  unfold noise_variant.
  destruct (file_content w f) as [[noise noise_sr]|] eqn:Ef.
  - destruct (resample_if_needed noise sr noise_sr) as [noise'|e] eqn:Hres.
    + destruct (runs_add_noise_any w audio noise' fifteen
                  (mkState (trace s ++ [EvRead f true]) (cursor s)))
        as [[mixed|e] [cu Hadd]].
      * destruct (runs_save_and_count w mixed sr
                    (variant_path self output_prefix base_name
                                  ("noise" ++ str_of_nat i)%string)
                    count
                    (mkState (trace s ++ [EvRead f true]) cu))
          as [d [Hsave [Hw Hr]]].
        exists (Ok (count + length (written d))), ([EvRead f true] ++ d), cu.
        split; [|split; [|split; [|split]]].
        -- eapply runs_bind; [exact Hload|]. cbv iota beta.
           rewrite Hres. change d with ([] ++ [] ++ d).
           eapply runs_bind; [apply runs_lift|].
           eapply runs_bind.
           ++ simpl. rewrite app_nil_r. exact Hadd.
           ++ simpl. rewrite !app_nil_r. simpl in Hsave. exact Hsave.
        -- simpl. rewrite Hr. reflexivity.
        -- simpl. rewrite Hw. constructor; [|constructor].
           eapply variant_path_written. exact Hp.
        -- simpl. rewrite Hw. simpl. lia.
        -- intros c Hc. injection Hc as <-. reflexivity.
      * exists (Raise e), ([EvRead f true] ++ []), cu.
        split; [|split; [reflexivity|split; [constructor|split;
                 [simpl; lia|intros c Hc; discriminate Hc]]]].
        eapply runs_bind; [exact Hload|]. cbv iota beta.
        rewrite Hres. change (@nil event) with (@nil event ++ []).
        eapply runs_bind; [apply runs_lift|].
        apply runs_bind_raise. simpl. rewrite app_nil_r. exact Hadd.
    + exists (Raise e), ([EvRead f true] ++ []), (cursor s).
      split; [|split; [reflexivity|split; [constructor|split;
               [simpl; lia|intros c Hc; discriminate Hc]]]].
      eapply runs_bind; [exact Hload|]. cbv iota beta.
      rewrite Hres. apply runs_bind_raise.
      apply (runs_lift w (Raise e)
               (mkState (trace s ++ [EvRead f true]) (cursor s))).
  - exists (Ok count),
      ([EvRead f false; EvError (MsgLoadFailed f SoundFileError)] ++ []),
      (cursor s).
    split; [|split; [reflexivity|split; [constructor|split;
             [simpl; lia|intros c Hc; injection Hc as <-; simpl; lia]]]].
    eapply runs_bind; [exact Hload|].
    apply (runs_ret w count
             (mkState (trace s ++ [EvRead f false;
                                   EvError (MsgLoadFailed f
                                              SoundFileError)])
                      (cursor s))).
Qed.

Lemma noise_loop_trace (w : World) (self : AudioAugmenter) (p : Path)
      (audio : ndarray) (sr : Z) (output_prefix base_name : string)
      (entries : list (nat * Path)) (count : nat) (s : State) :
  file_content w p = Some (audio, sr) ->
  exists r d cu k,
    runs w (for_each entries
              (noise_variant w self audio sr output_prefix base_name)
              count)
         s r d cu
    /\ read_attempts d = firstn k (map snd entries)
    /\ Forall (variant_write w self p output_prefix base_name)
              (write_attempts d)
    /\ length (write_attempts d) <= length entries
    /\ forall count', r = Ok count' -> count' = count + length (written d).
Proof.
  intro Hp. revert count s.
  induction entries as [|e entries IH]; intros count s.
  - exists (Ok count), [], (cursor s), 0. split; [apply runs_ret|].
    split; [reflexivity|]. split; [constructor|]. split; [simpl; lia|].
    intros c Hc. injection Hc as <-. simpl. lia.
  - destruct (noise_variant_trace w self p audio sr output_prefix base_name
                e count s Hp)
      as [[c1|e1] [d1 [cu1 [H1 [Hr1 [Hw1 [Hl1 Hc1]]]]]]].
    + destruct (IH c1 (mkState (trace s ++ d1) cu1))
        as [r [d2 [cu2 [k [H2 [Hr2 [Hw2 [Hl2 Hc2]]]]]]]].
      exists r, (d1 ++ d2), cu2, (S k).
      split; [|split; [|split; [|split]]].
      * simpl for_each. eapply runs_bind; [exact H1|exact H2].
      * rewrite read_attempts_app, Hr1, Hr2. reflexivity.
      * rewrite write_attempts_app. apply Forall_app. split; assumption.
      * rewrite write_attempts_app, length_app. simpl. lia.
      * intros c Hc. rewrite written_app, length_app.
        rewrite (Hc2 c Hc), (Hc1 c1 eq_refl). lia.
    + exists (Raise e1), d1, cu1, 1.
      split; [|split; [|split; [|split]]].
      * simpl for_each. apply runs_bind_raise. exact H1.
      * rewrite Hr1. reflexivity.
      * exact Hw1.
      * simpl. lia.
      * intros c Hc. discriminate Hc.
Qed.

Lemma enumerate_length {X : Type} (start : nat) (xs : list X) :
  length (enumerate start xs) = length xs.
Proof.
  rewrite <- (length_map fst), enumerate_fst, length_seq. reflexivity.
Qed.

Lemma noise_variations_trace (w : World) (self : AudioAugmenter) (p : Path)
      (audio : ndarray) (sr : Z) (output_prefix base_name : string)
      (background_files : list Path) (count : nat) (s : State) :
  file_content w p = Some (audio, sr) ->
  exists r d cu chosen k,
    runs w (noise_variations w self audio sr output_prefix base_name
                             background_files count)
         s r d cu
    /\ read_attempts d = firstn k chosen
    /\ length chosen = Nat.min 3 (length background_files)
    /\ incl chosen background_files
    /\ (NoDup background_files -> NoDup chosen)
    /\ Forall (variant_write w self p output_prefix base_name)
              (write_attempts d)
    /\ length (write_attempts d) <= Nat.min 3 (length background_files)
    /\ forall count', r = Ok count' -> count' = count + length (written d).
Proof.
  intro Hp. unfold noise_variations.
  destruct background_files as [|b bs] eqn:E.
  - exists (Ok count), [], (cursor s), [], 0.
    split; [apply runs_ret|]. split; [reflexivity|].
    split; [reflexivity|]. split; [apply incl_refl|].
    split; [intros _; constructor|]. split; [constructor|].
    split; [simpl; lia|].
    intros c Hc. injection Hc as <-. simpl. lia.
  - rewrite <- E.
    destruct (runs_random_sample_distinct w background_files
                (Nat.min 3 (length background_files)) s
                (min_three_le _))
      as [chosen [cu [Hsample [Hlen [Hincl Hnd]]]]].
    destruct (noise_loop_trace w self p audio sr output_prefix base_name
                (enumerate 0 chosen) count
                (mkState (trace s ++ []) cu) Hp)
      as [r [d [cu' [k [Hloop [Hr [Hw [Hl Hcount]]]]]]]].
    exists r, ([] ++ d), cu', chosen, k.
    split; [eapply runs_bind; [exact Hsample|exact Hloop]|].
    split; [simpl; rewrite Hr, enumerate_snd; reflexivity|].
    split; [exact Hlen|]. split; [exact Hincl|]. split; [exact Hnd|].
    split; [exact Hw|].
    split; [rewrite enumerate_length, Hlen in Hl; exact Hl|exact Hcount].
Qed.

Lemma firstn_incl {A : Type} (k : nat) (l : list A) : incl (firstn k l) l.
Proof.
  revert k. induction l as [|x l IH]; intros [|k]; simpl.
  - apply incl_refl.
  - apply incl_refl.
  - intros y [].
  - apply incl_cons; [left; reflexivity|]. apply incl_tl, IH.
Qed.

Lemma firstn_nodup {A : Type} (k : nat) (l : list A) :
  NoDup l -> NoDup (firstn k l).
Proof.
  intro H. revert k. induction H as [|x l Hx Hl IH]; intros [|k]; simpl;
    try constructor.
  - intro Hin. apply Hx. exact (firstn_incl k l x Hin).
  - apply IH.
Qed.

Lemma fixed_writes_written (w : World) (self : AudioAugmenter) (p : Path)
      (audio slow fast : ndarray) (sr : Z)
      (output_prefix base_name : string) :
  file_content w p = Some (audio, sr) ->
  Forall (variant_write w self p output_prefix base_name)
         (fixed_writes self audio slow fast sr output_prefix base_name).
Proof.
  intro Hp. unfold fixed_writes.
  repeat (constructor; [eapply variant_path_written; exact Hp|]).
  constructor.
Qed.

(** What [augment_sample] reads and writes in any world, whether it
    returns or raises. *)
Lemma augment_sample_trace (w : World) (self : AudioAugmenter)
      (audio_path : Path) (background_files : list Path)
      (output_prefix : string) (s : State) :
  exists r d cu chosen k,
    runs w (augment_sample w self audio_path background_files
                           output_prefix)
         s r d cu
    /\ read_attempts d = audio_path :: firstn k chosen
    /\ length chosen <= Nat.min 3 (length background_files)
    /\ incl chosen background_files
    /\ (NoDup background_files -> NoDup chosen)
    /\ Forall (variant_write w self audio_path output_prefix
                             (stem audio_path))
              (write_attempts d)
    /\ length (write_attempts d)
       <= 5 + Nat.min 3 (length background_files)
    /\ forall count, r = Ok count -> count = length (written d).
Proof.
  pose proof (runs_load_audio w audio_path s) as Hload.
  unfold augment_sample.
  destruct (file_content w audio_path) as [[audio sr]|] eqn:Hfile.
  - destruct (runs_fixed_blocks w self audio sr output_prefix
                (stem audio_path)
                (fun count =>
                   bind (noise_variations w self audio sr output_prefix
                           (stem audio_path) background_files count)
                        (fun count => ret count))
                (mkState (trace s ++ [EvRead audio_path true]) (cursor s)))
      as [slow [fast [d5 [_ [_ [Hw5 [Hr5 Hk]]]]]]].
    destruct (noise_variations_trace w self audio_path audio sr
                output_prefix (stem audio_path) background_files
                (length (written d5))
                (mkState ((trace s ++ [EvRead audio_path true]) ++ d5)
                         (cursor s)) Hfile)
      as [r [dn [cu [chosen [k [Hn [Hrn [Hlen [Hincl [Hnd [Hwn [Hln
         Hcount]]]]]]]]]]]].
    exists r, ([EvRead audio_path true] ++ d5 ++ dn), cu, chosen, k.
    split; [|split; [|split; [|split; [|split; [|split; [|split]]]]]].
    + eapply runs_bind; [exact Hload|]. cbv iota beta zeta.
      apply Hk. simpl. destruct r as [c|e].
      * apply (runs_then_ret w _ (fun c => c)). exact Hn.
      * apply runs_bind_raise. exact Hn.
    + simpl. rewrite read_attempts_app, Hr5, Hrn. reflexivity.
    + rewrite Hlen. apply Nat.le_refl.
    + exact Hincl.
    + exact Hnd.
    + simpl. rewrite write_attempts_app, Hw5. apply Forall_app.
      split; [|exact Hwn].
      apply (fixed_writes_written w self audio_path audio slow fast sr
               output_prefix (stem audio_path) Hfile).
    + rewrite !write_attempts_app, !length_app, Hw5.
      change (length (write_attempts [EvRead audio_path true])) with 0.
      change (length (fixed_writes self audio slow fast sr output_prefix
                                   (stem audio_path))) with 5.
      rewrite Nat.add_0_l. apply -> Nat.add_le_mono_l. exact Hln.
    + intros c Hc. simpl. rewrite written_app, length_app.
      rewrite (Hcount c Hc). reflexivity.
  - exists (Ok 0),
      ([EvRead audio_path false;
        EvError (MsgLoadFailed audio_path SoundFileError)] ++ []),
      (cursor s), [], 0.
    split; [|split; [reflexivity|split; [simpl; lia|split;
             [intros x []|split; [intros _; constructor|split;
              [constructor|split; [simpl; lia|]]]]]]].
    + eapply runs_bind; [exact Hload|].
      apply (runs_ret w 0
               (mkState (trace s ++ [EvRead audio_path false;
                                     EvError (MsgLoadFailed audio_path
                                                SoundFileError)])
                        (cursor s))).
    + intros c Hc. injection Hc as <-. reflexivity.
Qed.

(** A prefix with a separator moves the outputs out of the output
    directory. *)
Example variant_path_with_separator :
  variant_path example_augmenter "aug" "hey" "original"
  = mkPath "data/augmented" "aug_hey_original" ".wav"
  /\ variant_path example_augmenter "../x" "hey" "original"
     = mkPath "data/augmented/.." "x_hey_original" ".wav"
  /\ variant_path example_augmenter "/tmp/x" "hey" "original"
     = mkPath "/tmp" "x_hey_original" ".wav".
Proof. repeat split. Qed.

(** In any world, whether it returns or raises, one job reads nothing but
    its sample and at most three background files, attempts at most eight
    writes, all of them variants of the sample at its sample rate, and
    never returns a count above eight; when the prefix of the outputs
    holds no separator, every write goes to a [.wav] file of the output
    directory. *)
Theorem augment_sample_confined (w : World) (self : AudioAugmenter)
        (audio_path : Path) (background_files : list Path)
        (output_prefix : string) (s : State) :
  exists r d cu,
    augment_sample w self audio_path background_files output_prefix s
    = (r, mkState (trace s ++ d) cu)
    /\ incl (read_attempts d) (audio_path :: background_files)
    /\ length (read_attempts d) <= 4
    /\ Forall (variant_write w self audio_path output_prefix
                             (stem audio_path))
              (write_attempts d)
    /\ (split_last_separator output_prefix = None ->
        Forall (confined_write w self audio_path) (write_attempts d))
    /\ length (write_attempts d) <= 8
    /\ forall count, r = Ok count -> count <= 8.
Proof.
  destruct (augment_sample_trace w self audio_path background_files
              output_prefix s)
    as [r [d [cu [chosen [k [Hrun [Hr [Hlen [Hincl [_ [Hw [Hl Hc]]]]]]]]]]]].
  exists r, d, cu. split; [exact (proj1 Hrun)|].
  split; [|split; [|split; [exact Hw|split; [|split; [lia|]]]]].
  - rewrite Hr. apply incl_cons; [left; reflexivity|].
    apply incl_tl. eapply incl_tran; [apply firstn_incl|exact Hincl].
  - rewrite Hr. simpl. pose proof (firstn_le_length k chosen).
    rewrite length_firstn. lia.
  - intro Hsep. eapply Forall_impl; [|exact Hw].
    intros wr. apply variant_write_confined. exact Hsep.
  - intros c Hcount. rewrite (Hc c Hcount).
    pose proof (written_le_attempts d). lia.
Qed.

(** One job never mixes the same background file twice: when the library
    lists no file twice, the noise files read for a sample are pairwise
    distinct files of the library, at most [min(3, size of the library)]
    of them. *)
Theorem noise_files_distinct (w : World) (self : AudioAugmenter)
        (audio_path : Path) (background_files : list Path)
        (output_prefix : string) (s : State) :
  NoDup background_files ->
  exists r d cu noise_reads,
    augment_sample w self audio_path background_files output_prefix s
    = (r, mkState (trace s ++ d) cu)
    /\ read_attempts d = audio_path :: noise_reads
    /\ NoDup noise_reads
    /\ incl noise_reads background_files
    /\ length noise_reads <= Nat.min 3 (length background_files).
Proof.
  intro Hnd.
  destruct (augment_sample_trace w self audio_path background_files
              output_prefix s)
    as [r [d [cu [chosen [k [Hrun [Hr [Hlen [Hincl [Hdist _]]]]]]]]]].
  exists r, d, cu, (firstn k chosen). split; [exact (proj1 Hrun)|].
  split; [exact Hr|]. split; [apply firstn_nodup, Hdist, Hnd|].
  split; [eapply incl_tran; [apply firstn_incl|exact Hincl]|].
  rewrite length_firstn. lia.
Qed.

Lemma example_library_nodup : NoDup example_library.
Proof.
  unfold example_library.
  repeat (constructor; [simpl; intuition discriminate|]). constructor.
Qed.

Lemma noise_files_distinct_witness :
  exists r d cu noise_reads,
    augment_sample (example_world one_sample_content [example_sample]
                                  example_library)
                   example_augmenter example_sample example_library "aug"
                   initial_state
    = (r, mkState d cu)
    /\ read_attempts d = example_sample :: noise_reads
    /\ NoDup noise_reads.
Proof.
  destruct (noise_files_distinct
              (example_world one_sample_content [example_sample]
                             example_library)
              example_augmenter example_sample example_library "aug"
              initial_state example_library_nodup)
    as [r [d [cu [reads [Hrun [Hr [Hnd _]]]]]]].
  exists r, d, cu, reads. split; [exact Hrun|]. split; assumption.
Defined.

(** ** What a whole run reads and writes, whatever happens *)

Lemma confined_is_output (w : World) (self : AudioAugmenter) (p : Path)
      (base_name : string) (ws : list (Path * ndarray * Z)) :
  Forall (variant_write w self p "aug" base_name) ws ->
  Forall (output_write self) ws.
Proof.
  apply Forall_impl. intros wr Hwr.
  destruct (variant_write_confined w self p "aug" base_name wr eq_refl Hwr)
    as [Hd [Hs _]].
  split; assumption.
Qed.

Lemma augment_one_trace (w : World) (self : AudioAugmenter)
      (background_files : list Path) (n : nat) (entry : nat * Path)
      (total : nat) (s : State) :
  exists r d cu,
    runs w (augment_one w self background_files n entry total) s r d cu
    /\ incl (read_attempts d) (snd entry :: background_files)
    /\ Forall (output_write self) (write_attempts d)
    /\ length (write_attempts d) <= 8
    /\ forall total', r = Ok total' -> total' = total + length (written d).
Proof.
  destruct entry as [i f]. simpl snd.
  destruct (augment_sample_trace w self f background_files "aug"
              (mkState (trace s ++ [EvInfo (MsgAugmenting i n (name f))])
                       (cursor s)))
    as [r [d [cu [chosen [k [Hrun [Hr [Hlen [Hincl [_ [Hw [Hl Hc]]]]]]]]]]]].
  assert (Hreads : incl (read_attempts d) (f :: background_files)).
  { rewrite Hr. apply incl_cons; [left; reflexivity|].
    apply incl_tl. eapply incl_tran; [apply firstn_incl|exact Hincl]. }
  assert (Hl8 : length (write_attempts d) <= 8) by lia.
  destruct r as [count|e].
  - exists (Ok (total + count)),
      ([EvInfo (MsgAugmenting i n (name f))]
       ++ d ++ [EvInfo (MsgCreated count)]), cu.
    split; [|split; [|split; [|split]]].
    + unfold augment_one.
      eapply runs_bind; [apply runs_emit_info|].
      eapply runs_bind; [exact Hrun|].
      apply (runs_then_ret w _ (fun _ => total + count) _ tt).
      apply runs_emit_info.
    + simpl. rewrite read_attempts_app. simpl. rewrite app_nil_r.
      exact Hreads.
    + simpl. rewrite write_attempts_app. simpl. rewrite app_nil_r.
      eapply confined_is_output. exact Hw.
    + simpl. rewrite write_attempts_app. simpl. rewrite app_nil_r.
      exact Hl8.
    + intros t Ht. injection Ht as <-. simpl.
      rewrite written_app. simpl. rewrite app_nil_r.
      rewrite (Hc count eq_refl). reflexivity.
  - exists (Raise e), ([EvInfo (MsgAugmenting i n (name f))] ++ d), cu.
    split; [|split; [exact Hreads|split;
             [eapply confined_is_output; exact Hw|split; [exact Hl8|]]]].
    + unfold augment_one.
      eapply runs_bind; [apply runs_emit_info|].
      apply runs_bind_raise. exact Hrun.
    + intros t Ht. discriminate Ht.
Qed.

Lemma augment_loop_trace (w : World) (self : AudioAugmenter)
      (background_files : list Path) (n : nat)
      (entries : list (nat * Path)) (total : nat) (s : State) :
  exists r d cu,
    runs w (for_each entries (augment_one w self background_files n) total)
         s r d cu
    /\ incl (read_attempts d) (map snd entries ++ background_files)
    /\ Forall (output_write self) (write_attempts d)
    /\ length (write_attempts d) <= 8 * length entries
    /\ forall total', r = Ok total' -> total' = total + length (written d).
Proof.
  revert total s. induction entries as [|e entries IH]; intros total s.
  - exists (Ok total), [], (cursor s). split; [apply runs_ret|].
    split; [intros x []|]. split; [constructor|]. split; [simpl; lia|].
    intros t Ht. injection Ht as <-. simpl. lia.
  - destruct (augment_one_trace w self background_files n e total s)
      as [[t1|e1] [d1 [cu1 [H1 [Hr1 [Hw1 [Hl1 Hc1]]]]]]].
    + destruct (IH t1 (mkState (trace s ++ d1) cu1))
        as [r [d2 [cu2 [H2 [Hr2 [Hw2 [Hl2 Hc2]]]]]]].
      exists r, (d1 ++ d2), cu2.
      split; [|split; [|split; [|split]]].
      * simpl for_each. eapply runs_bind; [exact H1|exact H2].
      * rewrite read_attempts_app. apply incl_app.
        -- intros x Hx. apply Hr1 in Hx. destruct Hx as [<-|Hx].
           ++ left. reflexivity.
           ++ simpl. right. apply in_or_app. right. exact Hx.
        -- intros x Hx. apply Hr2 in Hx. simpl. right. exact Hx.
      * rewrite write_attempts_app. apply Forall_app. split; assumption.
      * rewrite write_attempts_app, length_app. simpl length. lia.
      * intros t Ht. rewrite written_app, length_app.
        rewrite (Hc2 t Ht), (Hc1 t1 eq_refl). lia.
    + exists (Raise e1), d1, cu1.
      split; [|split; [|split; [exact Hw1|split]]].
      * simpl for_each. apply runs_bind_raise. exact H1.
      * intros x Hx. apply Hr1 in Hx. destruct Hx as [<-|Hx].
        -- left. reflexivity.
        -- simpl. right. apply in_or_app. right. exact Hx.
      * simpl length. lia.
      * intros t Ht. discriminate Ht.
Qed.

(** The five messages that open every run. *)
Lemma runs_augment_all_head (w : World) (np nb : nat) (k : M unit)
      (s : State) (r : result unit) (d : list event) (cu : nat) :
  runs w k
       (mkState (trace s
                 ++ [EvInfo MsgRule; EvInfo MsgTitle; EvInfo MsgRule;
                     EvInfo (MsgFoundPositive np);
                     EvInfo (MsgFoundBackground nb)])
                (cursor s))
       r d cu ->
  runs w
       (bind (logger_info MsgRule) (fun _ =>
        bind (logger_info MsgTitle) (fun _ =>
        bind (logger_info MsgRule) (fun _ =>
        bind (logger_info (MsgFoundPositive np)) (fun _ =>
        bind (logger_info (MsgFoundBackground nb)) (fun _ => k))))))
       s r
       ([EvInfo MsgRule; EvInfo MsgTitle; EvInfo MsgRule;
         EvInfo (MsgFoundPositive np); EvInfo (MsgFoundBackground nb)]
        ++ d)
       cu.
Proof.
  intro Hk.
  change ([EvInfo MsgRule; EvInfo MsgTitle; EvInfo MsgRule;
           EvInfo (MsgFoundPositive np); EvInfo (MsgFoundBackground nb)]
          ++ d)
    with ([EvInfo MsgRule] ++ [EvInfo MsgTitle] ++ [EvInfo MsgRule]
          ++ [EvInfo (MsgFoundPositive np)]
          ++ [EvInfo (MsgFoundBackground nb)] ++ d).
  eapply runs_bind; [apply runs_emit_info|].
  eapply runs_bind; [apply runs_emit_info|].
  eapply runs_bind; [apply runs_emit_info|].
  eapply runs_bind; [apply runs_emit_info|].
  eapply runs_bind; [apply runs_emit_info|].
  simpl. rewrite <- !app_assoc. simpl. exact Hk.
Qed.

Lemma augment_all_trace (w : World) (self : AudioAugmenter) (s : State) :
  exists r d cu,
    runs w (augment_all w self) s r d cu
    /\ incl (read_attempts d)
            (glob_wav w (positive_dir self)
             ++ rglob_wav w (background_dir self))
    /\ Forall (output_write self) (write_attempts d)
    /\ length (write_attempts d)
       <= 8 * length (glob_wav w (positive_dir self))
    /\ (r = Ok tt -> glob_wav w (positive_dir self) <> [] ->
        In (EvInfo (MsgTotalSize (length (glob_wav w (positive_dir self))
                                  + length (written d)))) d).
Proof.
  unfold augment_all.
  set (background_files := rglob_wav w (background_dir self)).
  destruct (glob_wav w (positive_dir self)) as [|p ps] eqn:Epos.
  - eexists. eexists. eexists.
    split; [|split; [|split; [|split]]].
    + apply runs_augment_all_head.
      apply (runs_then_ret w _ (fun _ => tt) _ tt).
      apply (runs_emit_error w MsgNoPositive
               (mkState (trace s
                         ++ [EvInfo MsgRule; EvInfo MsgTitle;
                             EvInfo MsgRule;
                             EvInfo (MsgFoundPositive (length (@nil Path)));
                             EvInfo (MsgFoundBackground
                                       (length background_files))])
                        (cursor s))).
    + intros x [].
    + constructor.
    + simpl. lia.
    + intros _ H. congruence.
  - set (positive_files := p :: ps).
    set (head := [EvInfo MsgRule; EvInfo MsgTitle; EvInfo MsgRule;
                  EvInfo (MsgFoundPositive (length positive_files));
                  EvInfo (MsgFoundBackground (length background_files))]).
    destruct (augment_loop_trace w self background_files
                (length positive_files) (enumerate 1 positive_files) 0
                (mkState (trace s ++ head) (cursor s)))
      as [r [d [cu [Hloop [Hr [Hw [Hl Hc]]]]]]].
    rewrite enumerate_snd in Hr. rewrite enumerate_length in Hl.
    destruct r as [total|e].
    + pose proof (Hc total eq_refl) as Ht. simpl in Ht. subst total.
      set (tail := [EvInfo MsgRule; EvInfo MsgComplete;
                    EvInfo (MsgOriginalSamples (length positive_files));
                    EvInfo (MsgAugmentedSamples (length (written d)));
                    EvInfo (MsgTotalSize (length positive_files
                                          + length (written d)));
                    EvInfo MsgRule]).
      assert (Hwr : written (head ++ d ++ tail) = written d).
      { rewrite !written_app. simpl. apply app_nil_r. }
      exists (Ok tt), (head ++ d ++ tail), cu.
      split; [|split; [|split; [|split]]].
      * apply runs_augment_all_head. fold head.
        eapply runs_bind; [exact Hloop|].
        unfold tail.
        change ([EvInfo MsgRule; EvInfo MsgComplete;
                 EvInfo (MsgOriginalSamples (length positive_files));
                 EvInfo (MsgAugmentedSamples (length (written d)));
                 EvInfo (MsgTotalSize (length positive_files
                                       + length (written d)));
                 EvInfo MsgRule])
          with ([EvInfo MsgRule] ++ [EvInfo MsgComplete]
                ++ [EvInfo (MsgOriginalSamples (length positive_files))]
                ++ [EvInfo (MsgAugmentedSamples (length (written d)))]
                ++ [EvInfo (MsgTotalSize (length positive_files
                                          + length (written d)))]
                ++ [EvInfo MsgRule]).
        eapply runs_bind; [apply runs_emit_info|].
        eapply runs_bind; [apply runs_emit_info|].
        eapply runs_bind; [apply runs_emit_info|].
        eapply runs_bind; [apply runs_emit_info|].
        eapply runs_bind; [apply runs_emit_info|].
        apply runs_emit_info.
      * rewrite !read_attempts_app.
        change (read_attempts head) with (@nil Path).
        change (read_attempts tail) with (@nil Path).
        rewrite app_nil_r. exact Hr.
      * rewrite !write_attempts_app.
        change (write_attempts head) with (@nil (Path * ndarray * Z)).
        change (write_attempts tail) with (@nil (Path * ndarray * Z)).
        rewrite app_nil_r. exact Hw.
      * rewrite !write_attempts_app.
        change (write_attempts head) with (@nil (Path * ndarray * Z)).
        change (write_attempts tail) with (@nil (Path * ndarray * Z)).
        rewrite app_nil_r. exact Hl.
      * intros _ _. rewrite Hwr. apply in_or_app. right.
        apply in_or_app. right. unfold tail.
        do 4 right. left. reflexivity.
    + exists (Raise e), (head ++ d), cu.
      split; [|split; [|split; [|split]]].
      * apply runs_augment_all_head. fold head.
        apply runs_bind_raise. exact Hloop.
      * rewrite !read_attempts_app. exact Hr.
      * rewrite !write_attempts_app. exact Hw.
      * rewrite !write_attempts_app. exact Hl.
      * intros H. discriminate H.
Qed.

(** In any world, whether it returns or raises, a run reads only files
    listed in the positive and background directories, writes only [.wav]
    files of the output directory, at most eight per positive sample, and,
    when it returns with positive samples, reports as total size the
    number of positive samples plus the number of files written; this
    holds in particular for [main], whose output directory is
    [../../data/augmented]. *)
Theorem augment_all_confined (w : World) (self : AudioAugmenter)
        (s : State) :
  (exists r d cu,
      augment_all w self s = (r, mkState (trace s ++ d) cu)
      /\ incl (read_attempts d)
              (glob_wav w (positive_dir self)
               ++ rglob_wav w (background_dir self))
      /\ Forall (output_write self) (write_attempts d)
      /\ length (write_attempts d)
         <= 8 * length (glob_wav w (positive_dir self))
      /\ (r = Ok tt -> glob_wav w (positive_dir self) <> [] ->
          In (EvInfo (MsgTotalSize
                        (length (glob_wav w (positive_dir self))
                         + length (written d)))) d))
  /\ (exists r d cu,
         main w s = (r, mkState (trace s ++ d) cu)
         /\ incl (read_attempts d)
                 (glob_wav w "../../data/positive"
                  ++ rglob_wav w "../../data/background")
         /\ forall q audio sr,
             In (q, audio, sr) (write_attempts d) ->
             parent q = "../../data/augmented" /\ suffix q = ".wav").
Proof.
  split.
  - destruct (augment_all_trace w self s)
      as [r [d [cu [Hrun [Hr [Hw [Hl Ht]]]]]]].
    exists r, d, cu. split; [exact (proj1 Hrun)|].
    split; [exact Hr|]. split; [exact Hw|]. split; [exact Hl|exact Ht].
  - destruct (augment_all_trace w (init "../../data") s)
      as [r [d [cu [Hrun [Hr [Hw _]]]]]].
    exists r, d, cu. split; [exact (proj1 Hrun)|]. split; [exact Hr|].
    intros q audio sr Hin.
    rewrite Forall_forall in Hw. exact (Hw _ Hin).
Qed.

(** An empty noise file stops the whole run: when the first positive
    sample loads with at least one frame and the background files hold no
    frame, at its rate, [augment_all] raises [ZeroDivisionError] after the
    five fixed writes of that sample; the positive samples after it are
    never read. *)
Theorem empty_noise_aborts_run (w : World) (self : AudioAugmenter)
        (first : Path) (others : list Path) (audio : ndarray) (sr : Z)
        (s : State) :
  glob_wav w (positive_dir self) = first :: others ->
  file_content w first = Some (audio, sr) ->
  0 < len audio ->
  rglob_wav w (background_dir self) <> [] ->
  (forall f, In f (rglob_wav w (background_dir self)) ->
             exists noise,
               file_content w f = Some (noise, sr) /\ len noise = 0) ->
  exists d cu noise_file,
    augment_all w self s
    = (Raise ZeroDivisionError, mkState (trace s ++ d) cu)
    /\ In noise_file (rglob_wav w (background_dir self))
    /\ read_attempts d = [first; noise_file]
    /\ length (write_attempts d) = 5.
Proof.
  intros Hpos Hfile Hne Hbg Hempty.
  set (background_files := rglob_wav w (background_dir self)) in *.
  set (head := [EvInfo MsgRule; EvInfo MsgTitle; EvInfo MsgRule;
                EvInfo (MsgFoundPositive (length (first :: others)));
                EvInfo (MsgFoundBackground (length background_files))]).
  set (announce := EvInfo (MsgAugmenting 1 (length (first :: others))
                                         (name first))).
  destruct (empty_noise_aborts_sample w self first background_files "aug"
              audio sr
              (mkState ((trace s ++ head) ++ [announce]) (cursor s))
              Hfile Hne Hbg Hempty)
    as [slow [fast [noise_file [d [cu [_ [_ [Hin [Hrun [Hr Hw]]]]]]]]]].
  exists (head ++ [announce] ++ d), cu, noise_file.
  split; [|split; [exact Hin|split]].
  - apply (@proj1 _ (faithful w (trace s) (head ++ [announce] ++ d))).
    change (runs w (augment_all w self) s (Raise ZeroDivisionError)
                 (head ++ [announce] ++ d) cu).
    unfold augment_all. fold background_files. rewrite Hpos.
    apply runs_augment_all_head. fold head.
    apply runs_bind_raise. simpl for_each. apply runs_bind_raise.
    unfold augment_one.
    eapply runs_bind.
    + apply (runs_emit_info w _ (mkState (trace s ++ head) (cursor s))).
    + apply runs_bind_raise. exact Hrun.
  - rewrite !read_attempts_app. simpl. exact Hr.
  - rewrite !write_attempts_app. simpl. rewrite Hw. reflexivity.
Qed.

Lemma empty_noise_aborts_run_witness :
  exists d cu noise_file,
    augment_all (example_world empty_noise_content
                               [example_sample; unreadable_sample]
                               example_library)
                example_augmenter initial_state
    = (Raise ZeroDivisionError, mkState d cu)
    /\ read_attempts d = [example_sample; noise_file].
Proof.
  destruct (empty_noise_aborts_run
              (example_world empty_noise_content
                             [example_sample; unreadable_sample]
                             example_library)
              example_augmenter example_sample [unreadable_sample]
              (Mono [1%R]) 16000%Z initial_state eq_refl eq_refl
              ltac:(simpl; lia))
    as [d [cu [noise_file [Hrun [_ [Hr _]]]]]].
  - discriminate.
  - intros f [<-|[<-|[<-|[]]]]; exists (Mono []); split; reflexivity.
  - exists d, cu, noise_file. split; [exact Hrun|exact Hr].
Defined.

Lemma augment_sample_confined_witness :
  let w := example_world one_sample_content [example_sample]
                         example_library in
  let run := augment_sample w example_augmenter example_sample
                            example_library "aug" initial_state in
  (exists count, fst run = Ok count /\ count <= 8)
  /\ Forall (confined_write w example_augmenter example_sample)
            (write_attempts (trace (snd run))).
Proof.
  intros w run.
  destruct (augment_sample_confined w example_augmenter example_sample
                                    example_library "aug" initial_state)
    as [r [d [cu [Hrun [_ [_ [_ [Hconf [_ Hcount]]]]]]]]].
  fold run in Hrun. split.
  - destruct r as [count|e].
    + exists count. split; [rewrite Hrun; reflexivity|].
      apply Hcount. reflexivity.
    + exfalso.
      assert (E : fst run = Raise e) by (rewrite Hrun; reflexivity).
      vm_compute in E. discriminate E.
  - rewrite Hrun. apply Hconf. reflexivity.
Defined.

Lemma augment_all_confined_witness :
  exists d cu,
    augment_all (example_world one_sample_content [example_sample]
                               example_library)
                example_augmenter initial_state
    = (Ok tt, mkState d cu)
    /\ In (EvInfo (MsgTotalSize (1 + length (written d)))) d.
Proof.
  destruct (augment_all_confined
              (example_world one_sample_content [example_sample]
                             example_library)
              example_augmenter initial_state)
    as [[r [d [cu [Hrun [_ [_ [_ Htotal]]]]]]] _].
  assert (E : fst (augment_all
                     (example_world one_sample_content [example_sample]
                                    example_library)
                     example_augmenter initial_state)
              = r) by (rewrite Hrun; reflexivity).
  vm_compute in E. subst r.
  exists d, cu. split; [exact Hrun|].
  apply Htotal; [reflexivity|discriminate].
Defined.

(** ** The names of the output files *)

Lemma no_underscore_digits (d : Decimal.uint) :
  no_underscore (NilEmpty.string_of_uint d) = true.
Proof. induction d; simpl; auto. Qed.

Lemma variant_tags_no_underscore (k : nat) (t : string) :
  In t (variant_tags k) -> no_underscore t = true.
Proof.
  unfold variant_tags, fixed_tags. intro H. apply in_app_or in H.
  destruct H as [H|H].
  - simpl in H.
    destruct H as [<-|[<-|[<-|[<-|[<-|[]]]]]]; reflexivity.
  - apply in_map_iff in H. destruct H as [i [<- _]].
    unfold noise_tag, str_of_nat. simpl. apply no_underscore_digits.
Qed.

Lemma no_underscore_after_separator (b t : string) :
  no_underscore (b ++ String "_" t)%string = false.
Proof.
  induction b as [|c b IH]; simpl; [reflexivity|].
  rewrite IH. apply andb_false_r.
Qed.

(** A name is cut at its last separator in one way only. *)
Lemma split_at_last_separator (b1 b2 t1 t2 : string) :
  no_underscore t1 = true -> no_underscore t2 = true ->
  (b1 ++ String "_" t1)%string = (b2 ++ String "_" t2)%string ->
  b1 = b2 /\ t1 = t2.
Proof.
  intros H1 H2. revert b2.
  induction b1 as [|c b1 IH]; intros [|c2 b2] E; simpl in E.
  - injection E as E. split; [reflexivity|exact E].
  - injection E as _ E. rewrite E, no_underscore_after_separator in H1.
    discriminate H1.
  - injection E as _ E. rewrite <- E, no_underscore_after_separator in H2.
    discriminate H2.
  - injection E as Ec E. destruct (IH b2 E) as [Eb Et].
    split; [congruence|exact Et].
Qed.

(** Two variants never share an output file unless they are the same
    variant of samples with the same base name: with one prefix, the path
    of a variant determines the base name and the tag. *)
Theorem variant_names_never_collide (self : AudioAugmenter)
        (output_prefix b1 b2 t1 t2 : string) (k1 k2 : nat) :
  In t1 (variant_tags k1) ->
  In t2 (variant_tags k2) ->
  variant_path self output_prefix b1 t1
  = variant_path self output_prefix b2 t2 ->
  b1 = b2 /\ t1 = t2.
Proof.
  intros H1 H2 E. unfold variant_path in E.
  destruct (split_last_separator output_prefix) as [[dir file_prefix]|];
    injection E as E;
    apply string_app_inv_head in E; simpl in E; injection E as E;
    (apply split_at_last_separator;
     [exact (variant_tags_no_underscore k1 t1 H1)
     |exact (variant_tags_no_underscore k2 t2 H2)
     |exact E]).
Qed.

Lemma variant_names_never_collide_witness :
  In "noise0" (variant_tags 1)
  /\ ("hey_you" = "hey_you" /\ "noise0" = "noise0").
Proof.
  assert (H : In "noise0" (variant_tags 1))
    by (unfold variant_tags; simpl; do 5 right; left; reflexivity).
  split; [exact H|].
  exact (variant_names_never_collide example_augmenter "aug"
           "hey_you" "hey_you" "noise0" "noise0" 1 1 H H eq_refl).
Defined.

(** * Properties of the secure configuration *)

Module SecureConfigFacts.
Import SecureConfig.

(** The dict that [_load_config] builds when the three numbers parse. *)
Lemma load_config_shape (pf : Platform) (env : string -> option string)
      (c : dict) :
  _load_config pf env = Done c ->
  exists rate chunk timeout,
    py_int pf (getenv_default env "SAMPLE_RATE" "16000") = Some rate
    /\ py_int pf (getenv_default env "CHUNK_SAMPLES" "1280") = Some chunk
    /\ py_float pf (getenv_default env "SILENCE_TIMEOUT" "2.0")
       = Some timeout
    /\ c = [ ("openai_api_key", getenv env "OPENAI_API_KEY");
             ("porcupine_access_key", getenv env "PORCUPINE_ACCESS_KEY");
             ("elevenlabs_api_key", getenv env "ELEVENLABS_API_KEY");
             ("wake_word",
              PyStr (getenv_default env "WAKE_WORD" "computer"));
             ("tts_voice",
              PyStr (getenv_default env "TTS_VOICE" "de-DE-KatjaNeural"));
             ("stt_model", PyStr (getenv_default env "STT_MODEL" "de"));
             ("sample_rate", PyInt rate);
             ("chunk_samples", PyInt chunk);
             ("silence_timeout", PyFloat timeout);
             ("wake_word_model_path",
              PyStr (getenv_default env "WAKE_WORD_MODEL_PATH"
                                    "models/computer.ppn"));
             ("vosk_model_path",
              PyStr (getenv_default env "VOSK_MODEL_PATH"
                                    "models/vosk-model-de")) ].
Proof.
  unfold _load_config, to_int, to_float. intro H.
  destruct (py_int pf (getenv_default env "SAMPLE_RATE" "16000"))
    as [rate|]; [|discriminate H].
  destruct (py_int pf (getenv_default env "CHUNK_SAMPLES" "1280"))
    as [chunk|]; [|discriminate H].
  destruct (py_float pf (getenv_default env "SILENCE_TIMEOUT" "2.0"))
    as [timeout|]; [|discriminate H].
  simpl in H. injection H as <-.
  exists rate, chunk, timeout. repeat split; reflexivity.
Qed.

Lemma dict_get_missing (d : dict) (key : string) :
  ~ In key (map fst d) -> dict_get d key = None.
Proof.
  induction d as [|[k v] d IH]; simpl; intro H; [reflexivity|].
  destruct (String.eqb_spec k key) as [E|_].
  - exfalso. apply H. left. exact E.
  - apply IH. intro Hin. apply H. right. exact Hin.
Qed.

Lemma load_config_error (pf : Platform) (env : string -> option string)
      (e : error) :
  _load_config pf env = Fail e -> e = ValueError.
Proof.
  unfold _load_config, to_int, to_float.
  destruct (py_int pf (getenv_default env "SAMPLE_RATE" "16000"));
    [|simpl; congruence].
  destruct (py_int pf (getenv_default env "CHUNK_SAMPLES" "1280"));
    [|simpl; congruence].
  destruct (py_float pf (getenv_default env "SILENCE_TIMEOUT" "2.0"));
    simpl; congruence.
Qed.

Lemma get_required_api_keys (pf : Platform)
      (env : string -> option string) (c : dict) (loaded : bool) :
  _load_config pf env = Done c ->
  get_required (mkConfig c loaded) "openai_api_key"
  = match env "OPENAI_API_KEY" with
    | Some s => Done (PyStr s)
    | None => Fail ValueError
    end
  /\ get_required (mkConfig c loaded) "porcupine_access_key"
     = match env "PORCUPINE_ACCESS_KEY" with
       | Some s => Done (PyStr s)
       | None => Fail ValueError
       end
  /\ get_required (mkConfig c loaded) "elevenlabs_api_key"
     = match env "ELEVENLABS_API_KEY" with
       | Some s => Done (PyStr s)
       | None => Fail ValueError
       end.
Proof.
  intro H.
  destruct (load_config_shape pf env c H)
    as [rate [chunk [timeout [_ [_ [_ Hshape]]]]]].
  subst c. unfold get_required, getenv.
  split; [simpl; destruct (env "OPENAI_API_KEY"); reflexivity|].
  split; [simpl; destruct (env "PORCUPINE_ACCESS_KEY"); reflexivity|].
  simpl; destruct (env "ELEVENLABS_API_KEY"); reflexivity.
Qed.

(** [_load_config] fails exactly when one of the three numeric settings,
    taken from the environment or from its default, is refused by [int] or
    [float]; the failure is a [ValueError], and a configuration that loads
    has the eleven known keys, in the order of the source. *)
Theorem load_config_outcome (pf : Platform) (env : string -> option string) :
  ((exists c, _load_config pf env = Done c /\ map fst c = known_keys)
   <-> (py_int pf (getenv_default env "SAMPLE_RATE" "16000") <> None
        /\ py_int pf (getenv_default env "CHUNK_SAMPLES" "1280") <> None
        /\ py_float pf (getenv_default env "SILENCE_TIMEOUT" "2.0")
           <> None))
  /\ (forall e, _load_config pf env = Fail e -> e = ValueError).
Proof.
  split; [split|].
  - intros [c [H _]].
    destruct (load_config_shape pf env c H)
      as [rate [chunk [timeout [Hr [Hc [Ht _]]]]]].
    rewrite Hr, Hc, Ht. repeat split; discriminate.
  - intros [Hr [Hc Ht]]. unfold _load_config, to_int, to_float.
    destruct (py_int pf (getenv_default env "SAMPLE_RATE" "16000"))
      as [rate|]; [|congruence].
    destruct (py_int pf (getenv_default env "CHUNK_SAMPLES" "1280"))
      as [chunk|]; [|congruence].
    destruct (py_float pf (getenv_default env "SILENCE_TIMEOUT" "2.0"))
      as [timeout|]; [|congruence].
    eexists. split; reflexivity.
  - intro e. apply load_config_error.
Qed.

Lemma load_config_outcome_witness :
  _load_config example_platform example_environ = Fail ValueError.
Proof.
  destruct (_load_config example_platform example_environ) as [c|e] eqn:E.
  - discriminate E.
  - f_equal.
    exact (proj2 (load_config_outcome example_platform example_environ)
                 e E).
Defined.

(** On a loaded configuration, [get_required] raises for an API key
    exactly when its environment variable is not set, returns the stored
    value for each of the eight settings that have a default (the
    variable of the environment, or the default when it is not set), and
    raises for every other key. *)
Theorem get_required_after_load (pf : Platform)
        (env : string -> option string) (c : dict) (loaded : bool) :
  _load_config pf env = Done c ->
  let self := mkConfig c loaded in
  get_required self "openai_api_key"
  = match env "OPENAI_API_KEY" with
    | Some s => Done (PyStr s)
    | None => Fail ValueError
    end
  /\ get_required self "porcupine_access_key"
     = match env "PORCUPINE_ACCESS_KEY" with
       | Some s => Done (PyStr s)
       | None => Fail ValueError
       end
  /\ get_required self "elevenlabs_api_key"
     = match env "ELEVENLABS_API_KEY" with
       | Some s => Done (PyStr s)
       | None => Fail ValueError
       end
  /\ get_required self "wake_word"
     = Done (PyStr (getenv_default env "WAKE_WORD" "computer"))
  /\ get_required self "tts_voice"
     = Done (PyStr (getenv_default env "TTS_VOICE" "de-DE-KatjaNeural"))
  /\ get_required self "stt_model"
     = Done (PyStr (getenv_default env "STT_MODEL" "de"))
  /\ (exists rate,
         py_int pf (getenv_default env "SAMPLE_RATE" "16000") = Some rate
         /\ get_required self "sample_rate" = Done (PyInt rate))
  /\ (exists chunk,
         py_int pf (getenv_default env "CHUNK_SAMPLES" "1280") = Some chunk
         /\ get_required self "chunk_samples" = Done (PyInt chunk))
  /\ (exists timeout,
         py_float pf (getenv_default env "SILENCE_TIMEOUT" "2.0")
         = Some timeout
         /\ get_required self "silence_timeout" = Done (PyFloat timeout))
  /\ get_required self "wake_word_model_path"
     = Done (PyStr (getenv_default env "WAKE_WORD_MODEL_PATH"
                                   "models/computer.ppn"))
  /\ get_required self "vosk_model_path"
     = Done (PyStr (getenv_default env "VOSK_MODEL_PATH"
                                   "models/vosk-model-de"))
  /\ (forall key v,
         dict_get c key = Some v -> v <> PyNone ->
         get_required self key = Done v)
  /\ (forall key, ~ In key known_keys ->
                  get_required self key = Fail ValueError).
Proof.
  intros H self.
  destruct (load_config_shape pf env c H)
    as [rate [chunk [timeout [Hr [Hc [Ht Hshape]]]]]].
  assert (Hstored : forall key v,
             dict_get c key = Some v -> v <> PyNone ->
             get_required self key = Done v).
  { intros key v Hv Hnone. unfold get_required, self. simpl config.
    rewrite Hv. destruct v; [contradiction| | |]; reflexivity. }
  split; [|split; [|split; [|split; [|split; [|split; [|split; [|split;
    [|split; [|split; [|split; [|split]]]]]]]]]]];
    try exact Hstored.
  all: subst self; subst c; unfold get_required, getenv.
  - simpl; destruct (env "OPENAI_API_KEY"); reflexivity.
  - simpl; destruct (env "PORCUPINE_ACCESS_KEY"); reflexivity.
  - simpl; destruct (env "ELEVENLABS_API_KEY"); reflexivity.
  - reflexivity.
  - reflexivity.
  - reflexivity.
  - exists rate; split; [exact Hr|reflexivity].
  - exists chunk; split; [exact Hc|reflexivity].
  - exists timeout; split; [exact Ht|reflexivity].
  - reflexivity.
  - reflexivity.
  - intros key Hkey. simpl config.
    rewrite dict_get_missing by exact Hkey. reflexivity.
Qed.

Lemma example_config_loads :
  exists c, _load_config example_platform empty_environ = Done c.
Proof. eexists. reflexivity. Qed.

Lemma get_required_after_load_witness :
  exists c,
    _load_config example_platform empty_environ = Done c
    /\ get_required (mkConfig c false) "openai_api_key" = Fail ValueError
    /\ get_required (mkConfig c false) "wake_word"
       = Done (PyStr "computer")
    /\ get_required (mkConfig c false) "vosk_model_path"
       = Done (PyStr "models/vosk-model-de").
Proof.
  destruct example_config_loads as [c Hc]. exists c.
  split; [exact Hc|].
  destruct (get_required_after_load example_platform empty_environ c false
              Hc)
    as [Hkey [_ [_ [Hword [_ [_ [_ [_ [_ [_ [Hvosk _]]]]]]]]]]].
  split; [exact Hkey|]. split; [exact Hword|exact Hvosk].
Defined.

Lemma dict_get_present (d : dict) (key : string) :
  In key (map fst d) -> exists v, dict_get d key = Some v.
Proof.
  induction d as [|[k v] d IH]; simpl; intro H; [contradiction|].
  destruct (String.eqb_spec k key) as [E|Hne].
  - exists v. reflexivity.
  - destruct H as [E|H]; [contradiction|]. apply IH. exact H.
Qed.

Lemma loaded_keys (pf : Platform) (env : string -> option string)
      (c : dict) :
  _load_config pf env = Done c -> map fst c = known_keys.
Proof.
  intro H. destruct (load_config_shape pf env c H)
    as [rate [chunk [timeout [_ [_ [_ Hshape]]]]]].
  subst c. reflexivity.
Qed.

(** On a loaded configuration the default of [get] only serves for keys
    the configuration does not know: for each of the eleven known keys
    [get] returns the stored value whatever the default, so that an API
    key that is not set gives [None] even when a default is passed, and
    one that is set gives its value; for any other key [get] returns the
    default. *)
Theorem get_default_only_for_unknown_keys (pf : Platform)
        (env : string -> option string) (c : dict) (loaded : bool) :
  _load_config pf env = Done c ->
  let self := mkConfig c loaded in
  (forall key,
      In key known_keys ->
      exists v, dict_get c key = Some v
                /\ forall default, get self key default = v)
  /\ (forall default,
         get self "openai_api_key" default = getenv env "OPENAI_API_KEY"
         /\ get self "porcupine_access_key" default
            = getenv env "PORCUPINE_ACCESS_KEY"
         /\ get self "elevenlabs_api_key" default
            = getenv env "ELEVENLABS_API_KEY")
  /\ (forall default,
         (env "OPENAI_API_KEY" = None ->
          get self "openai_api_key" default = PyNone)
         /\ (env "PORCUPINE_ACCESS_KEY" = None ->
             get self "porcupine_access_key" default = PyNone)
         /\ (env "ELEVENLABS_API_KEY" = None ->
             get self "elevenlabs_api_key" default = PyNone))
  /\ (forall default,
         get self "wake_word" default
         = PyStr (getenv_default env "WAKE_WORD" "computer")
         /\ get self "tts_voice" default
            = PyStr (getenv_default env "TTS_VOICE" "de-DE-KatjaNeural")
         /\ get self "stt_model" default
            = PyStr (getenv_default env "STT_MODEL" "de")
         /\ get self "wake_word_model_path" default
            = PyStr (getenv_default env "WAKE_WORD_MODEL_PATH"
                                    "models/computer.ppn")
         /\ get self "vosk_model_path" default
            = PyStr (getenv_default env "VOSK_MODEL_PATH"
                                    "models/vosk-model-de"))
  /\ (forall default,
         exists rate chunk timeout,
           py_int pf (getenv_default env "SAMPLE_RATE" "16000") = Some rate
           /\ py_int pf (getenv_default env "CHUNK_SAMPLES" "1280")
              = Some chunk
           /\ py_float pf (getenv_default env "SILENCE_TIMEOUT" "2.0")
              = Some timeout
           /\ get self "sample_rate" default = PyInt rate
           /\ get self "chunk_samples" default = PyInt chunk
           /\ get self "silence_timeout" default = PyFloat timeout)
  /\ (forall key default,
         ~ In key known_keys -> get self key default = default).
Proof.
  intros H self. pose proof (loaded_keys pf env c H) as Hkeys.
  destruct (load_config_shape pf env c H)
    as [rate [chunk [timeout [Hr [Hc [Ht Hshape]]]]]].
  split; [|split; [|split; [|split; [|split]]]].
  - intros key Hin. unfold get, self. simpl config.
    rewrite <- Hkeys in Hin.
    destruct (dict_get_present c key Hin) as [v Hv].
    exists v. split; [exact Hv|]. intro default. rewrite Hv. reflexivity.
  - intro default. subst self. subst c. unfold get. simpl.
    split; [reflexivity|]. split; reflexivity.
  - intro default. subst self. subst c. unfold get, getenv. simpl.
    split; [intro E; rewrite E; reflexivity|].
    split; intro E; rewrite E; reflexivity.
  - intro default. subst self. subst c. unfold get. simpl.
    split; [reflexivity|]. split; [reflexivity|]. split; [reflexivity|].
    split; reflexivity.
  - intro default. exists rate, chunk, timeout.
    split; [exact Hr|]. split; [exact Hc|]. split; [exact Ht|].
    subst self. subst c. unfold get. simpl.
    split; [reflexivity|]. split; reflexivity.
  - intros key default Hkey. unfold get, self. simpl config.
    rewrite dict_get_missing by (rewrite Hkeys; exact Hkey).
    reflexivity.
Qed.

Lemma get_default_only_for_unknown_keys_witness :
  exists c,
    _load_config example_platform empty_environ = Done c
    /\ get (mkConfig c false) "openai_api_key" (PyStr "fallback") = PyNone
    /\ get (mkConfig c false) "elevenlabs_api_key" (PyStr "fallback")
       = PyNone
    /\ get (mkConfig c false) "wake_word" (PyStr "fallback")
       = PyStr "computer"
    /\ get (mkConfig c false) "language" (PyStr "fallback")
       = PyStr "fallback".
Proof.
  destruct example_config_loads as [c Hc]. exists c.
  split; [exact Hc|].
  destruct (get_default_only_for_unknown_keys example_platform
              empty_environ c false Hc)
    as [_ [_ [Hunset [Hword [_ Hother]]]]].
  destruct (Hunset (PyStr "fallback")) as [Hopenai [_ Heleven]].
  split; [apply Hopenai; reflexivity|].
  split; [apply Heleven; reflexivity|].
  split; [exact (proj1 (Hword (PyStr "fallback")))|].
  apply Hother. unfold known_keys. simpl. intuition discriminate.
Defined.

(** [validate_api_keys] on a loaded configuration reports, in the order
    OpenAI, Porcupine, ElevenLabs, whether the environment variable of each
    key is set (an empty string counts as set), which is exactly when
    [get_required] on that key does not raise. *)
Theorem validate_api_keys_after_load (pf : Platform)
        (env : string -> option string) (c : dict) (loaded : bool) :
  _load_config pf env = Done c ->
  let self := mkConfig c loaded in
  let is_set key := match env key with Some _ => true | None => false end in
  validate_api_keys self
  = [ ("OpenAI", is_set "OPENAI_API_KEY");
      ("Porcupine", is_set "PORCUPINE_ACCESS_KEY");
      ("ElevenLabs", is_set "ELEVENLABS_API_KEY") ]
  /\ (is_set "OPENAI_API_KEY" = true
      <-> get_required self "openai_api_key" <> Fail ValueError)
  /\ (is_set "PORCUPINE_ACCESS_KEY" = true
      <-> get_required self "porcupine_access_key" <> Fail ValueError)
  /\ (is_set "ELEVENLABS_API_KEY" = true
      <-> get_required self "elevenlabs_api_key" <> Fail ValueError).
Proof.
  intros H self is_set.
  destruct (get_required_api_keys pf env c loaded H) as [Ho [Hp He]].
  fold self in Ho, Hp, He. rewrite Ho, Hp, He.
  destruct (load_config_shape pf env c H)
    as [rate [chunk [timeout [_ [_ [_ Hshape]]]]]].
  split.
  - subst self. subst c. unfold validate_api_keys, getenv, is_set.
    simpl.
    destruct (env "OPENAI_API_KEY"), (env "PORCUPINE_ACCESS_KEY"),
      (env "ELEVENLABS_API_KEY"); reflexivity.
  - unfold is_set.
    destruct (env "OPENAI_API_KEY"), (env "PORCUPINE_ACCESS_KEY"),
      (env "ELEVENLABS_API_KEY");
      repeat split; intros; congruence.
Qed.

Lemma validate_api_keys_after_load_witness :
  exists c,
    _load_config example_platform empty_environ = Done c
    /\ validate_api_keys (mkConfig c false)
       = [("OpenAI", false); ("Porcupine", false); ("ElevenLabs", false)].
Proof.
  destruct example_config_loads as [c Hc]. exists c.
  split; [exact Hc|].
  exact (proj1 (validate_api_keys_after_load example_platform
                  empty_environ c false Hc)).
Defined.

(** The loading of the [.env] file fails when the look-up of the file or
    [load_dotenv] does; the process keeps its instance, its standard
    output and what it has printed. *)
Lemma load_env_file_outcome (pf : Platform) (env_file : option string)
      (p p' : Process) (r : outcome bool) :
  load_env_file pf env_file p = (r, p') ->
  _config_instance p' = _config_instance p
  /\ stdout p' = stdout p
  /\ printed p' = printed p
  /\ forall e,
      r = Fail e ->
      (exists env_path, env_file = Some env_path
                        /\ dotenv_available pf = true
                        /\ path_exists pf env_path = Fail e)
      \/ (exists env_path env,
             env_file = Some env_path
             /\ dotenv_available pf = true
             /\ path_exists pf env_path = Done true
             /\ load_dotenv pf env_path (environ p) = (Fail e, env)).
Proof.
  unfold load_env_file.
  destruct env_file as [env_path|];
    [|intro H; injection H as <- <-; repeat split;
      intros e He; discriminate He].
  destruct (dotenv_available pf) eqn:Ed;
    [|intro H; injection H as <- <-; repeat split;
      intros e He; discriminate He].
  destruct (truthy (Some env_path)); cbn [andb];
    [|intro H; injection H as <- <-; repeat split;
      intros e He; discriminate He].
  destruct (path_exists pf env_path) as [[|]|e0] eqn:Ex.
  - destruct (load_dotenv pf env_path (environ p)) as [[u|e0] env] eqn:El;
      intro H; injection H as <- <-; repeat split; intros e He;
      [discriminate He|].
    injection He as <-. right. exists env_path, env.
    split; [reflexivity|]. split; [reflexivity|].
    split; [exact Ex|exact El].
  - intro H. injection H as <- <-. repeat split.
    intros e He. discriminate He.
  - intro H. injection H as <- <-. repeat split.
    intros e He. injection He as <-. left. exists env_path.
    split; [reflexivity|]. split; [reflexivity|exact Ex].
Qed.

(** What can make [__init__] fail: the look-up of the [.env] file, its
    loading, or a numeric setting that [int] or [float] refuses; the
    process keeps its instance and its standard output. *)
Lemma init_outcome (pf : Platform) (env_file : option string)
      (p p' : Process) (r : outcome t) :
  __init__ pf env_file p = (r, p') ->
  _config_instance p' = _config_instance p
  /\ stdout p' = stdout p
  /\ printed p' = printed p
  /\ forall e,
      r = Fail e ->
      (exists env_path, env_file = Some env_path
                        /\ dotenv_available pf = true
                        /\ path_exists pf env_path = Fail e)
      \/ (exists env_path env,
             env_file = Some env_path
             /\ dotenv_available pf = true
             /\ path_exists pf env_path = Done true
             /\ load_dotenv pf env_path (environ p) = (Fail e, env))
      \/ (e = ValueError /\ _load_config pf (environ p') = Fail e).
Proof.
  unfold __init__, cbind.
  destruct (load_env_file pf env_file p) as [[loaded|e0] q] eqn:E;
    destruct (load_env_file_outcome pf env_file p q _ E)
      as [Hi [Ho [Hp Hf]]].
  - destruct (_load_config pf (environ q)) as [c|e1] eqn:El;
      intro H; injection H as <- <-;
      (split; [exact Hi|split; [exact Ho|split; [exact Hp|]]]);
      intros e He; [discriminate He|].
    injection He as <-. right. right.
    split; [exact (load_config_error pf _ _ El)|exact El].
  - intro H. injection H as <- <-.
    split; [exact Hi|]. split; [exact Ho|]. split; [exact Hp|].
    intros e He. injection He as <-.
    destruct (Hf e0 eq_refl) as [Ha|Hb];
      [left; exact Ha|right; left; exact Hb].
Qed.

(** The configuration is read once: after a [get_config] that returned,
    the instance is stored and every later [get_config] returns it and
    leaves the process as it is, whatever the environment has become; a
    [get_config] that raises leaves no instance behind, and what it raises
    is the failure of the look-up of the [.env] file, the failure of its
    loading, or the [ValueError] of a numeric setting that does not
    parse. *)
Theorem get_config_reads_once (pf : Platform) (p p' : Process) :
  (forall c,
      get_config pf p = (Done c, p') ->
      _config_instance p' = Some c
      /\ forall pf' env' logs prints out,
          get_config pf' (mkProcess env' logs prints out (Some c))
          = (Done c, mkProcess env' logs prints out (Some c)))
  /\ (forall e,
         get_config pf p = (Fail e, p') ->
         _config_instance p = None
         /\ _config_instance p' = None
         /\ (path_exists pf ".env" = Fail e
             \/ (exists env,
                    load_dotenv pf ".env" (environ p) = (Fail e, env))
             \/ (e = ValueError
                 /\ _load_config pf (environ p') = Fail e))).
Proof.
  unfold get_config. split.
  - intros c H. split; [|reflexivity].
    destruct (_config_instance p) as [c0|] eqn:Ei.
    + injection H as <- <-. exact Ei.
    + destruct (__init__ pf (Some ".env") p) as [[c1|e] p1];
        [|discriminate H].
      injection H as <- <-. reflexivity.
  - intros e H.
    destruct (_config_instance p) as [c0|] eqn:Ei; [discriminate H|].
    destruct (__init__ pf (Some ".env") p) as [[c1|e1] p1] eqn:Einit;
      [discriminate H|].
    injection H as <- <-.
    destruct (init_outcome pf (Some ".env") p p1 (Fail e1) Einit)
      as [Hinst [_ [_ Hfail]]].
    split; [reflexivity|]. split; [rewrite Hinst; exact Ei|].
    destruct (Hfail e1 eq_refl)
      as [[env_path [E [_ Hx]]]|[[env_path [env [E [_ [_ Hl]]]]]|Hv]].
    + injection E as <-. left. exact Hx.
    + injection E as <-. right. left. exists env. exact Hl.
    + right. right. exact Hv.
Qed.

Lemma get_config_reads_once_witness :
  (exists c p',
      get_config example_platform (fresh_process empty_environ)
      = (Done c, p')
      /\ _config_instance p' = Some c
      /\ get_config example_platform
                    (mkProcess example_environ [] [] utf8_stdout (Some c))
         = (Done c, mkProcess example_environ [] [] utf8_stdout (Some c)))
  /\ (exists p',
         get_config guarded_platform (fresh_process empty_environ)
         = (Fail OSError, p')
         /\ _config_instance p' = None)
  /\ (exists p',
         get_config example_platform (fresh_process example_environ)
         = (Fail ValueError, p')
         /\ _config_instance p' = None).
Proof.
  split; [|split].
  - destruct (get_config example_platform (fresh_process empty_environ))
      as [[c|e] p'] eqn:E; [|discriminate E].
    exists c, p'. split; [reflexivity|].
    destruct (get_config_reads_once example_platform
                (fresh_process empty_environ) p') as [Hdone _].
    destruct (Hdone c E) as [Hinst Hlater].
    split; [exact Hinst|apply Hlater].
  - eexists. split; [reflexivity|].
    exact (proj1 (proj2 (proj2 (get_config_reads_once guarded_platform
                                  (fresh_process empty_environ) _)
                               OSError eq_refl))).
  - eexists. split; [reflexivity|].
    exact (proj1 (proj2 (proj2 (get_config_reads_once example_platform
                                  (fresh_process example_environ) _)
                               ValueError eq_refl))).
Defined.

Lemma public_setting (env1 env2 : string -> option string)
      (key default : string) :
  same_public_view env1 env2 ->
  key <> "OPENAI_API_KEY" -> key <> "PORCUPINE_ACCESS_KEY" ->
  key <> "ELEVENLABS_API_KEY" ->
  getenv_default env1 key default = getenv_default env2 key default.
Proof.
  intros [Hpub _] H1 H2 H3. unfold getenv_default.
  rewrite (Hpub key H1 H2 H3). reflexivity.
Qed.

(** A [print] goes through exactly when the standard output takes the
    line. *)
Lemma print_accepted (l : line) (p : Process) :
  stdout p l = None ->
  print l p
  = (Done tt,
     mkProcess (environ p) (logged p) (printed p ++ [l]) (stdout p)
               (_config_instance p)).
Proof. intro H. unfold print. rewrite H. reflexivity. Qed.

Lemma print_refused (l : line) (p : Process) (e : error) :
  stdout p l = Some e -> print l p = (Fail e, p).
Proof. intro H. unfold print. rewrite H. reflexivity. Qed.

Lemma cbind_ext {A B : Type} (m m' : C A) (f g : A -> C B) (p : Process) :
  m p = m' p ->
  (forall a q, f a q = g a q) ->
  cbind m f p = cbind m' g p.
Proof.
  intros Hm Hf. unfold cbind. rewrite Hm.
  destruct (m' p) as [[a|e] q]; [apply Hf|reflexivity].
Qed.

Lemma print_all_app (xs ys : list line) (p : Process) :
  print_all (xs ++ ys) p = cbind (print_all xs) (fun _ => print_all ys) p.
Proof.
  revert p. induction xs as [|x xs IH]; intro p; [reflexivity|].
  simpl. unfold cbind.
  destruct (print x p) as [[[]|e] q]; [|reflexivity].
  rewrite IH. reflexivity.
Qed.

Lemma print_all_single (l : line) (p : Process) :
  print_all [l] p = print l p.
Proof.
  simpl. unfold cbind, cret.
  destruct (print l p) as [[[]|e] q]; reflexivity.
Qed.

Lemma print_setting_found (self : t) (label key tail : string) (v : value)
      (p : Process) :
  dict_get (config self) key = Some v ->
  print_setting self label key tail p = print (Setting label v tail) p.
Proof.
  intro H. unfold print_setting, cbind, item. rewrite H. reflexivity.
Qed.

(** On a loaded configuration [print_status] is the printing of the
    status lines, one after the other. *)
Lemma print_status_lines (pf : Platform) (env : string -> option string)
      (c : dict) (loaded : bool) (p : Process) :
  _load_config pf env = Done c ->
  print_status (mkConfig c loaded) p
  = print_all (status_lines (mkConfig c loaded)) p.
Proof.
  intro H.
  destruct (load_config_shape pf env c H)
    as [rate [chunk [timeout [_ [_ [_ Hshape]]]]]].
  unfold print_status, status_lines.
  cbn [print_all app].
  do 5 (apply cbind_ext; [reflexivity|intros _ ?]).
  rewrite print_all_app. apply cbind_ext; [reflexivity|intros _ ?].
  cbn [print_all app].
  apply cbind_ext; [reflexivity|intros _ ?].
  unfold setting_line, get.
  assert (Hw : exists v, dict_get c "wake_word" = Some v)
    by (subst c; eexists; reflexivity).
  assert (Hv : exists v, dict_get c "tts_voice" = Some v)
    by (subst c; eexists; reflexivity).
  assert (Hm : exists v, dict_get c "stt_model" = Some v)
    by (subst c; eexists; reflexivity).
  assert (Hr : exists v, dict_get c "sample_rate" = Some v)
    by (subst c; eexists; reflexivity).
  assert (Hc : exists v, dict_get c "chunk_samples" = Some v)
    by (subst c; eexists; reflexivity).
  assert (Ht : exists v, dict_get c "silence_timeout" = Some v)
    by (subst c; eexists; reflexivity).
  clear Hshape.
  destruct Hw as [vw Hw], Hv as [vv Hv], Hm as [vm Hm], Hr as [vr Hr],
    Hc as [vc Hc], Ht as [vt Ht].
  cbn [config]. rewrite Hw, Hv, Hm, Hr, Hc, Ht.
  apply cbind_ext;
    [apply print_setting_found; exact Hw|intros _ ?].
  apply cbind_ext;
    [apply print_setting_found; exact Hv|intros _ ?].
  apply cbind_ext;
    [apply print_setting_found; exact Hm|intros _ ?].
  apply cbind_ext; [reflexivity|intros _ ?].
  apply cbind_ext;
    [apply print_setting_found; exact Hr|intros _ ?].
  apply cbind_ext;
    [apply print_setting_found; exact Hc|intros _ ?].
  apply cbind_ext;
    [apply print_setting_found; exact Ht|intros _ ?].
  symmetry. apply print_all_single.
Qed.
(** When the standard output takes every line, all the lines are
    printed. *)
Lemma print_all_accepted (ls : list line) (p : Process) :
  accepts_all p ->
  print_all ls p
  = (Done tt,
     mkProcess (environ p) (logged p) (printed p ++ ls) (stdout p)
               (_config_instance p)).
Proof.
  revert p. induction ls as [|l ls IH]; intros p Hall.
  - simpl. unfold cret. rewrite app_nil_r. destruct p; reflexivity.
  - simpl. unfold cbind. rewrite (print_accepted l p (Hall l)).
    rewrite IH by exact Hall. simpl.
    rewrite <- app_assoc. reflexivity.
Qed.

(** A failure of the printing is the refusal of one of the lines by the
    standard output; the lines before it have been printed. *)
Lemma print_all_failure (ls : list line) (p p' : Process) (e : error) :
  print_all ls p = (Fail e, p') ->
  exists k l,
    nth_error ls k = Some l
    /\ stdout p l = Some e
    /\ printed p' = printed p ++ firstn k ls
    /\ environ p' = environ p
    /\ _config_instance p' = _config_instance p.
Proof.
  revert p. induction ls as [|l ls IH]; intros p H.
  - discriminate H.
  - simpl in H. unfold cbind in H.
    destruct (stdout p l) as [e0|] eqn:Eout.
    + rewrite (print_refused l p e0 Eout) in H. injection H as <- <-.
      exists 0, l. split; [reflexivity|]. split; [exact Eout|].
      split; [simpl; rewrite app_nil_r; reflexivity|].
      split; reflexivity.
    + rewrite (print_accepted l p Eout) in H.
      destruct (IH _ H) as [k [l' [Hnth [Hout [Hpr [Henv Hinst]]]]]].
      simpl in Hout, Hpr, Henv, Hinst.
      exists (S k), l'. split; [exact Hnth|]. split; [exact Hout|].
      split; [rewrite Hpr, <- app_assoc; reflexivity|].
      split; assumption.
Qed.

(** The status lines show the API keys only through their presence. *)
Lemma status_lines_public (pf : Platform)
      (env1 env2 : string -> option string) (c1 c2 : dict)
      (loaded : bool) :
  same_public_view env1 env2 ->
  _load_config pf env1 = Done c1 ->
  _load_config pf env2 = Done c2 ->
  status_lines (mkConfig c1 loaded) = status_lines (mkConfig c2 loaded).
Proof.
  intros Hview H1 H2.
  destruct (load_config_shape pf env1 c1 H1)
    as [rate1 [chunk1 [timeout1 [Hr1 [Hc1 [Ht1 Hs1]]]]]].
  destruct (load_config_shape pf env2 c2 H2)
    as [rate2 [chunk2 [timeout2 [Hr2 [Hc2 [Ht2 Hs2]]]]]].
  rewrite (public_setting env1 env2 "SAMPLE_RATE" "16000" Hview) in Hr1
    by discriminate.
  rewrite (public_setting env1 env2 "CHUNK_SAMPLES" "1280" Hview) in Hc1
    by discriminate.
  rewrite (public_setting env1 env2 "SILENCE_TIMEOUT" "2.0" Hview) in Ht1
    by discriminate.
  rewrite Hr2 in Hr1. rewrite Hc2 in Hc1. rewrite Ht2 in Ht1.
  injection Hr1 as <-. injection Hc1 as <-. injection Ht1 as <-.
  subst c1 c2.
  rewrite !(public_setting env1 env2 "WAKE_WORD" "computer" Hview)
    by discriminate.
  rewrite !(public_setting env1 env2 "TTS_VOICE" "de-DE-KatjaNeural" Hview)
    by discriminate.
  rewrite !(public_setting env1 env2 "STT_MODEL" "de" Hview)
    by discriminate.
  rewrite !(public_setting env1 env2 "WAKE_WORD_MODEL_PATH"
                           "models/computer.ppn" Hview) by discriminate.
  rewrite !(public_setting env1 env2 "VOSK_MODEL_PATH"
                           "models/vosk-model-de" Hview) by discriminate.
  destruct Hview as [_ Hpres].
  pose proof (Hpres "OPENAI_API_KEY") as Ho.
  pose proof (Hpres "PORCUPINE_ACCESS_KEY") as Hp.
  pose proof (Hpres "ELEVENLABS_API_KEY") as He.
  unfold getenv.
  destruct (env1 "OPENAI_API_KEY") as [o1|], (env2 "OPENAI_API_KEY")
    as [o2|];
    try (exfalso; destruct Ho as [Ha Hb];
         first [specialize (Ha eq_refl)|specialize (Hb eq_refl)];
         discriminate);
    destruct (env1 "PORCUPINE_ACCESS_KEY") as [a1|],
             (env2 "PORCUPINE_ACCESS_KEY") as [a2|];
    try (exfalso; destruct Hp as [Ha Hb];
         first [specialize (Ha eq_refl)|specialize (Hb eq_refl)];
         discriminate);
    destruct (env1 "ELEVENLABS_API_KEY") as [b1|],
             (env2 "ELEVENLABS_API_KEY") as [b2|];
    try (exfalso; destruct He as [Ha Hb];
         first [specialize (Ha eq_refl)|specialize (Hb eq_refl)];
         discriminate);
    reflexivity.
Qed.

(** [print_status] does not reveal the API keys: from the same process,
    two loaded configurations whose environments agree on every other
    variable, and on which API keys are set, have the same status lines,
    the same outcome and leave the same process.  On a loaded
    configuration [print_status] prints its status lines and returns
    whenever the standard output takes every line; it raises only what the
    standard output raises on one of these lines, the lines before it
    being printed. *)
Theorem print_status_hides_secrets (pf : Platform)
        (env1 env2 : string -> option string) (c1 c2 : dict)
        (loaded : bool) (p : Process) :
  same_public_view env1 env2 ->
  _load_config pf env1 = Done c1 ->
  _load_config pf env2 = Done c2 ->
  print_status (mkConfig c1 loaded) p = print_status (mkConfig c2 loaded) p
  /\ status_lines (mkConfig c1 loaded) = status_lines (mkConfig c2 loaded)
  /\ (accepts_all p ->
      print_status (mkConfig c1 loaded) p
      = (Done tt,
         mkProcess (environ p) (logged p)
                   (printed p ++ status_lines (mkConfig c1 loaded))
                   (stdout p) (_config_instance p)))
  /\ (forall e p',
         print_status (mkConfig c1 loaded) p = (Fail e, p') ->
         exists k l,
           nth_error (status_lines (mkConfig c1 loaded)) k = Some l
           /\ stdout p l = Some e
           /\ printed p'
              = printed p ++ firstn k (status_lines (mkConfig c1 loaded))).
Proof.
  intros Hview H1 H2.
  pose proof (status_lines_public pf env1 env2 c1 c2 loaded Hview H1 H2)
    as Hlines.
  rewrite (print_status_lines pf env1 c1 loaded p H1).
  rewrite (print_status_lines pf env2 c2 loaded p H2).
  split; [rewrite Hlines; reflexivity|]. split; [exact Hlines|].
  split.
  - apply print_all_accepted.
  - intros e p' H.
    destruct (print_all_failure _ p p' e H)
      as [k [l [Hnth [Hout [Hpr _]]]]].
    exists k, l. split; [exact Hnth|]. split; [exact Hout|exact Hpr].
Qed.

Lemma example_environ_other_key :
  same_public_view example_secret_environ other_secret_environ.
Proof.
  split.
  - intros key H1 H2 H3. unfold example_secret_environ,
      other_secret_environ.
    destruct (String.eqb_spec key "OPENAI_API_KEY") as [E|_];
      [contradiction|reflexivity].
  - intro key. unfold example_secret_environ, other_secret_environ.
    destruct (String.eqb key "OPENAI_API_KEY"); split; intro H;
      first [discriminate H|reflexivity].
Qed.

Lemma print_status_hides_secrets_witness :
  exists c1 c2,
    _load_config example_platform example_secret_environ = Done c1
    /\ _load_config example_platform other_secret_environ = Done c2
    /\ c1 <> c2
    /\ print_status (mkConfig c1 false)
                    (fresh_process example_secret_environ)
       = print_status (mkConfig c2 false)
                      (fresh_process example_secret_environ)
    /\ fst (print_status (mkConfig c1 false)
                         (fresh_process example_secret_environ))
       = Done tt.
Proof.
  eexists. eexists. split; [reflexivity|]. split; [reflexivity|].
  split; [discriminate|].
  destruct (print_status_hides_secrets example_platform
              example_secret_environ other_secret_environ _ _ false
              (fresh_process example_secret_environ)
              example_environ_other_key eq_refl eq_refl)
    as [Hsame [_ [Hdone _]]].
  split; [exact Hsame|].
  rewrite Hdone; [reflexivity|]. intro l. reflexivity.
Defined.

(** With a standard output whose encoding lacks the signs of the status
    lines, [print_status] raises at its fourth line. *)
Example print_status_ascii :
  exists c,
    _load_config example_platform empty_environ = Done c
    /\ fst (print_status (mkConfig c false)
                         (mkProcess empty_environ [] [] ascii_stdout None))
       = Fail UnicodeEncodeError
    /\ printed (snd (print_status (mkConfig c false)
                                  (mkProcess empty_environ [] []
                                             ascii_stdout None)))
       = [Rule; Title; Rule].
Proof.
  eexists. split; [reflexivity|]. split; reflexivity.
Qed.
End SecureConfigFacts.

(** * Properties of the dataset preparation *)

Module DatasetPreparerFacts.
Import DatasetPreparer.

Lemma effects_app (d1 d2 : list action) :
  effects (d1 ++ d2) = effects d1 ++ effects d2.
Proof.
  induction d1 as [|a d1 IH]; simpl; [reflexivity|].
  destruct a; simpl; rewrite IH; reflexivity.
Qed.

Lemma retrieved_app (d1 d2 : list action) :
  retrieved (d1 ++ d2) = retrieved d1 ++ retrieved d2.
Proof.
  induction d1 as [|a d1 IH]; simpl; [reflexivity|].
  destruct a; simpl; rewrite IH; reflexivity.
Qed.

Lemma dbind_run {A B : Type} (m : D A) (f : A -> D B) (t : list action)
      (a : A) (d1 d2 : list action) (r : outcome B) :
  m t = (Returned a, t ++ d1) ->
  f a (t ++ d1) = (r, (t ++ d1) ++ d2) ->
  dbind m f t = (r, t ++ d1 ++ d2).
Proof.
  intros H1 H2. unfold dbind. rewrite H1, H2, app_assoc. reflexivity.
Qed.

Lemma dbind_raised {A B : Type} (m : D A) (f : A -> D B) (t : list action)
      (d : list action) :
  m t = (Raised, t ++ d) -> dbind m f t = (Raised, t ++ d).
Proof. intro H. unfold dbind. rewrite H. reflexivity. Qed.

Lemma log_run (a : action) (t : list action) :
  log a t = (Returned tt, t ++ [a]).
Proof. reflexivity. Qed.

Lemma dret_run {A : Type} (a : A) (t : list action) :
  dret a t = (Returned a, t ++ []).
Proof. unfold dret. rewrite app_nil_r. reflexivity. Qed.

(** [download_file] never raises and reports the verdict of the net. *)
Lemma download_file_run (w : Net) (url : string) (destination : Path)
      (t : list action) :
  exists ok d,
    download_file w url destination t = (Returned ok, t ++ d)
    /\ effects d = [Retrieve url destination ok]
    /\ retrieved d = [(url, destination)].
Proof.
  unfold download_file.
  destruct (retrieve_ok w (t ++ [Info (Downloading url)]) url destination)
    eqn:E.
  - exists true.
    exists ([Info (Downloading url)]
            ++ [Retrieve url destination true]
            ++ [Info (Downloaded destination)] ++ []).
    split; [|split; reflexivity].
    eapply dbind_run; [apply log_run|]. rewrite E.
    eapply dbind_run; [apply log_run|].
    eapply dbind_run; [apply log_run|].
    apply dret_run.
  - exists false.
    exists ([Info (Downloading url)]
            ++ [Retrieve url destination false]
            ++ [Error (DownloadFailed url)] ++ []).
    split; [|split; reflexivity].
    eapply dbind_run; [apply log_run|]. rewrite E.
    eapply dbind_run; [apply log_run|].
    eapply dbind_run; [apply log_run|].
    apply dret_run.
Qed.

(** What [extract_archive] does with each kind of suffix. *)
Lemma extract_archive_run (w : Net) (archive_path : Path)
      (extract_to : string) (t : list action) :
  exists ok d,
    extract_archive w archive_path extract_to t = (Returned ok, t ++ d)
    /\ effects d
       = (if String.eqb (suffix archive_path) ".zip"
          then [Unzip archive_path extract_to ok]
          else if is_tar_suffix (suffix archive_path)
               then [Untar archive_path extract_to ok]
               else [])
    /\ retrieved d = []
    /\ (String.eqb (suffix archive_path) ".zip" = false ->
        is_tar_suffix (suffix archive_path) = false ->
        ok = false
        /\ In (Error (UnknownFormat (suffix archive_path))) d).
Proof.
  unfold extract_archive.
  set (t1 := t ++ [Info (Extracting (name archive_path))]).
  destruct (String.eqb (suffix archive_path) ".zip") eqn:Ez.
  - destruct (unzip_ok w t1 archive_path extract_to) eqn:E.
    + exists true.
      exists ([Info (Extracting (name archive_path))]
              ++ [Unzip archive_path extract_to true]
              ++ [Info (Extracted extract_to)] ++ []).
      split; [|split; [reflexivity|split; [reflexivity|]]].
      * eapply dbind_run; [apply log_run|]. fold t1. rewrite E.
        eapply dbind_run; [apply log_run|].
        eapply dbind_run; [apply log_run|].
        apply dret_run.
      * intro H. discriminate H.
    + exists false.
      exists ([Info (Extracting (name archive_path))]
              ++ [Unzip archive_path extract_to false]
              ++ [Error (ExtractFailed archive_path)] ++ []).
      split; [|split; [reflexivity|split; [reflexivity|]]].
      * eapply dbind_run; [apply log_run|]. fold t1. rewrite E.
        eapply dbind_run; [apply log_run|].
        eapply dbind_run; [apply log_run|].
        apply dret_run.
      * intro H. discriminate H.
  - destruct (is_tar_suffix (suffix archive_path)) eqn:Et.
    + destruct (untar_ok w t1 archive_path extract_to) eqn:E.
      * exists true.
        exists ([Info (Extracting (name archive_path))]
                ++ [Untar archive_path extract_to true]
                ++ [Info (Extracted extract_to)] ++ []).
        split; [|split; [reflexivity|split; [reflexivity|]]].
        -- eapply dbind_run; [apply log_run|]. fold t1. rewrite E.
           eapply dbind_run; [apply log_run|].
           eapply dbind_run; [apply log_run|].
           apply dret_run.
        -- intros _ H. discriminate H.
      * exists false.
        exists ([Info (Extracting (name archive_path))]
                ++ [Untar archive_path extract_to false]
                ++ [Error (ExtractFailed archive_path)] ++ []).
        split; [|split; [reflexivity|split; [reflexivity|]]].
        -- eapply dbind_run; [apply log_run|]. fold t1. rewrite E.
           eapply dbind_run; [apply log_run|].
           eapply dbind_run; [apply log_run|].
           apply dret_run.
        -- intros _ H. discriminate H.
    + exists false.
      exists ([Info (Extracting (name archive_path))]
              ++ [Error (UnknownFormat (suffix archive_path))] ++ []).
      split; [|split; [reflexivity|split; [reflexivity|]]].
      * eapply dbind_run; [apply log_run|].
        eapply dbind_run; [apply log_run|].
        apply dret_run.
      * intros _ _. split; [reflexivity|]. right. left. reflexivity.
Qed.

(** [extract_archive] never raises; the suffix alone chooses between
    [zipfile], [tarfile] and no extraction at all: an archive whose suffix
    is none of [.zip], [.tar], [.gz], [.tgz] is refused without being
    touched. *)
Theorem extract_archive_dispatch (w : Net) (archive_path : Path)
        (extract_to : string) (t : list action) :
  exists ok d,
    extract_archive w archive_path extract_to t = (Returned ok, t ++ d)
    /\ effects d
       = (if String.eqb (suffix archive_path) ".zip"
          then [Unzip archive_path extract_to ok]
          else if is_tar_suffix (suffix archive_path)
               then [Untar archive_path extract_to ok]
               else [])
    /\ (String.eqb (suffix archive_path) ".zip" = false ->
        is_tar_suffix (suffix archive_path) = false ->
        ok = false
        /\ In (Error (UnknownFormat (suffix archive_path))) d).
Proof.
  destruct (extract_archive_run w archive_path extract_to t)
    as [ok [d [Hrun [Hfx [_ Hunknown]]]]].
  exists ok, d. split; [exact Hrun|]. split; [exact Hfx|exact Hunknown].
Qed.

Lemma extract_archive_dispatch_witness :
  exists d,
    extract_archive live_net (mkPath "data" "noise" ".rar") "data" []
    = (Returned false, d)
    /\ effects d = [].
Proof.
  destruct (extract_archive_dispatch live_net
              (mkPath "data" "noise" ".rar") "data" [])
    as [ok [d [Hrun [Hfx Hunknown]]]].
  destruct (Hunknown eq_refl eq_refl) as [Hok _]. subst ok.
  exists d. split; [exact Hrun|exact Hfx].
Defined.

(** The archive of the speech commands is a [.gz]: it goes to
    [tarfile]. *)
Lemma extract_speech_commands (w : Net) (directory : string)
      (t : list action) :
  exists ok d,
    extract_archive w (archive_in directory) directory t
    = (Returned ok, t ++ d)
    /\ effects d = [Untar (archive_in directory) directory ok]
    /\ retrieved d = [].
Proof.
  destruct (extract_archive_run w (archive_in directory) directory t)
    as [ok [d [Hrun [Hfx [Hret _]]]]].
  exists ok, d. split; [exact Hrun|]. split; [exact Hfx|exact Hret].
Qed.

(** [archive_path.unlink()] in any net. *)
Lemma unlink_run (w : Net) (p : Path) (t : list action) :
  (unlink_ok w t p = true
   /\ unlink w p t = (Returned tt, t ++ [Unlink p true]))
  \/ (unlink_ok w t p = false
      /\ unlink w p t = (Raised, t ++ [Unlink p false])).
Proof.
  unfold unlink. destruct (unlink_ok w t p); [left|right];
    split; reflexivity.
Qed.

(** One dataset download, in any net. *)
Lemma download_dataset_run (w : Net) (directory : string)
      (banner ready : message) (t : list action) :
  exists r d,
    download_dataset w directory banner ready t = (r, t ++ d)
    /\ download_course directory r (effects d)
    /\ retrieved d = [(speech_commands_url, archive_in directory)]
    /\ ((forall h p, unlink_ok w h p = true) -> r <> Raised).
Proof.
  unfold download_dataset.
  destruct (download_file_run w speech_commands_url (archive_in directory)
              (t ++ [Info banner]))
    as [ok1 [d1 [H1 [Hfx1 Hret1]]]].
  destruct ok1.
  - destruct (extract_speech_commands w directory
                ((t ++ [Info banner]) ++ d1))
      as [ok2 [d2 [H2 [Hfx2 Hret2]]]].
    destruct ok2.
    + destruct (unlink_run w (archive_in directory)
                  (((t ++ [Info banner]) ++ d1) ++ d2))
        as [[E3 H3]|[E3 H3]].
      * exists (Returned true),
          ([Info banner] ++ d1 ++ d2
           ++ [Unlink (archive_in directory) true] ++ [Info ready] ++ []).
        split; [|split; [|split]].
        -- eapply dbind_run; [apply log_run|].
           eapply dbind_run; [exact H1|]. simpl negb. cbv iota.
           eapply dbind_run; [exact H2|]. simpl negb. cbv iota.
           eapply dbind_run; [exact H3|].
           eapply dbind_run; [apply log_run|].
           apply dret_run.
        -- rewrite !effects_app, Hfx1, Hfx2. simpl.
           right. right. left. split; reflexivity.
        -- rewrite !retrieved_app, Hret1, Hret2. reflexivity.
        -- intros _ H. discriminate H.
      * exists Raised,
          ([Info banner] ++ d1 ++ d2
           ++ [Unlink (archive_in directory) false]).
        split; [|split; [|split]].
        -- eapply dbind_run; [apply log_run|].
           eapply dbind_run; [exact H1|]. simpl negb. cbv iota.
           eapply dbind_run; [exact H2|]. simpl negb. cbv iota.
           apply dbind_raised. exact H3.
        -- rewrite !effects_app, Hfx1, Hfx2. simpl.
           right. right. right. split; reflexivity.
        -- rewrite !retrieved_app, Hret1, Hret2. reflexivity.
        -- intros Hall _. rewrite Hall in E3. discriminate E3.
    + exists (Returned false), ([Info banner] ++ d1 ++ d2 ++ []).
      split; [|split; [|split]].
      * eapply dbind_run; [apply log_run|].
        eapply dbind_run; [exact H1|]. simpl negb. cbv iota.
        eapply dbind_run; [exact H2|]. simpl negb. cbv iota.
        apply dret_run.
      * rewrite !effects_app, Hfx1, Hfx2. simpl.
        right. left. split; reflexivity.
      * rewrite !retrieved_app, Hret1, Hret2. reflexivity.
      * intros _ H. discriminate H.
  - exists (Returned false), ([Info banner] ++ d1 ++ []).
    split; [|split; [|split]].
    + eapply dbind_run; [apply log_run|].
      eapply dbind_run; [exact H1|]. simpl negb. cbv iota.
      apply dret_run.
    + rewrite !effects_app, Hfx1. simpl. left. split; reflexivity.
    + rewrite !retrieved_app, Hret1. reflexivity.
    + intros _ H. discriminate H.
Qed.

(** Each of the two downloads takes one of four courses: the download
    fails and nothing else is tried; the archive is downloaded but
    [tarfile] fails, and the archive is kept; everything goes through, the
    archive is deleted and the result is [True]; or the deletion fails and
    the exception escapes.  The archive is never handed to [zipfile], and
    both methods fetch the same URL. *)
Theorem download_courses (w : Net) (self : t) (h : list action) :
  (exists r d,
      download_background_noise w self h = (r, h ++ d)
      /\ download_course (background_dir self) r (effects d))
  /\ (exists r d,
         download_negative_samples w self h = (r, h ++ d)
         /\ download_course (negative_dir self) r (effects d)).
Proof.
  split.
  - destruct (download_dataset_run w (background_dir self) BackgroundBanner
                BackgroundReady h) as [r [d [Hrun [Hc _]]]].
    exists r, d. split; [exact Hrun|exact Hc].
  - destruct (download_dataset_run w (negative_dir self) NegativeBanner
                NegativeReady h) as [r [d [Hrun [Hc _]]]].
    exists r, d. split; [exact Hrun|exact Hc].
Qed.






(** A deletion that fails stops everything: when the background archive
    is downloaded and extracted but cannot be deleted, [prepare_all]
    raises, and the negative samples are never downloaded. *)
Theorem prepare_all_stops_on_unlink (w : Net) (self : t)
        (h : list action) :
  (forall h', retrieve_ok w h' speech_commands_url
                          (archive_in (background_dir self)) = true) ->
  (forall h', untar_ok w h' (archive_in (background_dir self))
                       (background_dir self) = true) ->
  (forall h', unlink_ok w h' (archive_in (background_dir self)) = false) ->
  exists d,
    prepare_all w self h = (Raised, h ++ d)
    /\ retrieved d
       = [(speech_commands_url, archive_in (background_dir self))]
    /\ effects d
       = [Retrieve speech_commands_url (archive_in (background_dir self))
                   true;
          Untar (archive_in (background_dir self)) (background_dir self)
                true;
          Unlink (archive_in (background_dir self)) false].
Proof.
  intros Hget Htar Hdel. unfold prepare_all.
  set (h3 := ((h ++ [Info Rule]) ++ [Info PreparationTitle])
             ++ [Info Rule]).
  destruct (download_dataset_run w (background_dir self) BackgroundBanner
              BackgroundReady h3) as [r1 [d1 [H1 [Hc [R1 _]]]]].
  assert (Hcourse :
            effects d1
            = [Retrieve speech_commands_url
                        (archive_in (background_dir self)) true;
               Untar (archive_in (background_dir self))
                     (background_dir self) true;
               Unlink (archive_in (background_dir self)) false]
            /\ r1 = Raised).
  { revert Hc. clear - H1 Hget Htar Hdel.
    unfold download_background_noise in *.
    unfold download_dataset, download_file, extract_archive, unlink,
      dbind, log, dret in H1.
    rewrite Hget in H1. simpl in H1. rewrite Htar in H1. simpl in H1.
    rewrite Hdel in H1.
    intros [[Hfx Hr]|[[Hfx Hr]|[[Hfx Hr]|[Hfx Hr]]]];
      try (subst r1; discriminate H1).
    split; assumption. }
  destruct Hcourse as [Hfx ->].
  exists ([Info Rule] ++ [Info PreparationTitle] ++ [Info Rule] ++ d1).
  split; [|split].
  - eapply dbind_run; [apply log_run|].
    eapply dbind_run; [apply log_run|].
    eapply dbind_run; [apply log_run|].
    apply dbind_raised. exact H1.
  - rewrite !retrieved_app, R1. reflexivity.
  - rewrite !effects_app, Hfx. reflexivity.
Qed.

Lemma prepare_all_stops_on_unlink_witness :
  exists d,
    prepare_all locked_net (init "data") [] = (Raised, d)
    /\ length (retrieved d) = 1.
Proof.
  destruct (prepare_all_stops_on_unlink locked_net (init "data") [])
    as [d [Hrun [Hr _]]].
  - intro h'. reflexivity.
  - intro h'. reflexivity.
  - intro h'. reflexivity.
  - exists d. split; [exact Hrun|]. rewrite Hr. reflexivity.
Defined.

End DatasetPreparerFacts.
